(** * The e-mail quiz service: a shallow embedding and its properties

    The development follows the Python sources:
    - [config.py]           : the settings record [Config];
    - [email_service.py]    : message model, body extraction, the response
                              classifier [check_for_response];
    - [grading_service.py]  : [grade_response], [format_feedback_message];
    - [main.py]             : the persisted stores, the selector, the
                              scheduler loop.

    Conventions.  Python [str] values are ASCII strings.  Integers are [Z].
    A Python call that may raise is a value of [Outcome].  Float arithmetic
    of the selector is carried out in [Q]; where a float comparison is
    replaced by an integer one the reason is given at the definition.
    Time stamps of [datetime] are [Z] microseconds; Gmail's [internalDate]
    is [Z] milliseconds. *)

From Stdlib Require Import ZArith QArith List String Ascii Bool Lia DecimalString.
From Stdlib Require Import Sorting Permutation Qminmax.
From stdpp Require Import gmap strings list fin_maps.

Set Warnings "-register-all,-abstract-large-number".

Local Open Scope string_scope.
Local Open Scope Z_scope.

(** ** Outcomes of calls that may raise *)

Inductive Outcome (A : Type) : Type :=
| Returns (a : A)
| Raises (msg : string).
Arguments Returns {A} a.
Arguments Raises {A} msg.

(** ** Python string primitives *)

Module Py.

Definition nl : ascii := "010"%char.

(** [str.isspace] on the ASCII range: TAB..CR, FS..US and the blank. *)
Definition isspace (c : ascii) : bool :=
  let n := nat_of_ascii c in
  ((9 <=? n) && (n <=? 13) || (28 <=? n) && (n <=? 32))%nat.

Definition lower_char (c : ascii) : ascii :=
  let n := nat_of_ascii c in
  if ((65 <=? n) && (n <=? 90))%nat then ascii_of_nat (n + 32) else c.

(** [s.lower()] *)
Fixpoint lower (s : string) : string :=
  match s with
  | EmptyString => EmptyString
  | String c s' => String (lower_char c) (lower s')
  end.

(** The truth value of a string: non-empty. *)
Definition truthy (s : string) : bool :=
  match s with EmptyString => false | _ => true end.

(** [s[:n]] *)
Fixpoint str_take (n : nat) (s : string) : string :=
  match n, s with
  | S n', String c s' => String c (str_take n' s')
  | _, _ => EmptyString
  end.

(** [s[n:]] *)
Fixpoint str_drop (n : nat) (s : string) : string :=
  match n, s with
  | S n', String _ s' => str_drop n' s'
  | _, _ => s
  end.

(** [sub in s] *)
Fixpoint contains (sub s : string) : bool :=
  String.prefix sub s ||
  match s with
  | EmptyString => false
  | String _ s' => contains sub s'
  end.

Fixpoint str_rev_onto (s acc : string) : string :=
  match s with
  | EmptyString => acc
  | String c s' => str_rev_onto s' (String c acc)
  end.

Definition str_rev (s : string) : string := str_rev_onto s EmptyString.

Fixpoint lstrip (s : string) : string :=
  match s with
  | String c s' => if isspace c then lstrip s' else s
  | EmptyString => EmptyString
  end.

(** [s.strip()] *)
Definition strip (s : string) : string := lstrip (str_rev (lstrip (str_rev s))).

(** [s.split()] : maximal runs of non-blank characters.  [cur] is the word
    being read, reversed. *)
Fixpoint split_ws_from (s cur : string) : list string :=
  match s with
  | EmptyString =>
      match cur with EmptyString => [] | _ => [str_rev cur] end
  | String c s' =>
      if isspace c
      then match cur with
           | EmptyString => split_ws_from s' EmptyString
           | _ => str_rev cur :: split_ws_from s' EmptyString
           end
      else split_ws_from s' (String c cur)
  end.

Definition split_ws (s : string) : list string := split_ws_from s EmptyString.

(** [s.split(sep)] for a non-empty [sep]: leftmost non-overlapping
    occurrences.  [skip] counts the characters of a separator still to be
    passed over; [cur] is the piece being read, reversed. *)
Fixpoint split_on_from (sep s cur : string) (skip : nat) : list string :=
  match s with
  | EmptyString => [str_rev cur]
  | String c s' =>
      match skip with
      | S k => split_on_from sep s' cur k
      | O =>
          if String.prefix sep s
          then str_rev cur :: split_on_from sep s' EmptyString (String.length sep - 1)
          else split_on_from sep s' (String c cur) O
      end
  end.

Definition split_on (sep s : string) : list string :=
  split_on_from sep s EmptyString O.

(** [len(set(ws))] and [len(set(qs) & set(rs))] *)
Definition distinct (ws : list string) : list string := remove_dups ws.

Definition common (qs rs : list string) : list string :=
  List.filter (fun w => bool_decide (w ∈ rs)) (distinct qs).

(** [s.endswith(suffix)] *)
Definition ends_with (suffix s : string) : bool :=
  String.prefix (str_rev suffix) (str_rev s).

(** [s.replace(old, '')] for a non-empty [old] *)
Definition remove_all (old s : string) : string :=
  String.concat "" (split_on old s).

(** The first, the last character is a blank. *)
Definition starts_blank (s : string) : bool :=
  match s with String c _ => isspace c | EmptyString => false end.

Definition ends_blank (s : string) : bool := starts_blank (str_rev s).

(** No character of [s] is a blank. *)
Fixpoint blank_free (s : string) : bool :=
  match s with
  | EmptyString => true
  | String c s' => negb (isspace c) && blank_free s'
  end.

(** No character of [s] is [c]. *)
Fixpoint free_of (c : ascii) (s : string) : bool :=
  match s with
  | EmptyString => true
  | String c' s' => negb (Ascii.eqb c' c) && free_of c s'
  end.

End Py.

(** ** The regular expressions of [email_service.py]

    Each substitution is written as the scanner that [re.sub] performs for
    that pattern. *)

Module Re.

Import Py.

(** [re.sub(r'^>.*$', '', s, flags=re.MULTILINE)]: at the start of a line a
    [>] and the rest of the line (up to, not including, the newline) is
    removed.  [bol]: at the beginning of a line; [dropping]: inside a
    match. *)
Fixpoint drop_quoted_from (s : string) (bol dropping : bool) : string :=
  match s with
  | EmptyString => EmptyString
  | String c s' =>
      if Ascii.eqb c nl then String c (drop_quoted_from s' true false)
      else if dropping then drop_quoted_from s' false true
      else if bol && Ascii.eqb c ">"%char then drop_quoted_from s' false true
      else String c (drop_quoted_from s' false false)
  end.

Definition drop_quoted (s : string) : string := drop_quoted_from s true false.

(** [re.sub(r'On .+ wrote:.*$', '', s, flags=re.MULTILINE | re.DOTALL)]:
    with DOTALL the match runs to the end of the string, so everything from
    the leftmost ["On "] that is followed, after at least one character, by
    [" wrote:"] is removed. *)
Fixpoint drop_attribution (s : string) : string :=
  match s with
  | EmptyString => EmptyString
  | String c s' =>
      if String.prefix "On " s && contains " wrote:" (str_drop 4 s)
      then EmptyString
      else String c (drop_attribution s')
  end.

(** Length of the match of [\s*\n] after a newline: the leading run of
    blanks up to its last newline, if it has one. *)
Fixpoint blank_run_to_newline (s : string) : option nat :=
  match s with
  | String c s' =>
      if isspace c
      then match blank_run_to_newline s' with
           | Some k => Some (S k)
           | None => if Ascii.eqb c nl then Some 1%nat else None
           end
      else None
  | EmptyString => None
  end.

(** [re.sub(r'\n\s*\n', '\n', s)] *)
Fixpoint collapse_blank_from (s : string) (skip : nat) : string :=
  match s with
  | EmptyString => EmptyString
  | String c s' =>
      match skip with
      | S k => collapse_blank_from s' k
      | O =>
          if Ascii.eqb c nl
          then match blank_run_to_newline s' with
               | Some k => String nl (collapse_blank_from s' k)
               | None => String c (collapse_blank_from s' O)
               end
          else String c (collapse_blank_from s' O)
      end
  end.

Definition collapse_blank (s : string) : string := collapse_blank_from s O.

(** Length of the match of [[^<]+?>] after a [<]: one character that is
    not [<], then the shortest run without [<] up to a [>]. *)
Fixpoint to_closing (s : string) : option nat :=
  match s with
  | EmptyString => None
  | String c s' =>
      if Ascii.eqb c ">"%char then Some 1%nat
      else if Ascii.eqb c "<"%char then None
      else match to_closing s' with Some k => Some (S k) | None => None end
  end.

Definition tag_rest (s : string) : option nat :=
  match s with
  | EmptyString => None
  | String c s' =>
      if Ascii.eqb c "<"%char then None
      else match to_closing s' with Some k => Some (S k) | None => None end
  end.

(** [re.sub('<[^<]+?>', '', html)] *)
Fixpoint strip_tags_from (s : string) (skip : nat) : string :=
  match s with
  | EmptyString => EmptyString
  | String c s' =>
      match skip with
      | S k => strip_tags_from s' k
      | O =>
          if Ascii.eqb c "<"%char
          then match tag_rest s' with
               | Some k => strip_tags_from s' k
               | None => String c (strip_tags_from s' O)
               end
          else String c (strip_tags_from s' O)
      end
  end.

Definition strip_tags (s : string) : string := strip_tags_from s O.

End Re.

(** ** [config.py] *)

Record Config := {
  TARGET_EMAIL : string;
  EMAIL_THREAD_ID : string;
  EMAIL_SUBJECT : string;
  STATE_FILE : string;
  SCORES_FILE : string;
  PROGRESS_FILE : string;
  POLL_INTERVAL_SECONDS : Z;
  QUESTION_INTERVAL_MINUTES : Z
}.

(** The settings a run has once [TARGET_EMAIL] is given and every other
    variable is left to its default. *)
Definition default_config (target : string) : Config := {|
  TARGET_EMAIL := target;
  EMAIL_THREAD_ID := "";
  EMAIL_SUBJECT := "Quiz Question";
  STATE_FILE := "state.json";
  SCORES_FILE := "scores.json";
  PROGRESS_FILE := "progress.json";
  POLL_INTERVAL_SECONDS := 30;
  QUESTION_INTERVAL_MINUTES := 10
|}.

(** ** [email_service.py] *)

Module EmailService.

Import Py.

(** A MIME part of a Gmail payload.  [data] is the body data after
    [base64.urlsafe_b64decode(..).decode('utf-8')]; a part without a body
    or without data has [None]. *)
Inductive Part : Type :=
| MkPart (mimeType : option string) (data : option string) (parts : list Part).

Record Message := {
  id : string;
  internalDate : option Z;
  headers : list (string * string);
  payload : Part
}.

(** The Gmail client as the service uses it: [users().messages().get] and
    [users().threads().get]; [None] stands for a raised [HttpError]. *)
Record Gmail := {
  messages_get : string -> option Message;
  threads_get : string -> option (list Message)
}.

(** [int(m.get('internalDate', 0))] *)
Definition timestamp (m : Message) : Z := default 0 (internalDate m).

(** [extract_from_part]: a plain-text part with data yields its text, an
    HTML part with data its text without tags; otherwise the first sub-part
    that yields a non-empty text. *)
Fixpoint extract_from_part (p : Part) : string :=
  match p with
  | MkPart mime data parts =>
      let in_parts :=
        (fix first_text (ps : list Part) : string :=
           match ps with
           | [] => ""
           | sub :: ps' =>
               let text := extract_from_part sub in
               if truthy text then text else first_text ps'
           end) parts in
      if bool_decide (mime = Some "text/plain") then
        match data with
        | Some d => if truthy d then d else in_parts
        | None => in_parts
        end
      else if bool_decide (mime = Some "text/html") then
        match data with
        | Some d => if truthy d then Re.strip_tags d else in_parts
        | None => in_parts
        end
      else in_parts
  end.

Definition extract_message_text (m : Message) : string :=
  extract_from_part (payload m).

(** [get_thread_messages] *)
Definition get_thread_messages (svc : Gmail) (thread_id : string)
  : Outcome (list Message) :=
  match threads_get svc thread_id with
  | Some ms => Returns ms
  | None => Raises "Error retrieving thread"
  end.

(** [messages.sort(key=lambda m: int(m.get('internalDate', 0)), reverse=True)]:
    a stable sort, newest first; messages of equal date keep their order. *)
Fixpoint insert_newest (m : Message) (sorted : list Message) : list Message :=
  match sorted with
  | [] => [m]
  | y :: rest =>
      if timestamp y <? timestamp m then m :: y :: rest
      else y :: insert_newest m rest
  end.

Definition sort_newest_first (ms : list Message) : list Message :=
  fold_left (fun acc m => insert_newest m acc) ms [].

(** [get_latest_message] *)
Definition get_latest_message (svc : Gmail) (thread_id : string)
    (exclude_message_ids : option (list string)) : Outcome (option Message) :=
  let exclude := default [] exclude_message_ids in
  match get_thread_messages svc thread_id with
  | Raises e => Raises e
  | Returns messages =>
      Returns (List.find (fun m => negb (bool_decide (id m ∈ exclude)))
                         (sort_newest_first messages))
  end.

(** The [From] header: first header whose lower-cased name is [from]. *)
Fixpoint from_header (hs : list (string * string)) : string :=
  match hs with
  | [] => ""
  | (name, value) :: hs' =>
      if String.eqb (lower name) "from" then value else from_header hs'
  end.

Definition feedback_keywords : list string :=
  ["score:"; "your score:"; "feedback:"; "missing points:"].

(** The three substitutions and the [strip] of lines 363-368. *)
Definition clean_response (text : string) : string :=
  strip (Re.collapse_blank (Re.drop_attribution (Re.drop_quoted text))).

(** Lines 386-389.  [overlap] is [a / max(b, 1)] with integers
    [0 <= a <= b <= 10]; the float quotient exceeds the float [0.8] exactly
    when [5 * a > 4 * max(b, 1)]: [4/5] and [8/10] round to the very double
    that the literal [0.8] denotes, every other quotient differs from it by
    more than a rounding error. *)
Definition mostly_question (question_text response_text : string) : bool :=
  let question_words := distinct (List.firstn 10 (split_ws (lower question_text))) in
  let response_words := split_ws (lower response_text) in
  let shared := Z.of_nat (List.length (common question_words response_words)) in
  4 * Z.max (Z.of_nat (List.length question_words)) 1 <? 5 * shared.

(** Lines 275-280: the exclusion list with the sent id in it. *)
Definition exclusion_list (sent_message_id : string)
    (exclude_message_ids : option (list string)) : list string :=
  let l := default [] exclude_message_ids in
  if bool_decide (sent_message_id ∈ l) then l else l ++ [sent_message_id].

(** Lines 283-290. *)
Definition resolve_sent_timestamp (svc : Gmail) (sent_message_id : string)
    (sent_message_timestamp : option Z) : Z :=
  match sent_message_timestamp with
  | Some t => t
  | None =>
      match messages_get svc sent_message_id with
      | Some sent_msg => timestamp sent_msg
      | None => 0
      end
  end.

Definition buffer_ms : Z := 2000.

(** The body of the [for] loop, lines 303-397: [None] is [continue],
    [Some text] is [return response_text]. *)
Definition classify_message (cfg : Config) (svc : Gmail)
    (sent_message_id : string) (sent_timestamp : Z) (exclude : list string)
    (message : Message) : option string :=
  if bool_decide (id message ∈ exclude) then None
  else
    let time_diff := timestamp message - sent_timestamp in
    if time_diff <=? buffer_ms then None
    else
      let from_lower := lower (from_header (headers message)) in
      let target_lower := lower (TARGET_EMAIL cfg) in
      if negb (contains target_lower from_lower) then None
      else if contains target_lower from_lower then
        if time_diff <? 10000 then None
        else
          let response_text_preview :=
            lower (str_take 200 (extract_message_text message)) in
          if existsb (fun keyword => contains keyword response_text_preview)
                     feedback_keywords
          then None
          else
            let response_text := clean_response (extract_message_text message) in
            if (String.length response_text <? 3)%nat then None
            else if truthy sent_message_id then
              match messages_get svc sent_message_id with
              | Some sent_msg =>
                  let question_text := extract_message_text sent_msg in
                  if truthy question_text
                     && (10 <? String.length question_text)%nat
                     && mostly_question question_text response_text
                  then None
                  else Some response_text
              | None => Some response_text
              end
            else Some response_text
      else None.

(** The [for] loop over the thread's messages, in the order of the list. *)
Fixpoint first_response (cfg : Config) (svc : Gmail)
    (sent_message_id : string) (sent_timestamp : Z) (exclude : list string)
    (messages : list Message) : option string :=
  match messages with
  | [] => None
  | message :: rest =>
      match classify_message cfg svc sent_message_id sent_timestamp exclude message with
      | Some response_text => Some response_text
      | None => first_response cfg svc sent_message_id sent_timestamp exclude rest
      end
  end.

(** [check_for_response] *)
Definition check_for_response (cfg : Config) (svc : Gmail)
    (thread_id sent_message_id : string) (sent_message_timestamp : option Z)
    (exclude_message_ids : option (list string)) : Outcome (option string) :=
  let exclude := exclusion_list sent_message_id exclude_message_ids in
  let sent_timestamp :=
    resolve_sent_timestamp svc sent_message_id sent_message_timestamp in
  match get_thread_messages svc thread_id with
  | Raises e => Raises e
  | Returns messages =>
      Returns (first_response cfg svc sent_message_id sent_timestamp exclude messages)
  end.

(** The classifier as the specification words it: the same checks, over
    the messages ordered newest first. *)
Definition check_newest_first (cfg : Config) (svc : Gmail)
    (thread_id sent_message_id : string) (sent_message_timestamp : option Z)
    (exclude_message_ids : option (list string)) : Outcome (option string) :=
  let exclude := exclusion_list sent_message_id exclude_message_ids in
  let sent_timestamp :=
    resolve_sent_timestamp svc sent_message_id sent_message_timestamp in
  match get_thread_messages svc thread_id with
  | Raises e => Raises e
  | Returns messages =>
      Returns (first_response cfg svc sent_message_id sent_timestamp exclude
                 (sort_newest_first messages))
  end.

(** *** Sending *)

(** What [send_question] and [send_feedback] hand to
    [users().messages().send]: the fields of the [MIMEText] message, which
    the code encodes into ['raw'], and the ['threadId'] of the body when it
    has one. *)
Record Request := {
  rq_to : string;
  rq_subject : string;
  rq_text : string;
  rq_threadId : option string
}.

(** [users().messages().send(userId='me', body=body).execute()]: the id
    and the thread id of the message sent, or an [HttpError]. *)
Record Outbox := {
  messages_send : Request -> Outcome (string * string)
}.

(** [send_question] *)
Definition send_question (cfg : Config) (out : Outbox) (question : string)
    (thread_id : option string) (subject : option string)
  : Outcome (string * string) :=
  let thread_id := default (EMAIL_THREAD_ID cfg) thread_id in
  let thread_id :=
    if negb (truthy thread_id) || negb (truthy (strip thread_id)) then None
    else Some (strip thread_id) in
  let subject := default (EMAIL_SUBJECT cfg) subject in
  let request :=
    {| rq_to := TARGET_EMAIL cfg;
       rq_subject := match thread_id with
                     | Some _ => "Re: " ++ subject
                     | None => subject
                     end;
       rq_text := question;
       rq_threadId :=
         match thread_id with
         | Some t => if truthy t && truthy (strip t) then Some (strip t) else None
         | None => None
         end |} in
  match messages_send out request with
  | Returns sent_message => Returns sent_message
  | Raises error => Raises ("Error sending email: " ++ error)
  end.

(** [send_feedback] *)
Definition send_feedback (cfg : Config) (out : Outbox) (feedback : string)
    (thread_id : option string) (subject : option string)
  : Outcome (string * string) :=
  let subject := default (EMAIL_SUBJECT cfg) subject in
  let request :=
    {| rq_to := TARGET_EMAIL cfg;
       rq_subject := "Re: " ++ subject;
       rq_text := feedback;
       rq_threadId := thread_id |} in
  match messages_send out request with
  | Returns sent_message => Returns sent_message
  | Raises error => Raises ("Error sending feedback: " ++ error)
  end.

(** The text-bearing leaves of a part, in the order of the search: the
    data of the plain-text parts and the data, without tags, of the HTML
    parts. *)
Fixpoint leaf_texts (p : Part) : list string :=
  match p with
  | MkPart mime data parts =>
      let below :=
        (fix all_texts (ps : list Part) : list string :=
           match ps with
           | [] => []
           | sub :: ps' => (leaf_texts sub ++ all_texts ps')%list
           end) parts in
      if bool_decide (mime = Some "text/plain") then
        match data with Some d => d :: below | None => below end
      else if bool_decide (mime = Some "text/html") then
        match data with Some d => Re.strip_tags d :: below | None => below end
      else below
  end.

(** Newest first: [a] is as new as [b] or newer. *)
Definition newer_or_equal (a b : Message) : Prop := timestamp b <= timestamp a.

(** The [try] around the send, lines 130-140: an [HttpError] is raised
    again under the given prefix. *)
Definition wrap (prefix : string) (o : Outcome (string * string))
  : Outcome (string * string) :=
  match o with
  | Returns sent_message => Returns sent_message
  | Raises error => Raises (prefix ++ error)
  end.

End EmailService.

(** ** [grading_service.py] *)

Module GradingService.

Import Py.

(** The value [json.loads] returns.  Numbers are the integers. *)
Inductive Json : Type :=
| JNull
| JBool (b : bool)
| JNum (n : Z)
| JStr (s : string)
| JArr (items : list Json)
| JObj (fields : list (string * Json)).

Definition is_str (key : string) (v : Json) : bool :=
  match v with JStr s => String.eqb s key | _ => false end.

Fixpoint has_key (key : string) (fields : list (string * Json)) : bool :=
  match fields with
  | [] => false
  | (k, _) :: rest => String.eqb k key || has_key key rest
  end.

(** [key in result]: membership in a dictionary's keys, in a list's items,
    as a substring of a string; a [TypeError] for the other values. *)
Definition py_in (key : string) (result : Json) : Outcome bool :=
  match result with
  | JObj fields => Returns (has_key key fields)
  | JArr items => Returns (existsb (is_str key) items)
  | JStr s => Returns (contains key s)
  | JNull => Raises "argument of type 'NoneType' is not iterable"
  | JBool _ => Raises "argument of type 'bool' is not iterable"
  | JNum _ => Raises "argument of type 'int' is not iterable"
  end.

(** [result[key] = v], reached only when [key not in result]: a new last
    entry of a dictionary; a [TypeError] for a list or a string. *)
Definition py_setitem (key : string) (v : Json) (result : Json) : Outcome Json :=
  match result with
  | JObj fields => Returns (JObj (fields ++ [(key, v)]))
  | JArr _ => Raises "list indices must be integers or slices, not str"
  | JStr _ => Raises "'str' object does not support item assignment"
  | JNull => Raises "'NoneType' object does not support item assignment"
  | JBool _ => Raises "'bool' object does not support item assignment"
  | JNum _ => Raises "'int' object does not support item assignment"
  end.

(** [if key not in result: result[key] = v] *)
Definition fill_default (key : string) (v : Json) (result : Json) : Outcome Json :=
  match py_in key result with
  | Raises e => Raises e
  | Returns true => Returns result
  | Returns false => py_setitem key v result
  end.

(** The values interpolated into the prompt; the fixed wording of the
    template is left out. *)
Record Prompt := {
  p_question : string;
  p_correct_answer : string;
  p_user_response : string;
  p_context : string
}.

(** The collaborators of [grade_response]: the model call followed by
    [response.text], and [json.loads]. *)
Record Grader := {
  generate_content : Prompt -> Outcome string;
  json_loads : string -> Outcome Json
}.

(** Lines 137-145: at most the last 8000 characters of the review sheet. *)
Definition context_section (review_sheet_context : option string) : string :=
  match review_sheet_context with
  | Some sheet =>
      if truthy sheet then
        if (8000 <? String.length sheet)%nat
        then str_drop (String.length sheet - 8000) sheet
        else sheet
      else ""
  | None => ""
  end.

(** Lines 175-178: the text between the code fences, when there are any. *)
Definition unfence (response_text : string) : string :=
  if contains "```json" response_text then
    strip (hd "" (split_on "```" (nth 1 (split_on "```json" response_text) "")))
  else if contains "```" response_text then
    strip (hd "" (split_on "```" (nth 1 (split_on "```" response_text) "")))
  else response_text.

(** The body of the [try], lines 170-191. *)
Definition graded (g : Grader) (prompt : Prompt) : Outcome Json :=
  match generate_content g prompt with
  | Raises e => Raises e
  | Returns text =>
      match json_loads g (unfence (strip text)) with
      | Raises e => Raises e
      | Returns result =>
          match fill_default "score" (JNum 50) result with
          | Raises e => Raises e
          | Returns result1 =>
              match fill_default "feedback"
                      (JStr "Unable to generate detailed feedback.") result1 with
              | Raises e => Raises e
              | Returns result2 => fill_default "missing_points" (JArr []) result2
              end
          end
      end
  end.

(** The dictionary of the [except] branch. *)
Definition fallback (e : string) : Json :=
  JObj [("score", JNum 50);
        ("feedback", JStr ("Error grading response: " ++ e ++ ". Please try again."));
        ("missing_points", JArr [])].

(** [grade_response] *)
Definition grade_response (g : Grader) (review_sheet_context : option string)
    (user_response correct_answer question : string) : Json :=
  let prompt := {| p_question := question;
                   p_correct_answer := correct_answer;
                   p_user_response := user_response;
                   p_context := context_section review_sheet_context |} in
  match graded g prompt with
  | Returns result => result
  | Raises e => fallback e
  end.

(** The result dictionary as [main.py] reads it: each key may be absent;
    the score is an integer, as [_record_score] is annotated. *)
Record GradeResult := {
  score : option Z;
  feedback : option string;
  missing_points : option (list string)
}.

Definition show (n : Z) : string := NilZero.string_of_int (Z.to_int n).

Definition rule : string := String.concat "" (repeat "=" 60).

Definition line_end : string := String nl "".

(** The numbered lines of the missing points, from [i]. *)
Fixpoint numbered (i : Z) (points : list string) : string :=
  match points with
  | [] => ""
  | point :: rest =>
      show i ++ ". " ++ point ++ line_end ++ numbered (i + 1) rest
  end.

(** [format_feedback_message] *)
Definition format_feedback_message (grade_result : GradeResult)
    (correct_answer : option string) : string :=
  let score := default 0 (score grade_result) in
  let feedback := default "" (feedback grade_result) in
  let missing_points := default [] (missing_points grade_result) in
  let message := "Your Score: " ++ show score ++ "/100" ++ line_end ++ line_end in
  let message := message ++ "Feedback: " ++ feedback ++ line_end ++ line_end in
  let message :=
    match missing_points with
    | _ :: _ =>
        message ++ "Missing Points:" ++ line_end ++ numbered 1 missing_points ++ line_end
    | [] =>
        message ++ "Great job! You covered all the key points." ++ line_end ++ line_end
    end in
  match correct_answer with
  | Some answer =>
      if truthy answer
      then message ++ rule ++ line_end ++ "Correct Answer:" ++ line_end
                   ++ rule ++ line_end ++ answer ++ line_end
      else message
  | None => message
  end.

(** *** The choice of the model, [GradingService.__init__] *)

Definition preferred_models : list string :=
  ["gemini-flash-lite-latest"; "gemini-flash-lite"; "gemini-2.0-flash-lite";
   "gemini-2.5-flash-lite"; "gemini-flash-latest"; "gemini-2.0-flash";
   "gemini-2.5-flash"; "gemini-1.5-flash"; "gemini-pro-latest";
   "gemini-1.5-pro"; "gemini-pro"].

Definition common_models : list string :=
  ["gemini-1.5-pro"; "gemini-1.5-flash"; "gemini-pro"].

(** The [genai] module: [list_models()], each model with its name and its
    supported generation methods, and whether [GenerativeModel(name)]
    returns a model ([true]) or raises. *)
Record Genai := {
  list_models : Outcome (list (string * list string));
  GenerativeModel : string -> bool
}.

(** Line 56: [preferred in available_clean or
    available_clean.endswith(preferred)] *)
Definition matches (preferred available_clean : string) : bool :=
  contains preferred available_clean || ends_with preferred available_clean.

(** The inner loop, lines 53-70: the first listed model that matches and
    can be built, under its full name or else under its clean name. *)
Fixpoint first_built (api : Genai) (preferred : string)
    (available_models : list string) : option string :=
  match available_models with
  | [] => None
  | available_full_name :: rest =>
      let available_clean := remove_all "models/" available_full_name in
      if matches preferred available_clean then
        if GenerativeModel api available_full_name then Some available_full_name
        else if GenerativeModel api available_clean then Some available_clean
        else first_built api preferred rest
      else first_built api preferred rest
  end.

(** The outer loop, lines 51-72. *)
Fixpoint first_preferred (api : Genai) (preferred : list string)
    (available_models : list string) : option string :=
  match preferred with
  | [] => None
  | name :: rest =>
      match first_built api name available_models with
      | Some used_model => Some used_model
      | None => first_preferred api rest available_models
      end
  end.

(** Lines 24-27: the names of the models that support [generateContent]. *)
Definition generating (all_models : list (string * list string)) : list string :=
  map fst (List.filter
             (fun m => bool_decide ("generateContent" ∈ snd m)) all_models).

(** The body of the [try], lines 22-88: [None] when it raises. *)
Definition from_listing (api : Genai) : option string :=
  match list_models api with
  | Raises _ => None
  | Returns all_models =>
      let available_models := generating all_models in
      match first_preferred api preferred_models available_models with
      | Some used_model => Some used_model
      | None =>
          match available_models with
          | first :: _ => if GenerativeModel api first then Some first else None
          | [] => None
          end
      end
  end.

(** [GradingService.__init__]: the name under which [self.model] was
    built. *)
Definition __init__ (api : Genai) (GEMINI_API_KEY : string) : Outcome string :=
  if negb (truthy GEMINI_API_KEY)
  then Raises "GEMINI_API_KEY is required in .env file"
  else
    match from_listing api with
    | Some used_model => Returns used_model
    | None =>
        match List.find (GenerativeModel api) common_models with
        | Some model_name => Returns model_name
        | None => Raises "Could not initialize Gemini model."
        end
    end.

(** The entry a default of [grade_response] adds: none when the key is
    there. *)
Definition missing (key : string) (v : Json) (fields : list (string * Json))
  : list (string * Json) :=
  if has_key key fields then [] else [(key, v)].

(** [name.replace('models/', '')] *)
Definition clean (name : string) : string := remove_all "models/" name.

(** A listed model matches the preferred name and can be built, under its
    full name or under its clean name. *)
Definition buildable (api : Genai) (preferred : string) (available : list string)
  : Prop :=
  exists a, a ∈ available /\ matches preferred (clean a) = true
            /\ (GenerativeModel api a = true \/ GenerativeModel api (clean a) = true).

End GradingService.

(** ** [main.py]: the persisted stores *)

Module QuizService.

Import Py.

(** [self.state], a dictionary: an absent key and a key holding [None] are
    one case here, except for ['sent_message_ids'], whose presence the code
    tests.  [last_question_time] is the instant the ISO string denotes. *)
Record State := {
  current_question : option string;
  current_answer : option string;
  current_question_idx : option Z;
  thread_id : option string;
  sent_message_id : option string;
  sent_message_timestamp : option Z;
  last_question_time : option Z;
  waiting_for_response : bool;
  recent_questions : list Z;
  sent_message_ids : option (list string)
}.

Definition set_current_question (v : option string) (s : State) : State :=
  {| current_question := v; current_answer := current_answer s;
     current_question_idx := current_question_idx s; thread_id := thread_id s;
     sent_message_id := sent_message_id s;
     sent_message_timestamp := sent_message_timestamp s;
     last_question_time := last_question_time s;
     waiting_for_response := waiting_for_response s;
     recent_questions := recent_questions s;
     sent_message_ids := sent_message_ids s |}.

Definition set_current_answer (v : option string) (s : State) : State :=
  {| current_question := current_question s; current_answer := v;
     current_question_idx := current_question_idx s; thread_id := thread_id s;
     sent_message_id := sent_message_id s;
     sent_message_timestamp := sent_message_timestamp s;
     last_question_time := last_question_time s;
     waiting_for_response := waiting_for_response s;
     recent_questions := recent_questions s;
     sent_message_ids := sent_message_ids s |}.

Definition set_current_question_idx (v : option Z) (s : State) : State :=
  {| current_question := current_question s; current_answer := current_answer s;
     current_question_idx := v; thread_id := thread_id s;
     sent_message_id := sent_message_id s;
     sent_message_timestamp := sent_message_timestamp s;
     last_question_time := last_question_time s;
     waiting_for_response := waiting_for_response s;
     recent_questions := recent_questions s;
     sent_message_ids := sent_message_ids s |}.

Definition set_thread_id (v : option string) (s : State) : State :=
  {| current_question := current_question s; current_answer := current_answer s;
     current_question_idx := current_question_idx s; thread_id := v;
     sent_message_id := sent_message_id s;
     sent_message_timestamp := sent_message_timestamp s;
     last_question_time := last_question_time s;
     waiting_for_response := waiting_for_response s;
     recent_questions := recent_questions s;
     sent_message_ids := sent_message_ids s |}.

Definition set_sent_message_id (v : option string) (s : State) : State :=
  {| current_question := current_question s; current_answer := current_answer s;
     current_question_idx := current_question_idx s; thread_id := thread_id s;
     sent_message_id := v;
     sent_message_timestamp := sent_message_timestamp s;
     last_question_time := last_question_time s;
     waiting_for_response := waiting_for_response s;
     recent_questions := recent_questions s;
     sent_message_ids := sent_message_ids s |}.

Definition set_sent_message_timestamp (v : option Z) (s : State) : State :=
  {| current_question := current_question s; current_answer := current_answer s;
     current_question_idx := current_question_idx s; thread_id := thread_id s;
     sent_message_id := sent_message_id s;
     sent_message_timestamp := v;
     last_question_time := last_question_time s;
     waiting_for_response := waiting_for_response s;
     recent_questions := recent_questions s;
     sent_message_ids := sent_message_ids s |}.

Definition set_last_question_time (v : option Z) (s : State) : State :=
  {| current_question := current_question s; current_answer := current_answer s;
     current_question_idx := current_question_idx s; thread_id := thread_id s;
     sent_message_id := sent_message_id s;
     sent_message_timestamp := sent_message_timestamp s;
     last_question_time := v;
     waiting_for_response := waiting_for_response s;
     recent_questions := recent_questions s;
     sent_message_ids := sent_message_ids s |}.

Definition set_waiting_for_response (v : bool) (s : State) : State :=
  {| current_question := current_question s; current_answer := current_answer s;
     current_question_idx := current_question_idx s; thread_id := thread_id s;
     sent_message_id := sent_message_id s;
     sent_message_timestamp := sent_message_timestamp s;
     last_question_time := last_question_time s;
     waiting_for_response := v;
     recent_questions := recent_questions s;
     sent_message_ids := sent_message_ids s |}.

Definition set_recent_questions (v : list Z) (s : State) : State :=
  {| current_question := current_question s; current_answer := current_answer s;
     current_question_idx := current_question_idx s; thread_id := thread_id s;
     sent_message_id := sent_message_id s;
     sent_message_timestamp := sent_message_timestamp s;
     last_question_time := last_question_time s;
     waiting_for_response := waiting_for_response s;
     recent_questions := v;
     sent_message_ids := sent_message_ids s |}.

Definition set_sent_message_ids (v : option (list string)) (s : State) : State :=
  {| current_question := current_question s; current_answer := current_answer s;
     current_question_idx := current_question_idx s; thread_id := thread_id s;
     sent_message_id := sent_message_id s;
     sent_message_timestamp := sent_message_timestamp s;
     last_question_time := last_question_time s;
     waiting_for_response := waiting_for_response s;
     recent_questions := recent_questions s;
     sent_message_ids := v |}.

Record ProgressEntry := {
  pe_timestamp : Z;
  pe_question_idx : option Z;
  pe_question : string;
  pe_user_response : string;
  pe_feedback : string;
  pe_score : Z
}.

(** What a persisted file holds: text [json.load] rejects, or a document. *)
Inductive Stored (A : Type) : Type :=
| Unparsable
| Document (a : A).
Arguments Unparsable {A}.
Arguments Document {A} a.

(** The three persisted files, at the paths [STATE_FILE], [SCORES_FILE] and
    [PROGRESS_FILE], taken to be three different files (as their defaults
    are), each absent ([None]) or present. *)
Record Files := {
  state_file : option (Stored State);
  scores_file : option (Stored (gmap Z (list Z)));
  progress_file : option (Stored (list ProgressEntry))
}.

(** The fields of a [QuizService] object together with the files it
    reads and writes. *)
Record Service := {
  state : State;
  scores : gmap Z (list Z);
  progress : list ProgressEntry;
  questions_df : list (string * string);
  email_subject : string;
  files : Files
}.

Definition with_state (f : State -> State) (sv : Service) : Service :=
  {| state := f (state sv); scores := scores sv; progress := progress sv;
     questions_df := questions_df sv; email_subject := email_subject sv;
     files := files sv |}.

Definition with_scores (v : gmap Z (list Z)) (sv : Service) : Service :=
  {| state := state sv; scores := v; progress := progress sv;
     questions_df := questions_df sv; email_subject := email_subject sv;
     files := files sv |}.

Definition with_progress (v : list ProgressEntry) (sv : Service) : Service :=
  {| state := state sv; scores := scores sv; progress := v;
     questions_df := questions_df sv; email_subject := email_subject sv;
     files := files sv |}.

Definition with_files (f : Files -> Files) (sv : Service) : Service :=
  {| state := state sv; scores := scores sv; progress := progress sv;
     questions_df := questions_df sv; email_subject := email_subject sv;
     files := f (files sv) |}.

(** *** Methods as state transformers that may raise *)

Definition M (A : Type) : Type := Service -> Service * Outcome A.

Definition ret {A} (a : A) : M A := fun sv => (sv, Returns a).

Definition bind {A B} (m : M A) (k : A -> M B) : M B :=
  fun sv =>
    match m sv with
    | (sv', Returns a) => k a sv'
    | (sv', Raises e) => (sv', Raises e)
    end.

Definition raise {A} (e : string) : M A := fun sv => (sv, Raises e).

(** [try: body  except Exception as e: handler]: what [body] did to the
    object before it raised stays done. *)
Definition try_except {A} (body : M A) (handler : string -> M A) : M A :=
  fun sv =>
    match body sv with
    | (sv', Raises e) => handler e sv'
    | done => done
    end.

Definition lift {A} (o : Outcome A) : M A := fun sv => (sv, o).

Definition get : M Service := fun sv => (sv, Returns sv).

Definition update (f : Service -> Service) : M unit :=
  fun sv => (f sv, Returns tt).

Notation "x <- m ;; k" := (bind m (fun x => k))
  (at level 100, m at next level, right associativity).
Notation "m ;;; k" := (bind m (fun _ => k))
  (at level 100, right associativity).

(** [_save_state], [_save_scores], [_save_progress]: the whole store is
    written anew. *)
Definition _save_state : M unit :=
  update (fun sv =>
    with_files (fun fs => {| state_file := Some (Document (state sv));
                             scores_file := scores_file fs;
                             progress_file := progress_file fs |}) sv).

Definition _save_scores : M unit :=
  update (fun sv =>
    with_files (fun fs => {| state_file := state_file fs;
                             scores_file := Some (Document (scores sv));
                             progress_file := progress_file fs |}) sv).

Definition _save_progress : M unit :=
  update (fun sv =>
    with_files (fun fs => {| state_file := state_file fs;
                             scores_file := scores_file fs;
                             progress_file := Some (Document (progress sv)) |}) sv).

(** [_record_progress]; [now] is the [datetime.now()] of line 158. *)
Definition _record_progress (now : Z) (question user_response feedback : string)
    (score : Z) (question_idx : option Z) : M unit :=
  let entry := {| pe_timestamp := now; pe_question_idx := question_idx;
                  pe_question := question; pe_user_response := user_response;
                  pe_feedback := feedback; pe_score := score |} in
  update (fun sv => with_progress (progress sv ++ [entry])%list sv) ;;;
  _save_progress.

(** [_record_score] *)
Definition _record_score (question_idx : Z) (score : Z) : M unit :=
  update (fun sv =>
    with_scores (<[question_idx := (default [] (scores sv !! question_idx) ++ [score])%list]>
                   (scores sv)) sv) ;;;
  _save_scores.

Definition sumZ (l : list Z) : Z := fold_right Z.add 0 l.

(** [_get_average_score]: the quotient is the rational one; Python rounds
    it to the nearest double. *)
Definition _get_average_score (scores : gmap Z (list Z)) (question_idx : Z) : Q :=
  match scores !! question_idx with
  | None => 100
  | Some [] => 100
  | Some (x :: l) =>
      (inject_Z (sumZ (x :: l)) / inject_Z (Z.of_nat (length (x :: l))))%Q
  end.

(** ** [main.py]: the selector *)

(** A call of [random.choice(seq)] or of
    [random.choices(population, weights=weights, k=1)]. *)
Inductive Draw : Type :=
| Choice (seq : list Z)
| Choices (population : list Z) (weights : list Q).

(** What lies outside the process during one pass of the loop: the random
    generator, the mail channel, the grader and the readings of the clock
    ([datetime.now()], in microseconds, at the line named).
    [grade_response] stands for the call of line 442 and the reading of its
    result: it raises when the call raises or when the value returned has
    no [get] (is not a dictionary). *)
Record Env := {
  random : Draw -> Z;
  send_question : string -> option string -> string -> Outcome (string * string);
  send_feedback : string -> option string -> string -> Outcome (option string);
  gmail : EmailService.Gmail;
  grade_response : string -> string -> string -> Outcome GradingService.GradeResult;
  now_should_send : Z;   (* line 313 *)
  now_fallback_ms : Z;   (* line 354, as milliseconds *)
  now_sent : Z;          (* line 363 *)
  now_timeout : Z;       (* line 533 *)
  now_progress : Z       (* line 158 *)
}.

(** The dictionary [_select_random_question] returns. *)
Record Question := {
  question : string;
  answer : string;
  index : Z
}.

(** The index of the data frame [pd.read_csv] builds: row positions. *)
Definition bank_indices (df : list (string * string)) : list Z :=
  map Z.of_nat (seq 0 (length df)).

(** [self.questions_df.loc[idx]] *)
Definition loc (df : list (string * string)) (idx : Z) : option (string * string) :=
  if idx <? 0 then None else df !! Z.to_nat idx.

(** [question_idx not in self.scores or len(self.scores[question_idx]) == 0] *)
Definition unanswered (scores : gmap Z (list Z)) (question_idx : Z) : bool :=
  match scores !! question_idx with
  | None => true
  | Some l => (length l =? 0)%nat
  end.

(** Lines 260-265: [max(1.0, (101.0 - avg_score) ** 2)] *)
Definition weight (scores : gmap Z (list Z)) (question_idx : Z) : Q :=
  let avg_score := _get_average_score scores question_idx in
  let w := ((101 - avg_score) * (101 - avg_score))%Q in
  if Qle_bool 1 w then w else 1%Q.

Definition sumQ (l : list Q) : Q := fold_right Qplus 0%Q l.

(** [l[-n:]] for a positive [n] *)
Definition last_n {A} (n : nat) (l : list A) : list A :=
  drop (length l - n) l.

(** Lines 207-276 of [_select_random_question]: the recency filter with its
    reset, the partition, and the arguments of the random call. *)
Definition selection_draw : M Draw :=
  sv <- get ;;
  let all := bank_indices (questions_df sv) in
  let recent := recent_questions (state sv) in
  let filtered := List.filter (fun idx => negb (bool_decide (idx ∈ recent))) all in
  available <- match filtered with
               | [] => update (with_state (set_recent_questions [])) ;;; ret all
               | _ :: _ => ret filtered
               end ;;
  let unanswered_indices := List.filter (unanswered (scores sv)) available in
  match unanswered_indices with
  | _ :: _ => ret (Choice unanswered_indices)
  | [] =>
      let weights := map (weight (scores sv)) available in
      let total_weight := sumQ weights in
      if negb (Qle_bool total_weight 0)
      then ret (Choices available (map (fun w => (w / total_weight)%Q) weights))
      else match weights with
           | [] => raise "float division by zero"
           | _ :: _ =>
               let n := inject_Z (Z.of_nat (length weights)) in
               ret (Choices available (repeat (1 / n)%Q (length weights)))
           end
  end.

(** [_select_random_question] *)
Definition _select_random_question (env : Env) : M Question :=
  d <- selection_draw ;;
  let selected_idx := random env d in
  sv <- get ;;
  match loc (questions_df sv) selected_idx with
  | None => raise "KeyError"
  | Some (q, a) =>
      update (with_state (fun st =>
        set_recent_questions
          (last_n 10 (recent_questions st ++ [selected_idx])%list) st)) ;;;
      ret {| question := q; answer := a; index := selected_idx |}
  end.

(** *** What the random calls promise

    [random.choice] returns each position of [seq] with the same
    probability; [random.choices] returns position [i] with probability
    [weights[i] / sum(weights)].  An outcome table lists the values with
    those relative weights. *)
Definition outcomes (d : Draw) : list (Z * Q) :=
  match d with
  | Choice seq => map (fun x => (x, 1%Q)) seq
  | Choices population weights => zip population weights
  end.

Definition mass (t : list (Z * Q)) : Q := sumQ (map snd t).

Definition mass_of (x : Z) (t : list (Z * Q)) : Q :=
  mass (List.filter (fun o => bool_decide (fst o = x)) t).

(** The probability that the draw [d] returns [x]. *)
Definition probability (d : Draw) (x : Z) : Q :=
  (mass_of x (outcomes d) / mass (outcomes d))%Q.

(** ** [main.py]: the scheduler *)

Definition truthy_opt (o : option string) : bool :=
  match o with Some s => truthy s | None => false end.

(** [timedelta(minutes=n)], in microseconds *)
Definition minutes (n : Z) : Z := n * 60000000.

(** [_should_send_new_question] *)
Definition _should_send_new_question (cfg : Config) (env : Env) (st : State) : bool :=
  match last_question_time st with
  | None => true
  | Some last_time =>
      if negb (truthy_opt (sent_message_id st)) then true
      else
        let interval := minutes (QUESTION_INTERVAL_MINUTES cfg) in
        let time_since := now_should_send env - last_time in
        interval <=? time_since
  end.

(** Lines 332-334: an empty or blank thread id is no thread id. *)
Definition usable_thread (t : option string) : option string :=
  match t with
  | Some s => if truthy s && truthy (strip s) then Some s else None
  | None => None
  end.

(** Lines 367-371 and 467-472: the id goes to the end of the list, of
    which the last ten entries are kept. *)
Definition remember_sent (message_id : string) (st : State) : State :=
  set_sent_message_ids
    (Some (last_n 10 (default [] (sent_message_ids st) ++ [message_id])%list)) st.

(** [_send_question] *)
Definition _send_question (env : Env) : M unit :=
  question_data <- _select_random_question env ;;
  try_except
    (sv <- get ;;
     let thread := usable_thread (thread_id (state sv)) in
     result <- lift (send_question env (question question_data) thread
                       (email_subject sv)) ;;
     let sent_timestamp :=
       match EmailService.messages_get (gmail env) (fst result) with
       | Some sent_msg => EmailService.timestamp sent_msg
       | None => now_fallback_ms env
       end in
     update (with_state (fun st =>
       remember_sent (fst result)
         (set_waiting_for_response true
         (set_last_question_time (Some (now_sent env))
         (set_thread_id (Some (snd result))
         (set_sent_message_timestamp (Some sent_timestamp)
         (set_sent_message_id (Some (fst result))
         (set_current_question_idx (Some (index question_data))
         (set_current_answer (Some (answer question_data))
         (set_current_question (Some (question question_data)) st)))))))))) ;;;
     _save_state)
    (fun _ =>
       update (with_state (fun st =>
         set_sent_message_id None (set_waiting_for_response false st))) ;;;
       _save_state).

(** [_check_for_response].  [sent_message_ids] is the list object of the
    state when the key is there, so the [append] of line 406 changes the
    state; without the key it is a fresh list. *)
Definition _check_for_response (cfg : Config) (env : Env) : M (option string) :=
  sv <- get ;;
  let st := state sv in
  if negb (waiting_for_response st) then ret None
  else
    match thread_id st, sent_message_id st with
    | Some thread, Some sent =>
        if truthy thread && truthy sent then
          let known := default [] (sent_message_ids st) in
          let ids := if bool_decide (sent ∈ known) then known
                     else (known ++ [sent])%list in
          match sent_message_ids st with
          | Some _ => update (with_state (set_sent_message_ids (Some ids)))
          | None => ret tt
          end ;;;
          match EmailService.check_for_response cfg (gmail env) thread sent
                  (sent_message_timestamp st) (Some ids) with
          | Returns response => ret response
          | Raises _ => ret None
          end
        else ret None
    | _, _ => ret None
    end.

(** The state update of lines 487-492. *)
Definition round_closed (st : State) : State :=
  set_sent_message_timestamp None
    (set_sent_message_id None
    (set_current_question_idx None
    (set_current_answer None
    (set_current_question None
    (set_waiting_for_response false st))))).

(** [_grade_and_send_feedback] *)
Definition _grade_and_send_feedback (env : Env) (user_response : string) : M unit :=
  sv <- get ;;
  let question_idx := current_question_idx (state sv) in
  match current_question (state sv), current_answer (state sv) with
  | Some question, Some correct_answer =>
      if truthy question && truthy correct_answer then
        try_except
          (grade_result <- lift (grade_response env user_response correct_answer
                                   question) ;;
           let score := default 0 (GradingService.score grade_result) in
           match question_idx with
           | Some idx => _record_score idx score
           | None => ret tt
           end ;;;
           let feedback_message :=
             GradingService.format_feedback_message grade_result
               (Some correct_answer) in
           sv1 <- get ;;
           feedback_result <- lift (send_feedback env feedback_message
                                      (thread_id (state sv1)) (email_subject sv1)) ;;
           update (with_state (fun st =>
             match sent_message_ids st with
             | None => set_sent_message_ids (Some []) st
             | Some _ => st
             end)) ;;;
           match feedback_result with
           | Some feedback_id =>
               update (with_state (remember_sent feedback_id)) ;;; _save_state
           | None => ret tt
           end ;;;
           _record_progress (now_progress env) question user_response
             feedback_message score question_idx ;;;
           update (with_state round_closed) ;;;
           _save_state)
          (fun _ =>
             update (with_state (set_waiting_for_response false)) ;;;
             _save_state)
      else ret tt
  | _, _ => ret tt
  end.

(** How a pass of the [while] loop ends: at the [time.sleep] of line 550,
    or at the [continue] of line 538. *)
Inductive Control : Type := Sleep | Continue.

(** Lines 521-524: a new question is sent when none is awaited and one is
    due. *)
Definition send_if_due (cfg : Config) (env : Env) : M unit :=
  sv <- get ;;
  if negb (waiting_for_response (state sv))
     && _should_send_new_question cfg env (state sv)
  then _send_question env
  else ret tt.

(** Lines 526-547: while a reply is awaited, first the time-out, then the
    check for a reply and its grading. *)
Definition await_reply (cfg : Config) (env : Env) : M Control :=
  sv <- get ;;
  if waiting_for_response (state sv) then
    let timeout_interval := minutes (QUESTION_INTERVAL_MINUTES cfg * 2) in
    if match last_question_time (state sv) with
       | Some last_time => timeout_interval <=? now_timeout env - last_time
       | None => false
       end
    then
      update (with_state (fun st =>
        set_sent_message_id None (set_waiting_for_response false st))) ;;;
      _save_state ;;;
      ret Continue
    else
      response <- _check_for_response cfg env ;;
      match response with
      | Some text =>
          if truthy text then _grade_and_send_feedback env text else ret tt
      | None => ret tt
      end ;;;
      ret Sleep
  else ret Sleep.

(** One pass of the loop of [run], lines 521-550. *)
Definition loop_pass (cfg : Config) (env : Env) : M Control :=
  send_if_due cfg env ;;; await_reply cfg env.

(** The loop, for as many passes as there are environments; a pass that
    raises ends the run. *)
Fixpoint run (cfg : Config) (envs : list Env) : M unit :=
  match envs with
  | [] => ret tt
  | env :: rest => loop_pass cfg env ;;; run cfg rest
  end.

(** ** [main.py]: start-up *)

(** The state of lines 111-119. *)
Definition fresh_state (cfg : Config) : State :=
  {| current_question := None; current_answer := None;
     current_question_idx := None;
     thread_id := usable_thread (Some (EMAIL_THREAD_ID cfg));
     sent_message_id := None; sent_message_timestamp := None;
     last_question_time := None; waiting_for_response := false;
     recent_questions := []; sent_message_ids := None |}.

(** [_load_state] *)
Definition _load_state (cfg : Config) (reset_waiting : bool) (fs : Files) : State :=
  match state_file fs with
  | Some (Document st) =>
      if reset_waiting then
        set_sent_message_timestamp None
          (set_sent_message_id None
          (set_current_answer None
          (set_current_question None
          (set_waiting_for_response false st))))
      else st
  | Some Unparsable => fresh_state cfg
  | None => fresh_state cfg
  end.

(** [_load_scores] *)
Definition _load_scores (fs : Files) : gmap Z (list Z) :=
  match scores_file fs with
  | Some (Document sc) => sc
  | Some Unparsable => ∅
  | None => ∅
  end.

(** [_load_progress] *)
Definition _load_progress (fs : Files) : list ProgressEntry :=
  match progress_file fs with
  | Some (Document l) => l
  | Some Unparsable => []
  | None => []
  end.

(** [max(l)] of a non-empty list *)
Definition maximum (x : Z) (l : list Z) : Z := fold_right Z.max x l.

(** Lines 62-73 of [_load_questions]: the check of the recency buffer
    against the number of rows. *)
Definition discard_stale (num_questions : Z) (st : State) : State :=
  match recent_questions st with
  | [] => st
  | x :: l =>
      let max_idx := maximum x l in
      if num_questions <=? max_idx then
        set_current_answer None
          (set_current_question None
          (set_current_question_idx None
          (set_recent_questions [] st)))
      else st
  end.

(** The removals of lines 25-29. *)
Definition reset_files (fs : Files) : Files :=
  {| state_file := None; scores_file := None;
     progress_file := progress_file fs |}.

(** [QuizService.__init__]; [csv] is what lines 40-60 of [_load_questions]
    make of the questions file: its rows, or the error raised. *)
Definition __init__ (cfg : Config) (csv : Outcome (list (string * string)))
    (subject : option string) (reset_state reset_waiting : bool) (fs : Files)
  : Files * Outcome Service :=
  let fs1 := if reset_state then reset_files fs else fs in
  match csv with
  | Raises e => (fs1, Raises e)
  | Returns rows =>
      (fs1,
       Returns {| state := discard_stale (Z.of_nat (length rows))
                             (_load_state cfg reset_waiting fs1);
                  scores := _load_scores fs1;
                  progress := _load_progress fs1;
                  questions_df := rows;
                  email_subject :=
                    match subject with
                    | Some s => if truthy s then s else EMAIL_SUBJECT cfg
                    | None => EMAIL_SUBJECT cfg
                    end;
                  files := fs1 |})
  end.

(** ** Notions used to state the properties *)

(** The candidates of a selection: the bank ids outside the recency
    buffer. *)
Definition candidates (sv : Service) : list Z :=
  List.filter
    (fun idx => negb (bool_decide (idx ∈ recent_questions (state sv))))
    (bank_indices (questions_df sv)).

(** Both bounded buffers within their capacity. *)
Definition buffers_bounded (st : State) : Prop :=
  (length (recent_questions st) <= 10)%nat
  /\ (length (default [] (sent_message_ids st)) <= 10)%nat.

(** A state as the service leaves it: bounded buffers, and while a reply
    is awaited the id of the question is among the sent ids. *)
Definition well_formed (st : State) : Prop :=
  buffers_bounded st
  /\ (waiting_for_response st = true ->
      exists sent, sent_message_id st = Some sent
                   /\ sent ∈ default [] (sent_message_ids st)).

(** Selections in a row, one per environment; the ids selected. *)
Fixpoint select_many (envs : list Env) : M (list Z) :=
  match envs with
  | [] => ret []
  | env :: rest =>
      q <- _select_random_question env ;;
      ids <- select_many rest ;;
      ret (index q :: ids)
  end.

(** The outcome table that gives each value [c] of [l] the weight [f c]. *)
Definition table (f : Z -> Q) (l : list Z) : list (Z * Q) :=
  map (fun c => (c, f c)) l.

(** The progress log, in memory and on disk, from one moment to a later
    one: untouched, or longer and written out in full. *)
Definition log_extends (sv sv' : Service) : Prop :=
  (progress sv' = progress sv
   /\ progress_file (files sv') = progress_file (files sv))
  \/ (exists more, progress sv' = (progress sv ++ more)%list
      /\ progress_file (files sv') = Some (Document (progress sv'))).

(** The values a random call may return: the entries of its sequence. *)
Definition population (d : Draw) : list Z :=
  match d with
  | Choice seq => seq
  | Choices population _ => population
  end.

(** The generator keeps its promise on every call: what it returns is an
    entry of the sequence it is given. *)
Definition sound (env : Env) : Prop :=
  forall d, population d <> [] -> random env d ∈ population d.

(** While a reply is awaited the question, its answer and row, the thread,
    the id of the message sent and the time of sending are known. *)
Definition waiting_complete (st : State) : Prop :=
  waiting_for_response st = true ->
  is_Some (current_question st) /\ is_Some (current_answer st)
  /\ is_Some (current_question_idx st)
  /\ is_Some (thread_id st) /\ is_Some (sent_message_id st)
  /\ is_Some (last_question_time st).

(** The pool a selection draws from: the candidates, or the whole bank
    when there are none. *)
Definition pool (sv : Service) : list Z :=
  match candidates sv with
  | [] => bank_indices (questions_df sv)
  | _ :: _ => candidates sv
  end.

(** The grades recorded for a question. *)
Definition grades (sv : Service) (idx : Z) : list Z := default [] (scores sv !! idx).

(** The ledger and the log in memory are what the files hold. *)
Definition stored (sv : Service) : Prop :=
  scores sv = _load_scores (files sv) /\ progress sv = _load_progress (files sv).

(** What a method does to the ledger: at most [n] grades more per question,
    none removed, and the files follow. *)
Definition ledger_step (n : nat) (sv sv' : Service) : Prop :=
  (forall idx, exists more,
      grades sv' idx = (grades sv idx ++ more)%list /\ (length more <= n)%nat)
  /\ (stored sv -> stored sv').

(** What every method keeps: the bank, the ledger up to [n] new grades,
    recency ids that are old or rows of the bank, and [waiting_complete]. *)
Definition keeps (n : nat) (sv sv' : Service) : Prop :=
  questions_df sv' = questions_df sv
  /\ ledger_step n sv sv'
  /\ (forall i, i ∈ recent_questions (state sv') ->
        i ∈ recent_questions (state sv)
        \/ 0 <= i < Z.of_nat (length (questions_df sv)))
  /\ (waiting_complete (state sv) -> waiting_complete (state sv')).

(** *** The selection rule as the specification words it

    These follow the wording of the specification, not the code, and are
    what the code's [unanswered], [_get_average_score] and [weight] are
    compared with. *)

(** The arithmetic mean of a list of scores. *)
Definition mean (l : list Z) : Q :=
  (inject_Z (sumZ l) / inject_Z (Z.of_nat (length l)))%Q.

(** The recorded scores of a question id: none when the ledger has no
    entry for it. *)
Definition recorded (scores : gmap Z (list Z)) (question_idx : Z) : list Z :=
  default [] (scores !! question_idx).

(** [average_score(id)]: 100 without a recorded score, else the mean. *)
Definition specified_average (scores : gmap Z (list Z)) (question_idx : Z) : Q :=
  match recorded scores question_idx with
  | [] => 100%Q
  | l => mean l
  end.

(** [weight(id) = max(1, (101 - average_score(id))^2)] *)
Definition specified_weight (scores : gmap Z (list Z)) (question_idx : Z) : Q :=
  Qmax 1 ((101 - specified_average scores question_idx) ^ 2)%Q.

(** A candidate without a recorded score. *)
Definition never_answered (scores : gmap Z (list Z)) (question_idx : Z) : bool :=
  bool_decide (recorded scores question_idx = []).



(** Unfolds the plumbing of [M]. *)
Ltac unfold_m :=
  unfold _record_progress, _record_score in *;
  unfold _save_state, _save_scores, _save_progress in *;
  unfold bind, ret, update, get, lift, raise, try_except in *.

End QuizService.

(** * Scenarios

    Concrete threads, banks and environments on which the theorems below
    are exercised. *)

Module Scenario.

Import Py QuizService.

Definition cfg : Config := default_config "student@example.com".

Definition plain (text : string) : EmailService.Part :=
  EmailService.MkPart (Some "text/plain") (Some text) [].

(** A mail of the correspondent. *)
Definition reply (i : string) (date : Z) (text : string) : EmailService.Message :=
  {| EmailService.id := i;
     EmailService.internalDate := Some date;
     EmailService.headers := [("From", "Student <student@example.com>")];
     EmailService.payload := plain text |}.

(** The question the service sent, at time 1000. *)
Definition sent_question : EmailService.Message :=
  {| EmailService.id := "q1";
     EmailService.internalDate := Some 1000;
     EmailService.headers := [("From", "quiz@example.org")];
     EmailService.payload := plain "What is a galaxy made of, mostly?" |}.

(** A mailbox whose thread ["T"] holds the given messages. *)
Definition mailbox (messages : list EmailService.Message) : EmailService.Gmail :=
  {| EmailService.messages_get :=
       fun i => if String.eqb i "q1" then Some sent_question else None;
     EmailService.threads_get :=
       fun t => if String.eqb t "T" then Some messages else None |}.

(** Two answers in the order Gmail lists a thread: oldest first. *)
Definition two_answers : list EmailService.Message :=
  [sent_question; reply "r1" 21000 "Stars, gas and dust";
   reply "r2" 31000 "Mostly dark matter"].

(** A bank of three questions. *)
Definition bank3 : list (string * string) :=
  [("What is a galaxy?", "A bound system of stars, gas and dark matter");
   ("What is a quasar?", "An accreting supermassive black hole");
   ("What is redshift?", "The stretching of light to longer wavelengths")].

(** Three grades of one question. *)
Definition three_grades : list Z := [90; 70; 50].

Definition no_files : Files :=
  {| state_file := None; scores_file := None; progress_file := None |}.

(** An environment in which every call to the outside fails, the random
    generator returns [pick], and the clock reads [now] throughout. *)
Definition offline (pick : Z) (now : Z) : Env :=
  {| random := fun _ => pick;
     send_question := fun _ _ _ => Raises "Error sending email";
     send_feedback := fun _ _ _ => Raises "Error sending feedback";
     gmail := mailbox [];
     grade_response := fun _ _ _ => Raises "grader unavailable";
     now_should_send := now; now_fallback_ms := now; now_sent := now;
     now_timeout := now; now_progress := now |}.

(** The service right after start-up on [rows], nothing persisted. *)
Definition started (rows : list (string * string)) : Service :=
  {| state := fresh_state cfg; scores := ∅; progress := [];
     questions_df := rows; email_subject := "Quiz Question";
     files := no_files |}.

(** A service waiting for the answer to question 0, sent at instant 0. *)
Definition waiting_state : State :=
  {| current_question := Some "What is a galaxy?";
     current_answer := Some "A bound system of stars, gas and dark matter";
     current_question_idx := Some 0;
     thread_id := Some "T";
     sent_message_id := Some "q1";
     sent_message_timestamp := Some 1000;
     last_question_time := Some 0;
     waiting_for_response := true;
     recent_questions := [0];
     sent_message_ids := Some ["q1"] |}.

Definition waiting_service : Service :=
  {| state := waiting_state; scores := ∅; progress := [];
     questions_df := bank3; email_subject := "Quiz Question";
     files := no_files |}.

(** A persisted state whose current question id, 99, is beyond a bank of
    three questions while its recency buffer is within it. *)
Definition stale_state : State :=
  {| current_question := None; current_answer := None;
     current_question_idx := Some 99;
     thread_id := Some "T";
     sent_message_id := None; sent_message_timestamp := None;
     last_question_time := Some 0;
     waiting_for_response := false;
     recent_questions := [1];
     sent_message_ids := Some ["q1"] |}.

Definition stale_files : Files :=
  {| state_file := Some (Document stale_state); scores_file := None;
     progress_file := None |}.


(** The files of an earlier run: a state, a score, one logged round. *)
Definition old_entry : ProgressEntry :=
  {| pe_timestamp := 0; pe_question_idx := Some 1; pe_question := "What is a quasar?";
     pe_user_response := "A bright thing"; pe_feedback := "Your Score: 40/100";
     pe_score := 40 |}.

Definition used_files : Files :=
  {| state_file := Some (Document waiting_state);
     scores_file := Some (Document (<[1 := [40]]> ∅));
     progress_file := Some (Document [old_entry]) |}.

(** A service in which every question has grades: averages 100, 50, 0. *)
Definition graded_service : Service :=
  {| state := fresh_state cfg;
     scores := <[0 := [100]]> (<[1 := [50]]> (<[2 := [0]]> ∅));
     progress := []; questions_df := bank3;
     email_subject := "Quiz Question"; files := no_files |}.

(** The double quote. *)
Definition dq : string := String (ascii_of_nat 34) "".

(** A model reply that is a JSON array of the three key names, and the
    part of [json.loads] that reads it. *)
Definition array_reply : string :=
  "[" ++ dq ++ "score" ++ dq ++ ", " ++ dq ++ "feedback" ++ dq ++ ", "
      ++ dq ++ "missing_points" ++ dq ++ "]".

Definition array_grader : GradingService.Grader :=
  {| GradingService.generate_content := fun _ => Returns array_reply;
     GradingService.json_loads := fun text =>
       if String.eqb text array_reply
       then Returns (GradingService.JArr
                       [GradingService.JStr "score";
                        GradingService.JStr "feedback";
                        GradingService.JStr "missing_points"])
       else Raises "Expecting value: line 1 column 1 (char 0)" |}.

(** Line break. *)
Definition br : string := String nl "".

(** An environment whose mailbox holds [two_answers] and whose grader
    fails; the clock of the time-out test reads one minute. *)
Definition failing_grader_env : Env :=
  {| random := fun _ => 0;
     send_question := fun _ _ _ => Raises "Error sending email";
     send_feedback := fun _ _ _ => Raises "Error sending feedback";
     gmail := mailbox two_answers;
     grade_response := fun _ _ _ => Raises "grader unavailable";
     now_should_send := 0; now_fallback_ms := 0; now_sent := 0;
     now_timeout := minutes 1; now_progress := 0 |}.

(** The message [m] as delivered at the instant [t]. *)
Definition delivered_at (t : Z) (m : EmailService.Message) : EmailService.Message :=
  {| EmailService.id := EmailService.id m;
     EmailService.internalDate := Some t;
     EmailService.headers := EmailService.headers m;
     EmailService.payload := EmailService.payload m |}.

(** A mailbox with the given thread, whatever the thread id, and the given
    message lookup. *)
Definition thread_of (lookup : string -> option EmailService.Message)
    (messages : list EmailService.Message) : EmailService.Gmail :=
  {| EmailService.messages_get := lookup;
     EmailService.threads_get := fun _ => Some messages |}.

Definition first_entry (d : Draw) : Z := hd 0 (population d).

Definition fair_grade : GradingService.GradeResult :=
  {| GradingService.score := Some 80;
     GradingService.feedback := Some "Right, as far as it goes.";
     GradingService.missing_points := Some ["dark matter"] |}.

(** An environment in which mail is delivered (every message gets the id
    ["q1"] in the thread ["T"], every feedback the id ["f1"]), the grader
    answers, the generator returns the first entry of its sequence, and
    the thread holds the given messages. *)
Definition online (messages : list EmailService.Message) (now : Z) : Env :=
  {| random := first_entry;
     send_question := fun _ _ _ => Returns ("q1", "T");
     send_feedback := fun _ _ _ => Returns (Some "f1");
     gmail := mailbox messages;
     grade_response := fun _ _ _ => Returns fair_grade;
     now_should_send := now; now_fallback_ms := now; now_sent := now;
     now_timeout := now; now_progress := now |}.

(** The same with the mail channel down. *)
Definition mail_down (now : Z) : Env :=
  {| random := first_entry;
     send_question := fun _ _ _ => Raises "Error sending email";
     send_feedback := fun _ _ _ => Raises "Error sending feedback";
     gmail := mailbox [];
     grade_response := fun _ _ _ => Returns fair_grade;
     now_should_send := now; now_fallback_ms := now; now_sent := now;
     now_timeout := now; now_progress := now |}.

(** A model reply that is an object with a score only. *)
Definition score_reply : string := "{" ++ dq ++ "score" ++ dq ++ ": 90}".

Definition score_grader : GradingService.Grader :=
  {| GradingService.generate_content := fun _ => Returns score_reply;
     GradingService.json_loads := fun text =>
       if String.eqb text score_reply
       then Returns (GradingService.JObj [("score", GradingService.JNum 90)])
       else Raises "Expecting value: line 1 column 1 (char 0)" |}.

(** A listing of two models, the dearer one first; both can be built. *)
Definition two_models : GradingService.Genai :=
  {| GradingService.list_models :=
       Returns [("models/gemini-2.5-flash", ["generateContent"]);
                ("models/gemini-flash-lite-latest", ["generateContent"]);
                ("models/embedding-001", ["embedContent"])];
     GradingService.GenerativeModel := fun _ => true |}.

(** A message in two parts, of which the second is plain text. *)
Definition two_parts : EmailService.Part :=
  EmailService.MkPart (Some "multipart/alternative") None
    [EmailService.MkPart (Some "text/html") (Some "<p>Stars</p>") [];
     plain "Stars"].

(** The service as it resumes from [used_files]. *)
Definition resumed : Service :=
  {| state := waiting_state; scores := <[1 := [40]]> ∅; progress := [old_entry];
     questions_df := bank3; email_subject := "Quiz Question";
     files := used_files |}.




End Scenario.

(** * The text functions on examples *)

Module TextExamples.
Import Py Re EmailService Scenario.
Local Open Scope string_scope.

Example quoted_lines_removed :
  clean_response ("Stars and gas" ++ br ++ br ++ "> What is a galaxy?" ++ br)
  = "Stars and gas".
Proof. vm_compute. reflexivity. Qed.

Example attribution_removed :
  clean_response ("Dark matter" ++ br ++ "On Mon, Jan 1 the quiz wrote:" ++ br
                  ++ "> What is a galaxy?")
  = "Dark matter".
Proof. vm_compute. reflexivity. Qed.

Example blank_runs_collapsed :
  collapse_blank ("a" ++ br ++ "  " ++ br ++ br ++ "  b" ++ br ++ "c")
  = "a" ++ br ++ "  b" ++ br ++ "c".
Proof. vm_compute. reflexivity. Qed.

Example tags_removed :
  strip_tags "<p>hi</p> a < b <>> <<x>" = "hi a < b  <".
Proof. vm_compute. reflexivity. Qed.

Example words_split : split_ws "  hello  world foo " = ["hello"; "world"; "foo"].
Proof. vm_compute. reflexivity. Qed.

Example question_echo_rejected :
  mostly_question "What is a galaxy made of, mostly?"
                  "what is a galaxy made of, mostly? no idea" = true.
Proof. vm_compute. reflexivity. Qed.

Example four_fifths_is_not_more_than_80_percent :
  mostly_question "alpha beta gamma delta epsilon" "alpha beta gamma delta" = false.
Proof. vm_compute. reflexivity. Qed.

Example first_part_with_text_is_taken :
  extract_from_part
    (MkPart (Some "multipart/alternative") None
       [MkPart (Some "text/html") (Some "<b>Stars!</b>") [];
        MkPart (Some "text/plain") (Some "Stars") []])
  = "Stars!".
Proof. vm_compute. reflexivity. Qed.

Example newest_first_is_stable :
  map id (sort_newest_first
            [Scenario.reply "a" 5 ""; Scenario.reply "b" 7 "";
             Scenario.reply "c" 5 ""; Scenario.reply "d" 9 ""])
  = ["d"; "b"; "a"; "c"].
Proof. vm_compute. reflexivity. Qed.
End TextExamples.

(** * Properties of the response classifier *)

Module ClassifierFacts.

Import Py EmailService Scenario.

Section Loop.

Variables (cfg : Config) (svc : Gmail) (sent : string) (ts : Z)
          (exclude : list string).

Local Abbreviation accept := (classify_message cfg svc sent ts exclude).

(** What the loop returns is the cleaned text of the message it stops at. *)
Lemma classify_message_text m text :
  accept m = Some text -> text = clean_response (extract_message_text m).
Proof.
  unfold classify_message.
  repeat case_match; congruence.
Qed.

(** The loop stops at the first message of the list that is accepted. *)
Lemma first_response_some messages text :
  first_response cfg svc sent ts exclude messages = Some text ->
  exists pre m post,
    messages = (pre ++ m :: post)%list
    /\ Forall (fun x => accept x = None) pre
    /\ accept m = Some text.
Proof.
  induction messages as [|m rest IH]; simpl; [discriminate|].
  destruct (accept m) as [t|] eqn:Hm.
  - intros [= <-]. exists [], m, rest. auto.
  - intros H. destruct (IH H) as (pre & m' & post & -> & Hpre & Hm').
    exists (m :: pre), m', post. repeat split; auto.
Qed.

Lemma first_response_none messages :
  first_response cfg svc sent ts exclude messages = None ->
  Forall (fun x => accept x = None) messages.
Proof.
  induction messages as [|m rest IH]; simpl; [constructor|].
  destruct (accept m) eqn:Hm; [discriminate|]. auto.
Qed.

End Loop.

(** The tests on the content of a message do not look at its date. *)
Lemma classify_message_timing cfg svc sent ts exclude m late text d :
  classify_message cfg svc sent ts exclude (delivered_at (ts + late) m) = Some text ->
  classify_message cfg svc sent ts exclude (delivered_at (ts + d) m)
  = if d <? 10000 then None else Some text.
Proof.
  unfold classify_message, timestamp, extract_message_text. simpl.
  replace (ts + late - ts) with late by lia.
  replace (ts + d - ts) with d by lia.
  destruct (bool_decide _); [discriminate|].
  destruct (late <=? buffer_ms) eqn:Hl1; [discriminate|].
  destruct (negb _) eqn:Hfrom; [discriminate|].
  destruct (contains _ (lower (from_header _))) eqn:Hc; [|discriminate].
  destruct (late <? 10000) eqn:Hl2; [discriminate|].
  intros H.
  destruct (d <? 10000) eqn:Hd.
  - destruct (d <=? buffer_ms); reflexivity.
  - unfold buffer_ms in *.
    destruct (d <=? 2000) eqn:Hd2; [lia|]. exact H.
Qed.

(** C1 (as amended): [check_for_response] goes through the messages in the
    order in which the thread lists them, without sorting, and returns the
    cleaned text of the first message that no check rejects; when every
    message is rejected it returns [None], and does not raise. *)
Theorem check_for_response_thread_order
    cfg svc thread sent stamp exclude messages
    (Hthread : threads_get svc thread = Some messages) :
  let accept :=
    classify_message cfg svc sent (resolve_sent_timestamp svc sent stamp)
      (exclusion_list sent exclude) in
  exists r,
    check_for_response cfg svc thread sent stamp exclude = Returns r
    /\ match r with
       | Some text =>
           exists pre m post,
             messages = (pre ++ m :: post)%list
             /\ Forall (fun x => accept x = None) pre
             /\ accept m = Some text
             /\ text = clean_response (extract_message_text m)
       | None => Forall (fun x => accept x = None) messages
       end.
Proof.
  intros accept. unfold check_for_response, get_thread_messages.
  rewrite Hthread. eexists. split; [reflexivity|].
  destruct (first_response _ _ _ _ _ messages) as [text|] eqn:Hr.
  - destruct (first_response_some _ _ _ _ _ _ _ Hr) as (pre & m & post & ? & ? & Hm).
    exists pre, m, post. repeat split; auto.
    eapply classify_message_text; eauto.
  - eapply first_response_none; eauto.
Qed.

Lemma check_for_response_thread_order_witness :
  exists r,
    check_for_response Scenario.cfg (Scenario.mailbox Scenario.two_answers)
      "T" "q1" (Some 1000) (Some ["q1"]) = Returns r.
Proof.
  destruct (check_for_response_thread_order Scenario.cfg
              (Scenario.mailbox Scenario.two_answers) "T" "q1" (Some 1000)
              (Some ["q1"]) Scenario.two_answers eq_refl) as (r & Hr & _).
  exists r. exact Hr.
Defined.

(** C1, as stated, fails: of two acceptable answers the older one, listed
    first, is returned; going newest first would return the other. *)
Lemma check_for_response_not_newest_first :
  check_for_response Scenario.cfg (Scenario.mailbox Scenario.two_answers)
    "T" "q1" (Some 1000) (Some ["q1"]) = Returns (Some "Stars, gas and dust")
  /\ check_newest_first Scenario.cfg (Scenario.mailbox Scenario.two_answers)
       "T" "q1" (Some 1000) (Some ["q1"]) = Returns (Some "Mostly dark matter").
Proof. split; vm_compute; reflexivity. Qed.

(** C2 (as amended): a reply that passes every check when it arrives late
    is rejected when it arrives 1500 ms after the question (inside the
    2000 ms buffer) and also when it arrives 3000 ms after it (under the
    10000 ms threshold); it is accepted from 10000 ms on. *)
Theorem reply_accepted_from_ten_seconds
    cfg lookup thread sent ts exclude m late text
    (Hok : check_for_response cfg (thread_of lookup [delivered_at (ts + late) m])
             thread sent (Some ts) exclude = Returns (Some text)) :
  check_for_response cfg (thread_of lookup [delivered_at (ts + 1500) m])
    thread sent (Some ts) exclude = Returns None
  /\ check_for_response cfg (thread_of lookup [delivered_at (ts + 3000) m])
       thread sent (Some ts) exclude = Returns None
  /\ forall d, 10000 <= d ->
       check_for_response cfg (thread_of lookup [delivered_at (ts + d) m])
         thread sent (Some ts) exclude = Returns (Some text).
Proof.
  revert Hok. unfold check_for_response, get_thread_messages. simpl.
  destruct (classify_message _ _ _ _ _ (delivered_at (ts + late) m))
    as [t|] eqn:Hlate; [|discriminate].
  intros [= ->].
  assert (Hd : forall d,
    classify_message cfg (thread_of lookup [delivered_at (ts + d) m]) sent ts
      (exclusion_list sent exclude) (delivered_at (ts + d) m)
    = if d <? 10000 then None else Some text).
  { intros d. rewrite <- (classify_message_timing _ _ _ _ _ _ _ _ d Hlate).
    reflexivity. }
  repeat split.
  - rewrite (Hd 1500). reflexivity.
  - rewrite (Hd 3000). reflexivity.
  - intros d Hge. rewrite (Hd d).
    destruct (d <? 10000) eqn:E; [lia|reflexivity].
Qed.

Lemma reply_accepted_from_ten_seconds_witness :
  check_for_response Scenario.cfg
    (thread_of (EmailService.messages_get (Scenario.mailbox []))
       [delivered_at (1000 + 3000) (Scenario.reply "r1" 0 "Stars, gas and dust")])
    "T" "q1" (Some 1000) None = Returns None.
Proof.
  refine (proj1 (proj2 (reply_accepted_from_ten_seconds Scenario.cfg
    (EmailService.messages_get (Scenario.mailbox [])) "T" "q1" 1000 None
    (Scenario.reply "r1" 0 "Stars, gas and dust") 20000
    "Stars, gas and dust" _))).
  vm_compute. reflexivity.
Defined.

(** C2, as stated, fails: the reply that is accepted 20 s after the
    question is rejected when it arrives 3000 ms after it. *)
Lemma reply_after_three_seconds_rejected :
  check_for_response Scenario.cfg
    (Scenario.mailbox [Scenario.sent_question;
                       Scenario.reply "r1" (1000 + 3000) "Stars, gas and dust"])
    "T" "q1" (Some 1000) (Some ["q1"]) = Returns None
  /\ check_for_response Scenario.cfg
       (Scenario.mailbox [Scenario.sent_question;
                          Scenario.reply "r1" (1000 + 20000) "Stars, gas and dust"])
       "T" "q1" (Some 1000) (Some ["q1"]) = Returns (Some "Stars, gas and dust").
Proof. split; vm_compute; reflexivity. Qed.

End ClassifierFacts.

(** * Properties of the grader *)

Module GraderFacts.

Import Py GradingService Scenario.
Local Close Scope string_scope.

(** A failing model call or a failing parse yields the fallback
    dictionary. *)
Lemma grade_response_falls_back g sheet response answer question e :
  (generate_content g
     {| p_question := question; p_correct_answer := answer;
        p_user_response := response; p_context := context_section sheet |}
   = Raises e
   \/ exists text,
        generate_content g
          {| p_question := question; p_correct_answer := answer;
             p_user_response := response; p_context := context_section sheet |}
        = Returns text
        /\ json_loads g (unfence (strip text)) = Raises e) ->
  grade_response g sheet response answer question = fallback e.
Proof.
  unfold grade_response, graded.
  intros [-> | (text & -> & ->)]; reflexivity.
Qed.

Lemma has_key_app key fields more :
  has_key key (fields ++ more) = has_key key fields || has_key key more.
Proof.
  induction fields as [|[k v] rest IH]; simpl; [reflexivity|].
  rewrite IH. apply orb_assoc.
Qed.

(** A parsed dictionary comes back with the three keys, its own entries
    first. *)
Lemma grade_response_completes_object g sheet response answer question text fields :
  generate_content g
    {| p_question := question; p_correct_answer := answer;
       p_user_response := response; p_context := context_section sheet |}
  = Returns text ->
  json_loads g (unfence (strip text)) = Returns (JObj fields) ->
  exists more,
    grade_response g sheet response answer question = JObj (fields ++ more)
    /\ has_key "score" (fields ++ more) = true
    /\ has_key "feedback" (fields ++ more) = true
    /\ has_key "missing_points" (fields ++ more) = true.
Proof.
  intros Hgen Hparse. unfold grade_response, graded.
  rewrite Hgen, Hparse. unfold fill_default. simpl.
  destruct (has_key "score" fields) eqn:H1; simpl;
    rewrite ?has_key_app; simpl;
    destruct (has_key "feedback" fields) eqn:H2; simpl;
    rewrite ?has_key_app; simpl; rewrite ?H2; simpl;
    destruct (has_key "missing_points" fields) eqn:H3; simpl;
    rewrite <- ?app_assoc; simpl;
    try (exists []; rewrite app_nil_r; auto; fail);
    (eexists; split; [reflexivity|]);
    rewrite !has_key_app, ?H1, ?H2, ?H3; simpl; auto.
Qed.

(** C10 (the code departs from it): for the model reply that is the JSON
    array of the three key names, every [key in result] test succeeds on
    the list, nothing is filled in, and [grade_response] returns the list,
    which is not a dictionary. *)
Theorem grade_response_returns_array :
  grade_response array_grader None "Stars" "Stars and gas" "What is a galaxy?"
  = JArr [JStr "score"; JStr "feedback"; JStr "missing_points"]
  /\ forall fields,
       grade_response array_grader None "Stars" "Stars and gas" "What is a galaxy?"
       <> JObj fields.
Proof. split; [vm_compute; reflexivity|]. intros fields. vm_compute. discriminate. Qed.

End GraderFacts.

(** * Properties of the stores and of start-up *)

Module StoreFacts.

Import Py QuizService Scenario.

(** C5: the average score of a question without score entries (no key, or
    an empty list) is 100; that of a question with entries is their
    arithmetic mean; the scores 80 and 60 average to 70. *)
Theorem average_score_is_mean (ledger : gmap Z (list Z)) (idx : Z) (l : list Z)
    (Hentries : ledger !! idx = Some l \/ (ledger !! idx = None /\ l = [])) :
  (l = [] -> _get_average_score ledger idx = 100%Q)
  /\ (l <> [] ->
      _get_average_score ledger idx
      = (inject_Z (sumZ l) / inject_Z (Z.of_nat (length l)))%Q)
  /\ Qeq (_get_average_score (<[idx := [80; 60]]> ledger) idx) 70%Q.
Proof.
  unfold _get_average_score. repeat split.
  - intros ->. destruct Hentries as [-> | [-> _]]; reflexivity.
  - intros Hne. destruct Hentries as [-> | [_ ->]]; [|congruence].
    destruct l; [congruence|reflexivity].
  - rewrite lookup_insert_eq. reflexivity.
Qed.

Lemma average_score_is_mean_witness :
  _get_average_score (<[2 := three_grades]> ∅) 2
  = (inject_Z (sumZ three_grades) / inject_Z (Z.of_nat (length three_grades)))%Q.
Proof.
  refine (proj1 (proj2 (average_score_is_mean (<[2 := three_grades]> ∅) 2
                          three_grades _)) _).
  - left. reflexivity.
  - discriminate.
Defined.

(** What the check of lines 62-73 does: the recency buffer alone is
    examined.  When it holds an id at or beyond the number of rows of the
    reloaded bank, the buffer, the current question id, the question and
    the answer are cleared and start-up goes on; when all its ids are below
    the number of rows (or it is empty) the state is kept as loaded,
    current question id included. *)
Lemma stale_recent_ids_cleared
    cfg rows subject reset_waiting fs st
    (Hfile : state_file fs = Some (Document st)) :
  exists sv,
    __init__ cfg (Returns rows) subject false reset_waiting fs = (fs, Returns sv)
    /\ (Exists (fun x => Z.of_nat (length rows) <= x) (recent_questions st) ->
        recent_questions (state sv) = []
        /\ current_question_idx (state sv) = None
        /\ current_question (state sv) = None
        /\ current_answer (state sv) = None)
    /\ (Forall (fun x => x < Z.of_nat (length rows)) (recent_questions st) ->
        recent_questions (state sv) = recent_questions st
        /\ current_question_idx (state sv) = current_question_idx st).
Proof.
  unfold __init__. eexists. split; [reflexivity|]. simpl.
  unfold _load_state. rewrite Hfile.
  set (loaded := if reset_waiting then _ else st).
  assert (Hrecent : recent_questions loaded = recent_questions st)
    by (subst loaded; destruct reset_waiting; reflexivity).
  assert (Hidx : current_question_idx loaded = current_question_idx st)
    by (subst loaded; destruct reset_waiting; reflexivity).
  clearbody loaded. rewrite <- Hrecent, <- Hidx. clear Hrecent Hidx Hfile st.
  unfold discard_stale.
  destruct (recent_questions loaded) as [|x l] eqn:Hr.
  - split; [intros H; inversion H|]. intros _. rewrite Hr. auto.
  - assert (Hmax : forall n, n <= maximum x l <-> Exists (fun y => n <= y) (x :: l)).
    { intros n. unfold maximum. clear Hr. induction l as [|y l IH]; simpl.
      - split; [intros; constructor; assumption|].
        intros H; inversion H; subst; [assumption|]. inversion H1.
      - rewrite Exists_cons, Exists_cons. rewrite Exists_cons in IH.
        split.
        + intros H. destruct (Z.max_spec y (fold_right Z.max x l)) as [[? E]|[? E]];
            rewrite E in H; [apply IH in H; tauto|tauto].
        + intros [H|[H|H]]; lia || (assert (n <= fold_right Z.max x l) by tauto; lia). }
    destruct (Z.of_nat (length rows) <=? maximum x l) eqn:E.
    + split; [intros _; simpl; auto|].
      intros Hall. apply Z.leb_le, Hmax in E.
      apply Exists_exists in E as (y & Hy & Hle).
      rewrite Forall_forall in Hall. specialize (Hall y Hy). lia.
    + split; [|intros _; rewrite Hr; auto].
      intros Hex. apply Hmax in Hex. apply Z.leb_gt in E. lia.
Qed.

Lemma stale_recent_ids_cleared_witness :
  exists sv,
    __init__ cfg (Returns bank3) None false true stale_files
    = (stale_files, Returns sv).
Proof.
  destruct (stale_recent_ids_cleared cfg bank3 None true stale_files
              stale_state eq_refl) as (sv & Hsv & _).
  exists sv. exact Hsv.
Defined.

(** C9: the code misses the stale current question id.  The comment of
    lines 62-63 announces that [recent_questions] and
    [current_question_idx] are cleared when the bank has changed, but the
    test looks at the recency buffer only: with the buffer [[1]] and the
    current question id 99 persisted, the start on a bank of three
    questions, as [main] makes it, clears nothing and keeps the id 99, which
    is no row of the bank. *)
Theorem stale_current_question_kept :
  exists sv,
    __init__ cfg (Returns bank3) None false true stale_files
    = (stale_files, Returns sv)
    /\ current_question_idx (state sv) = Some 99
    /\ loc (questions_df sv) 99 = None
    /\ recent_questions (state sv) = [1].
Proof.
  eexists. split; [reflexivity|]. split; [reflexivity|]. split; reflexivity.
Qed.

End StoreFacts.

(** * Properties of the selector *)

Module SelectorFacts.

Import Py QuizService Scenario.
Local Close Scope string_scope.

(** ** Outcome tables *)
Section Tables.
Variable f : Z -> Q.

Lemma mass_table l : (mass (table f l) == sumQ (map f l))%Q.
Proof.
  unfold mass, table. rewrite map_map. simpl. reflexivity.
Qed.

Lemma mass_of_absent x l : x ∉ l -> (mass_of x (table f l) == 0)%Q.
Proof.
  unfold mass_of, mass, table. induction l as [|c l IH]; simpl; intros Hx.
  - reflexivity.
  - rewrite not_elem_of_cons in Hx. destruct Hx as [Hne Hx].
    rewrite bool_decide_eq_false_2 by congruence. auto.
Qed.

Lemma mass_of_present x l : NoDup l -> x ∈ l -> (mass_of x (table f l) == f x)%Q.
Proof.
  intros Hnd. induction Hnd as [|c l Hc Hnd IH]; intros Hx.
  - inversion Hx.
  - unfold mass_of, mass, table in *. simpl.
    destruct (decide (c = x)) as [->|Hne].
    + rewrite bool_decide_eq_true_2 by reflexivity. simpl.
      pose proof (mass_of_absent x l Hc) as H0.
      unfold mass_of, mass, table in H0. rewrite H0. ring.
    + rewrite bool_decide_eq_false_2 by exact Hne.
      apply IH. rewrite elem_of_cons in Hx. destruct Hx; congruence.
Qed.
End Tables.

Lemma sumQ_scaled (t : Q) (ws : list Q) :
  (sumQ (map (fun w => w / t) ws) == sumQ ws / t)%Q.
Proof.
  induction ws as [|w ws IH]; simpl.
  - unfold Qdiv. ring.
  - rewrite IH. unfold Qdiv. ring.
Qed.

Lemma sumQ_ones (l : list Z) :
  (sumQ (map (fun _ => 1) l) == inject_Z (Z.of_nat (length l)))%Q.
Proof.
  induction l as [|c l IH]; simpl length; simpl map; simpl sumQ.
  - reflexivity.
  - rewrite IH, Nat2Z.inj_succ. unfold Z.succ. rewrite inject_Z_plus. ring.
Qed.

(** Weights are at least one, so their sum over a non-empty list is
    positive. *)
Lemma weight_ge_1 sc idx : (1 <= weight sc idx)%Q.
Proof.
  unfold weight. destruct (Qle_bool 1 _) eqn:E.
  - apply Qle_bool_iff. exact E.
  - apply Qle_refl.
Qed.

Lemma sum_weights_positive sc l : l <> [] -> (0 < sumQ (map (weight sc) l))%Q.
Proof.
  assert (Hnn : forall k, (0 <= sumQ (map (weight sc) k))%Q).
  { induction k as [|c k IH]; simpl; [apply Qle_refl|].
    pose proof (weight_ge_1 sc c).
    apply Qle_trans with (0 + 0)%Q; [apply Qle_refl|].
    apply Qplus_le_compat; [|exact IH].
    apply Qle_trans with 1%Q; [discriminate|assumption]. }
  destruct l as [|c l]; [congruence|]. intros _. simpl.
  pose proof (weight_ge_1 sc c). specialize (Hnn l).
  apply Qlt_le_trans with (1 + 0)%Q; [reflexivity|].
  apply Qplus_le_compat; assumption.
Qed.

Lemma zip_table (g : Z -> Q) (l : list Z) : zip l (map g l) = table g l.
Proof. induction l as [|c l IH]; simpl; [reflexivity|]. rewrite IH. reflexivity. Qed.

Lemma filter_NoDup (p : Z -> bool) l : NoDup l -> NoDup (List.filter p l).
Proof.
  intros H. apply NoDup_ListNoDup. apply List.NoDup_filter.
  apply NoDup_ListNoDup. exact H.
Qed.

Lemma bank_indices_NoDup df : NoDup (bank_indices df).
Proof.
  unfold bank_indices. apply NoDup_fmap_2; [apply Nat2Z.inj'|apply NoDup_seq].
Qed.

(** ** Candidates are rows of the bank *)
Lemma loc_bank df x : x ∈ bank_indices df -> is_Some (loc df x).
Proof.
  unfold bank_indices, loc. intros Hx.
  apply list_elem_of_fmap in Hx as (i & -> & Hi).
  apply elem_of_seq in Hi.
  destruct (Z.ltb_spec (Z.of_nat i) 0) as [|_]; [lia|].
  rewrite Nat2Z.id. apply lookup_lt_is_Some. lia.
Qed.

Lemma candidates_in_bank sv x : x ∈ candidates sv -> x ∈ bank_indices (questions_df sv).
Proof.
  unfold candidates. intros Hx. apply list_elem_of_In, filter_In in Hx as [Hx _].
  apply list_elem_of_In. exact Hx.
Qed.

Lemma candidates_NoDup sv : NoDup (candidates sv).
Proof. apply filter_NoDup, bank_indices_NoDup. Qed.

(** The random call of a selection, in the terms of the code: with a bank
    id outside the recency buffer the selection makes one random call and
    returns the id it yields; the call is [random.choice] on the
    candidates that [unanswered] holds of when there are any, and
    [random.choices] on the candidates with the normalised [weight]s
    otherwise. *)
Lemma selection_draw_distribution sv (Hcand : candidates sv <> []) :
  let unasked := List.filter (unanswered (scores sv)) (candidates sv) in
  exists d,
    selection_draw sv = (sv, Returns d)
    /\ (forall env, random env d ∈ candidates sv ->
        exists sv' q, _select_random_question env sv = (sv', Returns q)
                      /\ index q = random env d)
    /\ (unasked <> [] ->
        d = Choice unasked
        /\ forall x,
             (probability d x ==
              if decide (x ∈ unasked)
              then 1 / inject_Z (Z.of_nat (length unasked)) else 0)%Q)
    /\ (unasked = [] ->
        (exists ws, d = Choices (candidates sv) ws)
        /\ forall x,
             (probability d x ==
              if decide (x ∈ candidates sv)
              then weight (scores sv) x
                   / sumQ (map (weight (scores sv)) (candidates sv))
              else 0)%Q).
Proof.
  intros unasked.
  assert (Hdraw : exists d, selection_draw sv = (sv, Returns d)
     /\ (unasked <> [] -> d = Choice unasked)
     /\ (unasked = [] ->
         d = Choices (candidates sv)
               (map (fun w => (w / sumQ (map (weight (scores sv)) (candidates sv)))%Q)
                    (map (weight (scores sv)) (candidates sv))))).
  { unfold selection_draw. unfold_m. cbv beta. fold (candidates sv).
    subst unasked.
    destruct (candidates sv) as [|c cs] eqn:Hc; [congruence|].
    destruct (List.filter _ (c :: cs)) as [|u us] eqn:Hu.
    - pose proof (sum_weights_positive (scores sv) (c :: cs) Hcand) as Hpos.
      destruct (Qle_bool (sumQ (map (weight (scores sv)) (c :: cs))) 0) eqn:E.
      + apply Qle_bool_iff in E. exfalso. eapply Qlt_not_le; eauto.
      + simpl. eexists. split; [reflexivity|]. split; [congruence|auto].
    - eexists. split; [reflexivity|]. split; [auto|discriminate]. }
  destruct Hdraw as (d & Hd & Hchoice & Hchoices).
  exists d. split; [exact Hd|]. split; [|split].
  - intros env Hin. unfold _select_random_question. unfold bind at 1.
    rewrite Hd. unfold_m.
    destruct (loc_bank _ _ (candidates_in_bank _ _ Hin)) as [[q a] ->].
    eexists; eexists. split; reflexivity.
  - intros Hne. split; [auto|]. intros x. rewrite (Hchoice Hne).
    unfold probability, outcomes. fold (table (fun _ => 1%Q) unasked).
    assert (Hnd : NoDup unasked) by apply filter_NoDup, candidates_NoDup.
    rewrite mass_table, sumQ_ones.
    destruct (decide (x ∈ unasked)) as [Hx|Hx].
    + rewrite mass_of_present by assumption. reflexivity.
    + rewrite mass_of_absent by assumption. unfold Qdiv. ring.
  - intros Hnil. split; [eexists; eauto|]. intros x. rewrite (Hchoices Hnil).
    unfold probability, outcomes. rewrite map_map, zip_table.
    set (t := sumQ (map (weight (scores sv)) (candidates sv))).
    assert (Ht : ~ (t == 0)%Q).
    { intros E. pose proof (sum_weights_positive (scores sv) _ Hcand) as Hpos.
      fold t in Hpos. rewrite E in Hpos. discriminate. }
    assert (Hmass : (mass (table (fun c => weight (scores sv) c / t) (candidates sv)) == 1)%Q).
    { rewrite mass_table.
      rewrite <- (map_map (weight (scores sv)) (fun w => (w / t)%Q)).
      rewrite sumQ_scaled. fold t. field. exact Ht. }
    rewrite Hmass.
    destruct (decide (x ∈ candidates sv)) as [Hx|Hx].
    + rewrite mass_of_present by (auto using candidates_NoDup). field. exact Ht.
    + rewrite mass_of_absent by assumption. reflexivity.
Qed.

(** ** The code's weighting is the specified one *)
Lemma average_specified sc x : _get_average_score sc x = specified_average sc x.
Proof.
  unfold _get_average_score, specified_average, recorded, mean.
  destruct (sc !! x) as [[|y l]|]; reflexivity.
Qed.

Lemma weight_specified sc x : (weight sc x == specified_weight sc x)%Q.
Proof.
  unfold weight, specified_weight. rewrite average_specified.
  set (a := specified_average sc x).
  assert (Hsq : ((101 - a) ^ 2 == (101 - a) * (101 - a))%Q) by (simpl; reflexivity).
  destruct (Qle_bool 1 ((101 - a) * (101 - a))) eqn:E.
  - apply Qle_bool_iff in E. rewrite Q.max_r; [symmetry; exact Hsq|].
    rewrite Hsq. exact E.
  - assert (Hlt : ((101 - a) * (101 - a) < 1)%Q).
    { apply Qnot_le_lt. intros H. apply Qle_bool_iff in H. congruence. }
    rewrite Q.max_l; [reflexivity|]. rewrite Hsq. apply Qlt_le_weak. exact Hlt.
Qed.

Lemma unanswered_specified sc x : unanswered sc x = never_answered sc x.
Proof.
  unfold unanswered, never_answered, recorded.
  destruct (sc !! x) as [[|y l]|]; reflexivity.
Qed.

Lemma sumQ_ext (f g : Z -> Q) l :
  (forall x, f x == g x)%Q -> (sumQ (map f l) == sumQ (map g l))%Q.
Proof.
  intros H. induction l as [|c l IH]; simpl; [reflexivity|].
  rewrite IH, H. reflexivity.
Qed.

Lemma filter_specified sc l :
  List.filter (unanswered sc) l = List.filter (never_answered sc) l.
Proof.
  induction l as [|c l IH]; simpl; [reflexivity|].
  rewrite unanswered_specified, IH. reflexivity.
Qed.

(** C4: when a bank id is outside the recency buffer, the selection makes
    one random call and returns the id it yields.  If some candidate has no
    recorded score the call is [random.choice] on the candidates without a
    recorded score, so each of them has probability one over their number
    and every other id probability zero.  Otherwise the call is
    [random.choices] on the candidates, each with probability
    [weight(id) / sum of the candidates' weights], where
    [weight(id) = max(1, (101 - average_score(id))^2)] and the average is
    the mean of the recorded scores.  The weighting is written out in
    [specified_weight], independently of the code's [weight].
    Probabilities are those of the rational weights handed to the random
    call. *)
Theorem selection_follows_weights sv (Hcand : candidates sv <> []) :
  let unasked := List.filter (never_answered (scores sv)) (candidates sv) in
  exists d,
    selection_draw sv = (sv, Returns d)
    /\ (forall env, random env d ∈ candidates sv ->
        exists sv' q, _select_random_question env sv = (sv', Returns q)
                      /\ index q = random env d)
    /\ (unasked <> [] ->
        d = Choice unasked
        /\ forall x,
             (probability d x ==
              if decide (x ∈ unasked)
              then 1 / inject_Z (Z.of_nat (length unasked)) else 0)%Q)
    /\ (unasked = [] ->
        (exists ws, d = Choices (candidates sv) ws)
        /\ forall x,
             (probability d x ==
              if decide (x ∈ candidates sv)
              then specified_weight (scores sv) x
                   / sumQ (map (specified_weight (scores sv)) (candidates sv))
              else 0)%Q).
Proof.
  intros unasked. subst unasked. rewrite <- filter_specified.
  destruct (selection_draw_distribution sv Hcand) as (d & Hd & Hq & Hu & Hw).
  exists d. split; [exact Hd|]. split; [exact Hq|]. split; [exact Hu|].
  intros Hnil. destruct (Hw Hnil) as [Hws Hp]. split; [exact Hws|].
  intros x. rewrite (Hp x).
  destruct (decide (x ∈ candidates sv)); [|reflexivity].
  rewrite (weight_specified (scores sv) x).
  rewrite (sumQ_ext _ _ (candidates sv) (weight_specified (scores sv))).
  reflexivity.
Qed.

Lemma selection_follows_weights_witness :
  exists d,
    selection_draw graded_service = (graded_service, Returns d)
    /\ (probability d 0 == 1 # 12803)%Q
    /\ (probability d 1 == 2601 # 12803)%Q
    /\ (probability d 2 == 10201 # 12803)%Q
    /\ (probability d 3 == 0)%Q.
Proof.
  destruct (selection_follows_weights graded_service) as (d & Hd & _ & _ & Hw).
  - vm_compute. discriminate.
  - exists d. split; [exact Hd|].
    destruct Hw as [_ Hp]; [vm_compute; reflexivity|].
    assert (Hin : forall x, x ∈ [0; 1; 2] -> x ∈ candidates graded_service)
      by (intros x Hx; vm_compute; exact Hx).
    split; [|split; [|split]].
    + generalize (Hp 0). destruct (decide (0 ∈ candidates graded_service)) as [_|Hn].
      * intros H. eapply Qeq_trans; [exact H|]. vm_compute. reflexivity.
      * exfalso. apply Hn, Hin. repeat constructor.
    + generalize (Hp 1). destruct (decide (1 ∈ candidates graded_service)) as [_|Hn].
      * intros H. eapply Qeq_trans; [exact H|]. vm_compute. reflexivity.
      * exfalso. apply Hn, Hin. repeat constructor.
    + generalize (Hp 2). destruct (decide (2 ∈ candidates graded_service)) as [_|Hn].
      * intros H. eapply Qeq_trans; [exact H|]. vm_compute. reflexivity.
      * exfalso. apply Hn, Hin. repeat constructor.
    + generalize (Hp 3). destruct (decide (3 ∈ candidates graded_service)) as [Hy|_].
      * exfalso. apply candidates_in_bank, loc_bank in Hy.
        destruct Hy as [row Hrow]. discriminate.
      * intros H. exact H.
Defined.

(** With averages 100, 50 and 0 the weights are 1, 2601 and 10201. *)
Example weights_of_graded_service :
  map (fun x => Qred (weight (scores graded_service) x)) [0; 1; 2]
  = [1%Q; 2601%Q; 10201%Q].
Proof. vm_compute. reflexivity. Qed.

End SelectorFacts.

(** * Properties of the scheduler *)

Module SchedulerFacts.

Import Py QuizService Scenario SelectorFacts.
Local Close Scope string_scope.

#[local] Arguments GradingService.format_feedback_message : simpl never.

(** ** The last entries of a list *)
Section Lists.
Context {A : Type}.
Implicit Types (l : list A) (n : nat).

Lemma last_n_length n l : (length (last_n n l) <= n)%nat.
Proof. unfold last_n. rewrite length_drop. lia. Qed.

Lemma last_n_suffix n l : last_n n l `suffix_of` l.
Proof. apply suffix_drop. Qed.

Lemma last_n_short n l : (length l <= n)%nat -> last_n n l = l.
Proof. intros H. unfold last_n. replace (length l - n)%nat with 0%nat by lia. reflexivity. Qed.

Lemma last_n_snoc n l x : last_n (S n) (l ++ [x]) = last_n n l ++ [x].
Proof.
  unfold last_n. rewrite length_app. simpl.
  replace (length l + 1 - S n)%nat with (length l - n)%nat by lia.
  rewrite drop_app_le by lia. reflexivity.
Qed.

Lemma last_n_last_n n m l : (n <= m)%nat -> last_n n (last_n m l) = last_n n l.
Proof.
  intros H. unfold last_n. rewrite length_drop, drop_drop. f_equal. lia.
Qed.

Lemma last_n_push n l x : last_n (S n) (last_n (S n) l ++ [x]) = last_n (S n) (l ++ [x]).
Proof. rewrite !last_n_snoc, last_n_last_n by lia. reflexivity. Qed.

Lemma last_n_elem n l x : x ∈ last_n (S n) (l ++ [x]).
Proof. rewrite last_n_snoc. set_solver. Qed.
End Lists.

(** ** What each method does to the service

    A selection that returns leaves its id at the end of the recency
    buffer, which was emptied first when there was no candidate. *)
Lemma select_returns env sv sv' q :
  _select_random_question env sv = (sv', Returns q) ->
  exists base,
    (candidates sv <> [] /\ base = recent_questions (state sv)
     \/ candidates sv = [] /\ base = [])
    /\ sv' = with_state (set_recent_questions
                          (last_n 10 (base ++ [index q]))) sv.
Proof.
  unfold _select_random_question, selection_draw, candidates. unfold_m.
  destruct sv as [st sc pr df subj fs]. destruct st. simpl.
  destruct (List.filter _ (bank_indices df)) as [|c cs] eqn:Hc; simpl.
  - intros H. repeat (case_match; simplify_eq/=);
      (eexists; split; [right; split; reflexivity|reflexivity]).
  - intros H. repeat (case_match; simplify_eq/=);
      (eexists; split; [left; split; [discriminate|reflexivity]|reflexivity]).
Qed.

(** A selection changes nothing but the recency buffer, also when it
    raises. *)
Lemma select_effect env sv :
  exists r,
    (_select_random_question env sv).1 = with_state (set_recent_questions r) sv
    /\ ((length (recent_questions (state sv)) <= 10)%nat -> (length r <= 10)%nat).
Proof.
  destruct (_select_random_question env sv) as [sv' [q|e]] eqn:H.
  - apply select_returns in H as (base & _ & ->). eexists. split; [reflexivity|].
    intros _. apply last_n_length.
  - revert H. unfold _select_random_question, selection_draw. unfold_m.
    destruct sv as [st sc pr df subj fs]. destruct st. simpl.
    intros H. repeat (case_match; simplify_eq/=);
     solve [ exists []; split; [reflexivity|simpl; lia]
           | eexists; split; [reflexivity|simpl; auto] ].
Qed.

(** [log_extends] is a preorder. *)
Lemma log_extends_refl sv : log_extends sv sv.
Proof. left. auto. Qed.

Lemma log_extends_trans sv1 sv2 sv3 :
  log_extends sv1 sv2 -> log_extends sv2 sv3 -> log_extends sv1 sv3.
Proof.
  intros [[Hp Hf]|(m & Hp & Hf)] [[Hp' Hf']|(m' & Hp' & Hf')].
  - left. split; congruence.
  - right. exists m'. split; congruence.
  - right. exists m. split; congruence.
  - right. exists (m ++ m')%list. rewrite app_assoc. split; congruence.
Qed.

(** [_send_question] leaves the bank and the progress log alone and keeps
    the state well formed; when it leaves the service waiting, the
    question was sent at [now_sent]. *)
Lemma send_effect env sv sv' out :
  _send_question env sv = (sv', out) ->
  questions_df sv' = questions_df sv
  /\ log_extends sv sv'
  /\ (well_formed (state sv) -> well_formed (state sv'))
  /\ (waiting_for_response (state sv') = true ->
      waiting_for_response (state sv) = false ->
      last_question_time (state sv') = Some (now_sent env))
  /\ (waiting_for_response (state sv) = false ->
      out = Returns tt ->
      waiting_for_response (state sv') = false ->
      sent_message_id (state sv') = None).
Proof.
  unfold _send_question. unfold bind at 1.
  destruct (select_effect env sv) as (r & Hsv1 & Hr).
  destruct (_select_random_question env sv) as [sv1 [q|e]]; simpl in Hsv1; subst sv1.
  - unfold_m. unfold well_formed, buffers_bounded, log_extends, remember_sent.
    destruct sv as [st sc pr df subj fs]. simpl in *.
    destruct (send_question env _ _ _) as [[rid rth]|e]; simpl;
      intros [= <- <-]; simpl.
    + repeat split; auto.
      * apply Hr. tauto.
      * apply last_n_length.
      * intros _. eexists. split; [reflexivity|]. apply last_n_elem.
      * discriminate.
    + repeat split; auto; try tauto; try discriminate; try (apply Hr; tauto).
  - unfold well_formed, buffers_bounded, log_extends.
    destruct sv as [st sc pr df subj fs]. simpl in *.
    intros [= <- <-]; simpl.
    repeat split; auto; try tauto; try congruence; try (apply Hr; tauto).
Qed.

(** [_check_for_response] never raises and touches at most the sent ids,
    and not even those in a well-formed state. *)
Lemma check_effect cfg env sv :
  exists ids r,
    _check_for_response cfg env sv
    = (with_state (set_sent_message_ids ids) sv, Returns r)
    /\ (well_formed (state sv) -> ids = sent_message_ids (state sv)).
Proof.
  unfold _check_for_response. unfold_m.
  destruct sv as [st sc pr df subj fs]. destruct st as [cq ca ci th sid sts lq w rq sids].
  simpl.
  destruct w; simpl; [|exists sids; eexists; split; [reflexivity|auto]].
  destruct th as [th|]; [|exists sids; eexists; split; [reflexivity|auto]].
  destruct sid as [sid|]; [|exists sids; eexists; split; [reflexivity|auto]].
  destruct (truthy th && truthy sid); [|exists sids; eexists; split; [reflexivity|auto]].
  destruct sids as [l|]; simpl.
  - destruct (EmailService.check_for_response _ _ _ _ _ _);
      (eexists; eexists; split; [reflexivity|]);
      intros [_ Hw]; simpl in Hw; destruct (Hw eq_refl) as (s & [= <-] & Hin);
      rewrite bool_decide_eq_true_2 by exact Hin; reflexivity.
  - destruct (EmailService.check_for_response _ _ _ _ _ _);
      (exists None; eexists; split; [reflexivity|auto]).
Qed.

(** [_grade_and_send_feedback] never raises; it adds at most one entry to
    the progress log, which it then writes out. *)
Lemma grade_effect env text sv :
  exists sv',
    _grade_and_send_feedback env text sv = (sv', Returns tt)
    /\ questions_df sv' = questions_df sv
    /\ log_extends sv sv'
    /\ last_question_time (state sv') = last_question_time (state sv)
    /\ (waiting_for_response (state sv') = true ->
        waiting_for_response (state sv) = true)
    /\ (well_formed (state sv) -> well_formed (state sv')).
Proof.
  unfold _grade_and_send_feedback. unfold_m.
  unfold _record_progress, _record_score, well_formed, buffers_bounded,
    log_extends, remember_sent, round_closed. unfold_m.
  destruct sv as [st sc pr df subj fs].
  destruct st as [cq ca ci th sid sts lq w rq sids]. destruct sids; simpl.
  all: repeat (case_match; simplify_eq/=);
    (eexists; split; [reflexivity|]); simpl;
    repeat split; auto; try tauto; try discriminate;
    try (right; eexists; split; reflexivity);
    try (intros; apply last_n_length); try lia.
Qed.

(** Closes the side goals of the lemmas below. *)
Ltac finish :=
  repeat split; auto using log_extends_refl; try discriminate;
  try congruence;
  try (unfold well_formed, buffers_bounded in *; tauto).

(** ** The passes of the loop *)
Lemma send_if_due_effect cfg env sv sv' out :
  send_if_due cfg env sv = (sv', out) ->
  questions_df sv' = questions_df sv
  /\ log_extends sv sv'
  /\ (well_formed (state sv) -> well_formed (state sv'))
  /\ (waiting_for_response (state sv) = true -> sv' = sv /\ out = Returns tt).
Proof.
  unfold send_if_due. unfold bind at 1. unfold get at 1.
  destruct (waiting_for_response (state sv)) eqn:Hw; simpl.
  - unfold ret. intros [= <- <-]. finish.
  - destruct (_should_send_new_question cfg env (state sv)).
    + intros H. apply send_effect in H as (? & ? & ? & _). finish.
    + unfold ret. intros [= <- <-]. finish.
Qed.

Lemma await_reply_effect cfg env sv :
  exists sv' c,
    await_reply cfg env sv = (sv', Returns c)
    /\ questions_df sv' = questions_df sv
    /\ log_extends sv sv'
    /\ (well_formed (state sv) -> well_formed (state sv'))
    /\ (waiting_for_response (state sv') = true ->
        waiting_for_response (state sv) = true
        /\ last_question_time (state sv') = last_question_time (state sv)
        /\ forall t, last_question_time (state sv) = Some t ->
             now_timeout env - t < minutes (QUESTION_INTERVAL_MINUTES cfg * 2)).
Proof.
  unfold await_reply. unfold bind at 1. unfold get at 1.
  destruct (waiting_for_response (state sv)) eqn:Hw.
  2:{ unfold ret. eexists; eexists. split; [reflexivity|].
      finish. }
  destruct (match last_question_time (state sv) with
            | Some last_time => _ | None => false end) eqn:Ht.
  - unfold_m. destruct sv as [st sc pr df subj fs]. simpl in *.
    eexists; eexists. split; [reflexivity|]. simpl.
    unfold well_formed, buffers_bounded. simpl.
    repeat split; try tauto; try discriminate. left; auto.
  - unfold bind at 1.
    destruct (check_effect cfg env sv) as (ids & r & -> & Hids).
    assert (Htime : forall t, last_question_time (state sv) = Some t ->
             now_timeout env - t < minutes (QUESTION_INTERVAL_MINUTES cfg * 2)).
    { intros t Hl. rewrite Hl in Ht. lia. }
    set (sv1 := with_state (set_sent_message_ids ids) sv).
    assert (Hq1 : questions_df sv1 = questions_df sv) by reflexivity.
    assert (Hl1 : log_extends sv sv1) by (left; split; reflexivity).
    assert (Hw1 : well_formed (state sv) -> well_formed (state sv1)).
    { intros Hwf. specialize (Hids Hwf). subst ids sv1.
      destruct sv as [st sc pr df subj fs]. destruct st. exact Hwf. }
    assert (Ht1 : last_question_time (state sv1) = last_question_time (state sv))
      by reflexivity.
    clearbody sv1.
    assert (Hgrade : forall text, exists sv',
      (_grade_and_send_feedback env text ;;; ret Sleep) sv1 = (sv', Returns Sleep)
      /\ questions_df sv' = questions_df sv
      /\ log_extends sv sv'
      /\ (well_formed (state sv) -> well_formed (state sv'))
      /\ last_question_time (state sv') = last_question_time (state sv)).
    { intros text. unfold bind.
      destruct (grade_effect env text sv1) as (sv' & -> & ? & ? & ? & ? & ?).
      exists sv'. unfold ret.
      split; [reflexivity|]. split; [congruence|].
      split; [eapply log_extends_trans; eauto|]. split; [auto|congruence]. }
    destruct r as [text|].
    + destruct (truthy text).
      * destruct (Hgrade text) as (sv' & -> & ? & ? & ? & ?).
        exists sv', Sleep. split; [reflexivity|]. split; [auto|].
        split; [auto|]. split; [auto|]. intros _. split; [auto|]. split; auto.
      * unfold_m. exists sv1, Sleep. split; [reflexivity|]. split; [auto|].
        split; [auto|]. split; [auto|]. intros _. split; [auto|]. split; auto.
    + unfold_m. exists sv1, Sleep. split; [reflexivity|]. split; [auto|].
      split; [auto|]. split; [auto|]. intros _. split; [auto|]. split; auto.
Qed.

Lemma loop_pass_effect cfg env sv sv' out :
  loop_pass cfg env sv = (sv', out) ->
  questions_df sv' = questions_df sv
  /\ log_extends sv sv'
  /\ (well_formed (state sv) -> well_formed (state sv'))
  /\ (forall c t, out = Returns c ->
        waiting_for_response (state sv') = true ->
        last_question_time (state sv') = Some t ->
        now_timeout env - t < minutes (QUESTION_INTERVAL_MINUTES cfg * 2)).
Proof.
  unfold loop_pass. unfold bind at 1.
  destruct (send_if_due cfg env sv) as [sv1 [[]|e]] eqn:Hs;
    apply send_if_due_effect in Hs as (Hq & Hl & Hw & _).
  - destruct (await_reply_effect cfg env sv1) as (sv2 & c & -> & Hq2 & Hl2 & Hw2 & Ht2).
    intros [= <- <-]. split; [congruence|].
    split; [eapply log_extends_trans; eauto|]. split; [auto|].
    intros c' t _ Hwait Hlast. destruct (Ht2 Hwait) as (_ & Heq & Hlt).
    apply Hlt. congruence.
  - intros [= <- <-]. split; [auto|]. split; [auto|]. split; [auto|].
    discriminate.
Qed.

(** The state of a first start is well formed. *)
Lemma fresh_state_well_formed cfg : well_formed (fresh_state cfg).
Proof. split; [split; simpl; lia|discriminate]. Qed.

(** So is the state of a start-up that resets the waiting fields, when the
    persisted buffers are within capacity. *)
Lemma startup_well_formed cfg rows subject reset_state fs sv :
  (forall st, state_file fs = Some (Document st) -> buffers_bounded st) ->
  (__init__ cfg (Returns rows) subject reset_state true fs).2 = Returns sv ->
  well_formed (state sv).
Proof.
  intros Hfile. unfold __init__. simpl. intros [= <-]. simpl.
  assert (Hloaded : well_formed
            (_load_state cfg true (if reset_state then reset_files fs else fs))).
  { unfold _load_state. destruct reset_state; simpl.
    - apply fresh_state_well_formed.
    - destruct (state_file fs) as [[|st]|] eqn:Hst;
        try apply fresh_state_well_formed.
      specialize (Hfile st eq_refl). split; [exact Hfile|discriminate]. }
  revert Hloaded. generalize (_load_state cfg true (if reset_state then reset_files fs else fs)).
  intros st Hwf. unfold discard_stale.
  destruct (recent_questions st) as [|x l] eqn:Hr; [exact Hwf|].
  destruct (_ <=? _); [|exact Hwf].
  unfold well_formed, buffers_bounded in *. simpl.
  destruct Hwf as [[_ Hs] Hw]. split; [split; [simpl; lia|exact Hs]|exact Hw].
Qed.

Lemma run_effect cfg envs : forall sv sv' out,
  run cfg envs sv = (sv', out) ->
  questions_df sv' = questions_df sv
  /\ log_extends sv sv'
  /\ (well_formed (state sv) -> well_formed (state sv')).
Proof.
  induction envs as [|env rest IH]; simpl; intros sv sv' out.
  - unfold ret. intros [= <- <-]. finish.
  - unfold bind at 1.
    destruct (loop_pass cfg env sv) as [sv1 [c|e]] eqn:Hp;
      apply loop_pass_effect in Hp as (Hq & Hl & Hw & _).
    + intros H. apply IH in H as (Hq' & Hl' & Hw').
      split; [congruence|]. split; [eapply log_extends_trans; eauto|auto].
    + intros [= <- <-]. auto.
Qed.



(** A buffer shorter than the bank leaves a candidate. *)
Lemma candidates_available sv :
  (length (recent_questions (state sv)) < length (questions_df sv))%nat ->
  candidates sv <> [].
Proof.
  intros Hlen Hnil. unfold candidates in Hnil.
  assert (Hall : forall x, x ∈ bank_indices (questions_df sv) ->
                           x ∈ recent_questions (state sv)).
  { intros x Hx. destruct (decide (x ∈ recent_questions (state sv))) as [|Hn]; [assumption|].
    assert (Hin : In x (List.filter
              (fun idx => negb (bool_decide (idx ∈ recent_questions (state sv))))
              (bank_indices (questions_df sv)))).
    { apply filter_In. split; [apply list_elem_of_In; exact Hx|].
      rewrite bool_decide_eq_false_2 by exact Hn. reflexivity. }
    rewrite Hnil in Hin. destruct Hin. }
  pose proof (submseteq_length _ _
    (NoDup_submseteq _ _ (bank_indices_NoDup (questions_df sv)) Hall)) as Hle.
  unfold bank_indices in Hle. rewrite length_fmap, length_seq in Hle. lia.
Qed.


(** C3: when the grader raises in a round that reaches it (the state holds
    a question and an answer), [_grade_and_send_feedback] returns normally:
    the exception is caught, the score ledger is as before, in memory and
    on disk, nothing is added to the progress log, and
    [waiting_for_response] is false.  So a pass of the loop in which the
    classifier yields a reply and the grader raises ends normally with the
    ledger unchanged and the service no longer waiting. *)
Theorem grading_failure_skips_round env user_response sv q a e
    (Hq : current_question (state sv) = Some q)
    (Ha : current_answer (state sv) = Some a)
    (Htq : truthy q = true) (Hta : truthy a = true)
    (Hraise : forall response, grade_response env response a q = Raises e) :
  (exists sv',
     _grade_and_send_feedback env user_response sv = (sv', Returns tt)
     /\ scores sv' = scores sv
     /\ scores_file (files sv') = scores_file (files sv)
     /\ progress sv' = progress sv
     /\ waiting_for_response (state sv') = false)
  /\ (forall cfg sv1 response,
        waiting_for_response (state sv) = true ->
        _check_for_response cfg env sv = (sv1, Returns (Some response)) ->
        truthy response = true ->
        exists sv' c,
          await_reply cfg env sv = (sv', Returns c)
          /\ scores sv' = scores sv
          /\ scores_file (files sv') = scores_file (files sv)
          /\ waiting_for_response (state sv') = false).
Proof.
  assert (Hmethod : forall response sv0,
    current_question (state sv0) = Some q ->
    current_answer (state sv0) = Some a ->
    exists sv',
     _grade_and_send_feedback env response sv0 = (sv', Returns tt)
     /\ scores sv' = scores sv0
     /\ scores_file (files sv') = scores_file (files sv0)
     /\ progress sv' = progress sv0
     /\ waiting_for_response (state sv') = false).
  { intros response sv0 Hq0 Ha0. unfold _grade_and_send_feedback. unfold_m.
    rewrite Hq0, Ha0, Htq, Hta. simpl. rewrite Hraise. simpl.
    eexists. split; [reflexivity|]. simpl. auto. }
  split; [apply Hmethod; assumption|].
  intros cfg sv1 response Hw Hcheck Htr.
  unfold await_reply. unfold bind at 1. unfold get at 1. rewrite Hw.
  destruct (match last_question_time (state sv) with
            | Some last_time => _ | None => false end).
  - unfold_m. eexists; eexists. split; [reflexivity|]. simpl. auto.
  - unfold bind at 1. rewrite Hcheck. rewrite Htr. unfold bind at 1.
    destruct (check_effect cfg env sv) as (ids & r & Hce & _).
    rewrite Hce in Hcheck. injection Hcheck as <- _.
    destruct (Hmethod response (with_state (set_sent_message_ids ids) sv) Hq Ha)
      as (sv' & -> & Hs & Hf & _ & Hwait).
    unfold ret. exists sv', Sleep. split; [reflexivity|]. auto.
Qed.

Lemma grading_failure_skips_round_witness :
  exists sv' c,
    await_reply cfg failing_grader_env waiting_service = (sv', Returns c)
    /\ scores sv' = scores waiting_service
    /\ waiting_for_response (state sv') = false.
Proof.
  destruct (grading_failure_skips_round failing_grader_env "Stars" waiting_service
              "What is a galaxy?" "A bound system of stars, gas and dark matter"
              "grader unavailable" eq_refl eq_refl eq_refl eq_refl
              (fun _ => eq_refl)) as [_ Hloop].
  destruct (Hloop cfg
             (with_state (set_sent_message_ids (Some ["q1"])) waiting_service)
             "Stars, gas and dust" eq_refl) as (sv' & c & H1 & H2 & _ & H3).
  - vm_compute. reflexivity.
  - reflexivity.
  - exists sv', c. auto.
Defined.

(** C7: a pass of the loop that finds the service waiting, with the last
    question sent at least twice the question interval before the clock
    reading of the time-out test, ends the wait: [waiting_for_response]
    becomes false, [sent_message_id] is cleared, the pass ends at the
    [continue] (no sleep), and the next pass finds a question due.  Hence
    no pass leaves the service waiting for a question sent twice the
    interval or more before that pass's reading of the clock. *)
Theorem waiting_times_out cfg env sv last
    (Hw : waiting_for_response (state sv) = true)
    (Hl : last_question_time (state sv) = Some last)
    (Ht : minutes (QUESTION_INTERVAL_MINUTES cfg * 2) <= now_timeout env - last) :
  (exists sv',
     loop_pass cfg env sv = (sv', Returns Continue)
     /\ waiting_for_response (state sv') = false
     /\ sent_message_id (state sv') = None
     /\ forall env', _should_send_new_question cfg env' (state sv') = true)
  /\ (forall sv0 sv1 c t,
        loop_pass cfg env sv0 = (sv1, Returns c) ->
        waiting_for_response (state sv1) = true ->
        last_question_time (state sv1) = Some t ->
        now_timeout env - t < minutes (QUESTION_INTERVAL_MINUTES cfg * 2)).
Proof.
  split.
  - unfold loop_pass, send_if_due, await_reply. unfold_m.
    rewrite Hw. simpl. rewrite Hw, Hl.
    destruct (Z.leb_spec (minutes (QUESTION_INTERVAL_MINUTES cfg * 2))
                (now_timeout env - last)) as [_|Hlt]; [|lia].
    eexists. split; [reflexivity|]. simpl.
    split; [reflexivity|]. split; [reflexivity|].
    intros env'. unfold _should_send_new_question. simpl. rewrite Hl. reflexivity.
  - intros sv0 sv1 c t Hpass Hwait Hlast.
    apply loop_pass_effect in Hpass as (_ & _ & _ & Htime). eauto.
Qed.

Lemma waiting_times_out_witness :
  exists sv',
    loop_pass cfg (offline 0 (minutes 21)) waiting_service = (sv', Returns Continue)
    /\ waiting_for_response (state sv') = false
    /\ sent_message_id (state sv') = None.
Proof.
  destruct (waiting_times_out cfg (offline 0 (minutes 21)) waiting_service 0
              eq_refl eq_refl) as [(sv' & H1 & H2 & H3 & _) _].
  - vm_compute. discriminate.
  - exists sv'. auto.
Defined.

(** C8: start-up with the reset flag removes the state file and the
    score-ledger file and leaves the progress-log file as it is (so does
    start-up without the flag); after start-up, whatever passes of the loop
    follow, the progress-log file is either still untouched or holds the
    log it held at start-up followed by further entries. *)
Theorem progress_log_never_cleared
    cfg csv subject reset_state reset_waiting fs envs :
  let started := __init__ cfg csv subject reset_state reset_waiting fs in
  progress_file started.1 = progress_file fs
  /\ (reset_state = true ->
      state_file started.1 = None /\ scores_file started.1 = None)
  /\ (forall sv0, started.2 = Returns sv0 ->
      progress_file (files (run cfg envs sv0).1) = progress_file fs
      \/ exists more,
           progress_file (files (run cfg envs sv0).1)
           = Some (Document (_load_progress fs ++ more)%list)).
Proof.
  unfold __init__. simpl.
  assert (Hreset : progress_file (if reset_state then reset_files fs else fs)
                   = progress_file fs) by (destruct reset_state; reflexivity).
  destruct csv as [rows|e]; simpl.
  - split; [exact Hreset|]. split.
    + intros ->. split; reflexivity.
    + intros sv0 Hsv0.
      assert (Hp0 : progress sv0 = _load_progress fs).
      { injection Hsv0 as <-. simpl. unfold _load_progress.
        rewrite Hreset. reflexivity. }
      assert (Hf0 : progress_file (files sv0) = progress_file fs).
      { injection Hsv0 as <-. exact Hreset. }
      clear Hsv0.
      destruct (run cfg envs sv0) as [sv' out] eqn:Hrun.
      apply run_effect in Hrun as (_ & Hlog & _). simpl.
      destruct Hlog as [[_ Hf]|(more & Hp & Hf)].
      * left. congruence.
      * right. exists more. congruence.
  - split; [exact Hreset|]. split.
    + intros ->. split; reflexivity.
    + intros sv0 [=].
Qed.

Lemma progress_log_never_cleared_witness :
  progress_file (__init__ cfg (Returns bank3) None true true used_files).1
  = Some (Document [old_entry])
  /\ state_file (__init__ cfg (Returns bank3) None true true used_files).1 = None.
Proof.
  pose proof (progress_log_never_cleared cfg (Returns bank3) None true true
                used_files []) as (H1 & H2 & _).
  split; [exact H1|]. exact (proj1 (H2 eq_refl)).
Defined.















End SchedulerFacts.

(** * Facts about the string operations *)

Module TextFacts.

Import Py.
#[local] Arguments String.append !_ _ : simpl nomatch.

Lemma append_assoc a b c : (a ++ b) ++ c = a ++ b ++ c.
Proof. induction a as [|x a IH]; simpl; congruence. Qed.

Lemma length_append a b :
  String.length (a ++ b) = (String.length a + String.length b)%nat.
Proof. induction a as [|x a IH]; simpl; congruence. Qed.

Lemma str_rev_onto_app s acc : str_rev_onto s acc = str_rev s ++ acc.
Proof.
  unfold str_rev. revert acc.
  induction s as [|c s IH]; intros acc; simpl; [reflexivity|].
  rewrite IH, (IH (String c "")). rewrite append_assoc. reflexivity.
Qed.

Lemma str_rev_cons c s : str_rev (String c s) = str_rev s ++ String c "".
Proof. unfold str_rev at 1. simpl. apply str_rev_onto_app. Qed.

Lemma append_empty_r s : s ++ "" = s.
Proof. induction s; simpl; congruence. Qed.

Lemma str_rev_app a b : str_rev (a ++ b) = str_rev b ++ str_rev a.
Proof.
  induction a as [|c a IH]; simpl.
  - rewrite append_empty_r. reflexivity.
  - rewrite !str_rev_cons, IH, append_assoc. reflexivity.
Qed.

Lemma str_rev_involutive s : str_rev (str_rev s) = s.
Proof.
  induction s as [|c s IH]; [reflexivity|].
  rewrite str_rev_cons, str_rev_app, IH. reflexivity.
Qed.

Lemma lstrip_not_blank s : starts_blank (lstrip s) = false.
Proof.
  induction s as [|c s IH]; simpl; [reflexivity|].
  destruct (isspace c) eqn:E; [exact IH|]. simpl. exact E.
Qed.

Lemma lstrip_id s : starts_blank s = false -> lstrip s = s.
Proof. destruct s as [|c s]; simpl; [reflexivity|]. intros ->. reflexivity. Qed.

Lemma lstrip_suffix s : exists p, s = p ++ lstrip s.
Proof.
  induction s as [|c s [p Hp]]; simpl.
  - exists "". reflexivity.
  - destruct (isspace c).
    + exists (String c p). simpl. congruence.
    + exists "". reflexivity.
Qed.

Lemma starts_blank_app a b : a <> "" -> starts_blank (a ++ b) = starts_blank a.
Proof. destruct a; [congruence|reflexivity]. Qed.

Lemma str_rev_empty s : str_rev s = "" -> s = "".
Proof.
  intros H. rewrite <- (str_rev_involutive s), H. reflexivity.
Qed.

Lemma lstrip_keeps_end s : ends_blank s = false -> ends_blank (lstrip s) = false.
Proof.
  unfold ends_blank. intros H.
  destruct (lstrip_suffix s) as [p Hp].
  destruct (lstrip s) as [|c t] eqn:E; [reflexivity|].
  rewrite Hp, str_rev_app, starts_blank_app in H; [exact H|].
  intros Hnil. apply str_rev_empty in Hnil. discriminate.
Qed.

Lemma strip_trimmed s : starts_blank (strip s) = false /\ ends_blank (strip s) = false.
Proof.
  unfold strip. split; [apply lstrip_not_blank|].
  apply lstrip_keeps_end. unfold ends_blank.
  rewrite str_rev_involutive. apply lstrip_not_blank.
Qed.

Lemma strip_id s : starts_blank s = false -> ends_blank s = false -> strip s = s.
Proof.
  unfold strip, ends_blank. intros Hs He.
  rewrite (lstrip_id (str_rev s)) by exact He.
  rewrite str_rev_involutive. apply lstrip_id. exact Hs.
Qed.

Lemma strip_idempotent s : strip (strip s) = strip s.
Proof. destruct (strip_trimmed s). apply strip_id; assumption. Qed.

Lemma prefix_app p r : String.prefix p (p ++ r) = true.
Proof.
  induction p as [|c p IH]; simpl; [destruct r; reflexivity|].
  destruct (ascii_dec c c); [exact IH|congruence].
Qed.

Lemma prefix_contains p s : String.prefix p s = true -> contains p s = true.
Proof.
  intros H. destruct s as [|c s].
  - change (contains p "") with (String.prefix p "" || false).
    rewrite H. reflexivity.
  - change (contains p (String c s))
      with (String.prefix p (String c s) || contains p s).
    rewrite H. reflexivity.
Qed.

Lemma lower_app a b : lower (a ++ b) = lower a ++ lower b.
Proof. induction a as [|c a IH]; simpl; congruence. Qed.

Lemma str_take_app a b n :
  (String.length a <= n)%nat ->
  str_take n (a ++ b) = a ++ str_take (n - String.length a) b.
Proof.
  revert n. induction a as [|c a IH]; intros n Hn; simpl in *.
  - rewrite Nat.sub_0_r. reflexivity.
  - destruct n as [|n]; [lia|]. simpl. rewrite IH by lia. reflexivity.
Qed.

End TextFacts.

(** * The mailbox: ordering, extraction and the classifier *)

Module MailFacts.

Import Py EmailService Scenario TextFacts.
#[local] Arguments String.append !_ _ : simpl nomatch.

Lemma insert_newest_perm m l : Permutation (insert_newest m l) (m :: l).
Proof.
  induction l as [|y l IH]; simpl; [reflexivity|].
  destruct (timestamp y <? timestamp m); [reflexivity|].
  rewrite IH. apply perm_swap.
Qed.

Lemma insert_newest_sorted m l :
  StronglySorted newer_or_equal l -> StronglySorted newer_or_equal (insert_newest m l).
Proof.
  induction 1 as [|y l Hs IH Hall]; simpl.
  - repeat constructor.
  - destruct (Z.ltb_spec (timestamp y) (timestamp m)) as [Hlt|Hge].
    + constructor; [constructor; assumption|].
      constructor; [unfold newer_or_equal; lia|].
      eapply Forall_impl; [exact Hall|]. unfold newer_or_equal. intros; simpl in *; lia.
    + constructor; [exact IH|].
      apply Forall_forall. intros x Hx.
      apply list_elem_of_In, (Permutation_in _ (insert_newest_perm m l)) in Hx.
      destruct Hx as [<-|Hx]; [exact Hge|].
      rewrite Forall_forall in Hall. apply Hall, list_elem_of_In. exact Hx.
Qed.

Lemma sort_newest_first_spec l :
  Permutation (sort_newest_first l) l
  /\ StronglySorted newer_or_equal (sort_newest_first l).
Proof.
  unfold sort_newest_first.
  assert (H : forall acc, StronglySorted newer_or_equal acc ->
    Permutation (fold_left (fun acc m => insert_newest m acc) l acc) (acc ++ l)%list
    /\ StronglySorted newer_or_equal
         (fold_left (fun acc m => insert_newest m acc) l acc)).
  { induction l as [|m l IH]; intros acc Hacc; simpl.
    - rewrite app_nil_r. split; [reflexivity|exact Hacc].
    - destruct (IH (insert_newest m acc) (insert_newest_sorted m acc Hacc)) as [Hp Hs].
      split; [|exact Hs]. rewrite Hp, insert_newest_perm.
      rewrite (Permutation_middle acc l m). reflexivity. }
  destruct (H [] (SSorted_nil _)) as [Hp Hs]. split; [exact Hp|exact Hs].
Qed.

(** X1.  [get_latest_message] returns a message of the thread that is not
    excluded and whose date no other such message exceeds; it returns
    [None] exactly when every message of the thread is excluded. *)
Theorem latest_message_is_newest_not_excluded svc thread exclude messages
    (Hthread : threads_get svc thread = Some messages) :
  exists r,
    get_latest_message svc thread exclude = Returns r
    /\ match r with
       | Some m =>
           m ∈ messages
           /\ (id m ∉ default [] exclude)
           /\ forall m', m' ∈ messages -> id m' ∉ default [] exclude ->
                         timestamp m' <= timestamp m
       | None => forall m', m' ∈ messages -> id m' ∈ default [] exclude
       end.
Proof.
  unfold get_latest_message, get_thread_messages. rewrite Hthread.
  eexists. split; [reflexivity|].
  destruct (sort_newest_first_spec messages) as [Hperm Hsorted].
  set (keep := fun m : Message => negb (bool_decide (id m ∈ default [] exclude))).
  assert (Hkeep : forall m, keep m = true <-> id m ∉ default [] exclude).
  { intros m. unfold keep. rewrite negb_true_iff, bool_decide_eq_false. reflexivity. }
  assert (Hin : forall m, m ∈ messages <-> In m (sort_newest_first messages)).
  { intros m. rewrite list_elem_of_In. split; apply Permutation_in;
      [symmetry|]; exact Hperm. }
  revert Hsorted Hin. generalize (sort_newest_first messages) as sorted.
  intros sorted Hsorted Hin.
  destruct (List.find keep sorted) as [m|] eqn:Hfind.
  - assert (Hgen : forall l, StronglySorted newer_or_equal l ->
              List.find keep l = Some m ->
              In m l /\ keep m = true
              /\ forall m', In m' l -> keep m' = true -> timestamp m' <= timestamp m).
    { clear. induction 1 as [|y l Hs IH Hall]; simpl; [discriminate|].
      destruct (keep y) eqn:Hy.
      - intros [= ->]. split; [auto|]. split; [exact Hy|].
        intros m' [<-|Hm'] _; [lia|].
        rewrite Forall_forall in Hall. apply Hall, list_elem_of_In. exact Hm'.
      - intros Hf. destruct (IH Hf) as (H1 & H2 & H3).
        split; [auto|]. split; [exact H2|].
        intros m' [<-|Hm'] Hk; [congruence|auto]. }
    destruct (Hgen sorted Hsorted Hfind) as (H1 & H2 & H3).
    split; [apply Hin; exact H1|]. split; [apply Hkeep; exact H2|].
    intros m' Hm' Hex. apply H3; [apply Hin; exact Hm'|apply Hkeep; exact Hex].
  - intros m' Hm'. apply Hin in Hm'.
    pose proof (find_none _ _ Hfind m' Hm') as Hk.
    destruct (decide (id m' ∈ default [] exclude)) as [|Hn]; [assumption|].
    apply Hkeep in Hn. congruence.
Qed.

Lemma latest_message_is_newest_not_excluded_witness :
  exists r,
    EmailService.get_latest_message (mailbox two_answers) "T" (Some ["r2"]) = Returns r
    /\ match r with
       | Some m =>
           m ∈ two_answers
           /\ (EmailService.id m ∉ default [] (Some ["r2"]))
           /\ forall m', m' ∈ two_answers ->
                EmailService.id m' ∉ default [] (Some ["r2"]) ->
                EmailService.timestamp m' <= EmailService.timestamp m
       | None => forall m', m' ∈ two_answers ->
                   EmailService.id m' ∈ default [] (Some ["r2"])
       end.
Proof.
  apply (latest_message_is_newest_not_excluded (mailbox two_answers) "T"
           (Some ["r2"]) two_answers).
  reflexivity.
Defined.

(** Soundness of the classifier *)
Lemma classify_message_sound cfg svc sent ts exclude m text :
  classify_message cfg svc sent ts exclude m = Some text ->
  (id m ∉ exclude)
  /\ 10000 <= timestamp m - ts
  /\ contains (lower (TARGET_EMAIL cfg)) (lower (from_header (headers m))) = true
  /\ existsb (fun keyword =>
               contains keyword (lower (str_take 200 (extract_message_text m))))
             feedback_keywords = false
  /\ text = clean_response (extract_message_text m)
  /\ (3 <= String.length text)%nat.
Proof.
  unfold classify_message.
  destruct (bool_decide (id m ∈ exclude)) eqn:Hex; [discriminate|].
  destruct (timestamp m - ts <=? buffer_ms); [discriminate|].
  destruct (contains _ (lower (from_header _))) eqn:Hfrom; cbn [negb]; [|discriminate].
  destruct (Z.ltb_spec (timestamp m - ts) 10000) as [|Hlate]; [discriminate|].
  destruct (existsb _ feedback_keywords) eqn:Hkw; [discriminate|].
  destruct (Nat.ltb_spec (String.length (clean_response (extract_message_text m))) 3)
    as [|Hlen]; [discriminate|].
  intros H.
  assert (Ht : text = clean_response (extract_message_text m)).
  { repeat case_match; congruence. }
  apply bool_decide_eq_false in Hex.
  subst text. repeat split; auto.
Qed.

Lemma check_for_response_sound cfg svc thread sent stamp exclude text
    (Hreturn : check_for_response cfg svc thread sent stamp exclude
               = Returns (Some text)) :
  exists messages m,
    threads_get svc thread = Some messages
    /\ m ∈ messages
    /\ id m <> sent
    /\ (id m ∉ default [] exclude)
    /\ 10000 <= timestamp m - resolve_sent_timestamp svc sent stamp
    /\ contains (lower (TARGET_EMAIL cfg)) (lower (from_header (headers m))) = true
    /\ existsb (fun keyword =>
                 contains keyword (lower (str_take 200 (extract_message_text m))))
               feedback_keywords = false
    /\ text = clean_response (extract_message_text m)
    /\ (3 <= String.length text)%nat
    /\ starts_blank text = false /\ ends_blank text = false.
Proof.
  revert Hreturn. unfold check_for_response, get_thread_messages.
  destruct (threads_get svc thread) as [messages|]; [|discriminate].
  intros [= Hfirst].
  apply ClassifierFacts.first_response_some in Hfirst as (pre & m & post & -> & _ & Hm).
  apply classify_message_sound in Hm as (Hex & Hlate & Hfrom & Hkw & -> & Hlen).
  exists (pre ++ m :: post)%list, m. split; [reflexivity|].
  split; [set_solver|].
  assert (Hlist : id m <> sent /\ id m ∉ default [] exclude).
  { unfold exclusion_list in Hex.
    destruct (bool_decide (sent ∈ default [] exclude)) eqn:Hs.
    - apply bool_decide_eq_true in Hs. split; [|exact Hex].
      intros E. apply Hex. rewrite E. exact Hs.
    - rewrite not_elem_of_app in Hex. destruct Hex as [H1 H2].
      split; [|exact H1]. intros E. apply H2. rewrite E. set_solver. }
  destruct Hlist. destruct (strip_trimmed
    (Re.collapse_blank (Re.drop_attribution (Re.drop_quoted (extract_message_text m))))).
  repeat split; auto.
Qed.

(** X2.  A text that [check_for_response] returns comes from a message of
    the thread that is neither the question sent nor excluded, arrived at
    least ten seconds after the question, is from the correspondent and
    shows none of the feedback keywords; the text is that message's
    cleaned body, has at least three characters and no blank at either
    end. *)
Theorem accepted_reply_is_genuine cfg svc thread sent stamp exclude text
    (Hreturn : check_for_response cfg svc thread sent stamp exclude
               = Returns (Some text)) :
  exists messages m,
    threads_get svc thread = Some messages
    /\ m ∈ messages
    /\ id m <> sent
    /\ (id m ∉ default [] exclude)
    /\ 10000 <= timestamp m - resolve_sent_timestamp svc sent stamp
    /\ contains (lower (TARGET_EMAIL cfg)) (lower (from_header (headers m))) = true
    /\ existsb (fun keyword =>
                 contains keyword (lower (str_take 200 (extract_message_text m))))
               feedback_keywords = false
    /\ text = clean_response (extract_message_text m)
    /\ (3 <= String.length text)%nat
    /\ starts_blank text = false /\ ends_blank text = false.
Proof.
  exact (check_for_response_sound _ _ _ _ _ _ _ Hreturn).
Qed.

Lemma accepted_reply_is_genuine_witness :
  exists messages m,
    EmailService.threads_get (mailbox two_answers) "T" = Some messages
    /\ m ∈ messages
    /\ EmailService.id m <> "q1"
    /\ (EmailService.id m ∉ default [] None)
    /\ 10000 <= EmailService.timestamp m
                - EmailService.resolve_sent_timestamp (mailbox two_answers) "q1" (Some 1000)
    /\ contains (lower (TARGET_EMAIL cfg))
         (lower (EmailService.from_header (EmailService.headers m))) = true
    /\ existsb (fun keyword =>
                 contains keyword
                   (lower (str_take 200 (EmailService.extract_message_text m))))
               EmailService.feedback_keywords = false
    /\ "Stars, gas and dust"
       = EmailService.clean_response (EmailService.extract_message_text m)
    /\ (3 <= String.length "Stars, gas and dust")%nat
    /\ starts_blank "Stars, gas and dust" = false
    /\ ends_blank "Stars, gas and dust" = false.
Proof.
  apply (accepted_reply_is_genuine cfg (mailbox two_answers) "T" "q1" (Some 1000) None
           "Stars, gas and dust").
  vm_compute. reflexivity.
Defined.

(** The service's own feedback is never read as a reply *)
Lemma feedback_message_head grade_result answer :
  exists rest,
    GradingService.format_feedback_message grade_result answer
    = "Your Score: " ++ rest.
Proof.
  unfold GradingService.format_feedback_message.
  destruct (default [] (GradingService.missing_points grade_result));
    destruct answer as [a|]; try destruct (truthy a);
    rewrite ?append_assoc; eexists; reflexivity.
Qed.

Lemma existsb_feedback p :
  contains "your score:" p = true ->
  existsb (fun keyword => contains keyword p) feedback_keywords = true.
Proof. intros H. simpl. rewrite H. rewrite !orb_true_r. reflexivity. Qed.

(** X3.  A message whose text is a feedback message of the service, as
    [format_feedback_message] writes it, is never taken for a reply. *)
Theorem feedback_echo_never_accepted cfg svc sent ts exclude m grade_result answer
    (Hecho : extract_message_text m
             = GradingService.format_feedback_message grade_result answer) :
  classify_message cfg svc sent ts exclude m = None.
Proof.
  destruct (feedback_message_head grade_result answer) as [rest Hhead].
  unfold classify_message. rewrite Hecho, Hhead.
  assert (Hkw : existsb (fun keyword =>
              contains keyword (lower (str_take 200 ("Your Score: " ++ rest))))
              feedback_keywords = true).
  { apply existsb_feedback.
    rewrite str_take_app by (simpl; lia). rewrite lower_app.
    apply prefix_contains.
    change (lower "Your Score: ") with ("your score:" ++ " ").
    rewrite append_assoc. apply prefix_app. }
  rewrite Hkw.
  repeat case_match; reflexivity.
Qed.

Lemma feedback_echo_never_accepted_witness :
  EmailService.classify_message cfg (mailbox []) "q1" 1000 []
    (reply "r3" 50000
       (GradingService.format_feedback_message fair_grade (Some "Stars")))
  = None.
Proof.
  apply (feedback_echo_never_accepted cfg (mailbox []) "q1" 1000 [] _ fair_grade
           (Some "Stars")).
  reflexivity.
Defined.

(** Echo of the question *)
Lemma common_all qs rs :
  (forall w, w ∈ qs -> w ∈ rs) -> common qs rs = distinct qs.
Proof.
  intros H. unfold common.
  assert (Hd : forall w, In w (distinct qs) -> w ∈ rs).
  { intros w Hw. apply H. unfold distinct in Hw.
    apply list_elem_of_In in Hw. rewrite elem_of_remove_dups in Hw. exact Hw. }
  revert Hd. generalize (distinct qs) as l.
  induction l as [|w l IH]; intros Hd; simpl; [reflexivity|].
  rewrite bool_decide_eq_true_2 by (apply Hd; left; reflexivity).
  f_equal. apply IH. intros v Hv. apply Hd. right. exact Hv.
Qed.

Lemma common_none qs rs :
  (forall w, w ∈ qs -> w ∉ rs) -> common qs rs = [].
Proof.
  intros H. unfold common.
  assert (Hd : forall w, In w (distinct qs) -> w ∉ rs).
  { intros w Hw. apply H. unfold distinct in Hw.
    apply list_elem_of_In in Hw. rewrite elem_of_remove_dups in Hw. exact Hw. }
  revert Hd. generalize (distinct qs) as l.
  induction l as [|w l IH]; intros Hd; simpl; [reflexivity|].
  rewrite bool_decide_eq_false_2 by (apply Hd; left; reflexivity).
  apply IH. intros v Hv. apply Hd. right. exact Hv.
Qed.

Lemma distinct_NoDup_id (l : list string) : NoDup l -> distinct l = l.
Proof.
  unfold distinct. induction 1 as [|x l Hx Hnd IH]; simpl; [reflexivity|].
  destruct (decide_rel elem_of x l) as [Hin|_]; [contradiction|]. congruence.
Qed.

Lemma mostly_question_all question_text response_text :
  List.firstn 10 (split_ws (lower question_text)) <> [] ->
  (forall w, w ∈ List.firstn 10 (split_ws (lower question_text)) ->
             w ∈ split_ws (lower response_text)) ->
  mostly_question question_text response_text = true.
Proof.
  intros Hne Hall. unfold mostly_question.
  set (qs := List.firstn 10 (split_ws (lower question_text))) in *.
  rewrite common_all.
  2:{ intros w Hw. apply Hall. unfold distinct in Hw.
      rewrite elem_of_remove_dups in Hw. exact Hw. }
  rewrite (distinct_NoDup_id (distinct qs)) by apply NoDup_remove_dups.
  assert (Hpos : (0 < List.length (distinct qs))%nat).
  { destruct qs as [|w qs']; [congruence|].
    assert (Hw : w ∈ distinct (w :: qs'))
      by (apply elem_of_remove_dups; left).
    destruct (distinct (w :: qs')); [inversion Hw|simpl; lia]. }
  apply Z.ltb_lt. lia.
Qed.

Lemma mostly_question_none question_text response_text :
  (forall w, w ∈ List.firstn 10 (split_ws (lower question_text)) ->
             w ∉ split_ws (lower response_text)) ->
  mostly_question question_text response_text = false.
Proof.
  intros Hnone. unfold mostly_question.
  rewrite common_none.
  2:{ intros w Hw. apply Hnone. unfold distinct in Hw.
      rewrite elem_of_remove_dups in Hw. exact Hw. }
  apply Z.ltb_ge. simpl. lia.
Qed.

(** X4.  A message whose cleaned text holds every one of the first ten words
    of the question sent, a question of more than ten characters, is
    never taken for a reply. *)
Theorem question_echo_never_accepted cfg svc sent ts exclude m sent_msg
    (Hsent : truthy sent = true)
    (Hget : messages_get svc sent = Some sent_msg)
    (Hlong : (10 < String.length (extract_message_text sent_msg))%nat)
    (Hwords : List.firstn 10 (split_ws (lower (extract_message_text sent_msg))) <> [])
    (Hecho : forall w,
        w ∈ List.firstn 10 (split_ws (lower (extract_message_text sent_msg))) ->
        w ∈ split_ws (lower (clean_response (extract_message_text m)))) :
  classify_message cfg svc sent ts exclude m = None.
Proof.
  unfold classify_message. rewrite Hsent, Hget.
  rewrite (mostly_question_all _ _ Hwords Hecho).
  assert (Ht : truthy (extract_message_text sent_msg) = true)
    by (destruct (extract_message_text sent_msg); [simpl in Hlong; lia|reflexivity]).
  rewrite Ht. apply Nat.ltb_lt in Hlong. rewrite Hlong. cbn [andb].
  destruct (bool_decide _); [reflexivity|].
  destruct (_ <=? buffer_ms); [reflexivity|].
  destruct (contains _ _); cbn [negb]; [|reflexivity].
  destruct (_ <? 10000); [reflexivity|].
  destruct (existsb _ _); [reflexivity|].
  destruct (_ <? 3)%nat; reflexivity.
Qed.

Lemma question_echo_never_accepted_witness :
  EmailService.classify_message cfg (mailbox []) "q1" 1000 []
    (reply "r4" 50000 "What is a galaxy made of, mostly?")
  = None.
Proof.
  apply (question_echo_never_accepted cfg (mailbox []) "q1" 1000 [] _ sent_question).
  - reflexivity.
  - reflexivity.
  - vm_compute. lia.
  - vm_compute. discriminate.
  - intros w Hw. vm_compute in Hw. vm_compute. exact Hw.
Defined.

(** A plain one-line reply *)
Lemma drop_quoted_plain s :
  free_of nl s = true -> Re.drop_quoted_from s false false = s.
Proof.
  induction s as [|c s IH]; simpl; [reflexivity|].
  intros H. apply andb_true_iff in H as [Hc Hs].
  apply negb_true_iff in Hc. rewrite Hc. simpl. rewrite IH by exact Hs. reflexivity.
Qed.

Lemma drop_quoted_line s :
  free_of nl s = true -> String.prefix ">" s = false -> Re.drop_quoted s = s.
Proof.
  unfold Re.drop_quoted. destruct s as [|c s]; [reflexivity|].
  simpl. intros H Hp. apply andb_true_iff in H as [Hc Hs].
  apply negb_true_iff in Hc. rewrite Hc.
  destruct (Ascii.eqb c ">") eqn:E.
  - apply Ascii.eqb_eq in E. subst c.
    destruct (ascii_dec ">" ">") as [_|n]; [|congruence].
    destruct s; discriminate.
  - rewrite drop_quoted_plain by exact Hs. reflexivity.
Qed.

Lemma contains_cons sub c s :
  contains sub (String c s) = false -> contains sub s = false.
Proof.
  change (contains sub (String c s))
    with (String.prefix sub (String c s) || contains sub s).
  intros H. apply orb_false_iff in H. tauto.
Qed.

Lemma contains_str_drop sub n s :
  contains sub s = false -> contains sub (str_drop n s) = false.
Proof.
  revert s. induction n as [|n IH]; intros s H; [destruct s; exact H|].
  destruct s as [|c s]; [exact H|]. simpl. apply IH. eapply contains_cons, H.
Qed.

Lemma drop_attribution_plain s :
  contains " wrote:" s = false -> Re.drop_attribution s = s.
Proof.
  induction s as [|c s IH]; [reflexivity|].
  intros H. unfold Re.drop_attribution; fold Re.drop_attribution.
  rewrite (contains_str_drop _ 4 _ H), andb_false_r.
  rewrite IH by (eapply contains_cons, H). reflexivity.
Qed.

Lemma collapse_blank_plain s :
  free_of nl s = true -> Re.collapse_blank s = s.
Proof.
  unfold Re.collapse_blank.
  induction s as [|c s IH]; simpl; [reflexivity|].
  intros H. apply andb_true_iff in H as [Hc Hs].
  apply negb_true_iff in Hc. rewrite Hc, IH by exact Hs. reflexivity.
Qed.

(** X5.  A one-line text that is not a quotation and holds no attribution
    comes out of the clean-up with its surrounding blanks removed and is
    otherwise unchanged; when such a message is accepted, that is the
    reply. *)
Theorem plain_reply_kept cfg svc sent ts exclude m
    (Hline : free_of nl (extract_message_text m) = true)
    (Hquote : String.prefix ">" (extract_message_text m) = false)
    (Hwrote : contains " wrote:" (extract_message_text m) = false) :
  clean_response (extract_message_text m) = strip (extract_message_text m)
  /\ forall text,
       classify_message cfg svc sent ts exclude m = Some text ->
       text = strip (extract_message_text m).
Proof.
  assert (Hclean : clean_response (extract_message_text m)
                   = strip (extract_message_text m)).
  { unfold clean_response.
    rewrite drop_quoted_line, drop_attribution_plain, collapse_blank_plain;
      auto. }
  split; [exact Hclean|].
  intros text Hacc. apply classify_message_sound in Hacc as (_ & _ & _ & _ & -> & _).
  exact Hclean.
Qed.

Lemma plain_reply_kept_witness :
  EmailService.clean_response
    (EmailService.extract_message_text (reply "r1" 21000 "  Stars, gas and dust "))
  = strip (EmailService.extract_message_text (reply "r1" 21000 "  Stars, gas and dust "))
  /\ forall text,
       EmailService.classify_message cfg (mailbox []) "q1" 1000 []
         (reply "r1" 21000 "  Stars, gas and dust ") = Some text ->
       text = strip (EmailService.extract_message_text
                       (reply "r1" 21000 "  Stars, gas and dust ")).
Proof.
  apply (plain_reply_kept cfg (mailbox []) "q1" 1000 []
           (reply "r1" 21000 "  Stars, gas and dust "));
    reflexivity.
Defined.

(** Body extraction *)
Lemma Part_induction (P : Part -> Prop) :
  (forall mime data parts, Forall P parts -> P (MkPart mime data parts)) ->
  forall p, P p.
Proof.
  intros H. fix IH 1. intros [mime data parts]. apply H.
  revert parts. fix IHl 1. intros [|sub rest].
  - constructor.
  - constructor; [apply IH|apply IHl].
Qed.

(** X6.  A non-empty text that [extract_from_part] returns is that of one of
    the text-bearing parts below the part given: the data of a
    plain-text part or the data, without tags, of an HTML part. *)
Theorem extracted_text_is_a_leaf p
    (Hsome : extract_from_part p <> "") :
  extract_from_part p ∈ leaf_texts p.
Proof.
  revert Hsome. induction p as [mime data parts IH] using Part_induction.
  assert (Hparts :
    forall ps, Forall (fun p => extract_from_part p <> "" ->
                                extract_from_part p ∈ leaf_texts p) ps ->
    let first := (fix first_text (ps : list Part) : string :=
           match ps with
           | [] => ""
           | sub :: ps' =>
               let text := extract_from_part sub in
               if truthy text then text else first_text ps'
           end) ps in
    let all := (fix all_texts (ps : list Part) : list string :=
           match ps with
           | [] => []
           | sub :: ps' => (leaf_texts sub ++ all_texts ps')%list
           end) ps in
    first <> "" -> first ∈ all).
  { induction 1 as [|sub rest Hsub Hrest IHr]; simpl; [congruence|].
    destruct (extract_from_part sub) as [|c t] eqn:E; simpl.
    - intros Hne. apply elem_of_app. right. apply IHr. exact Hne.
    - intros _. apply elem_of_app. left. apply Hsub. discriminate. }
  specialize (Hparts parts IH). simpl in Hparts.
  simpl. repeat case_match; intros Hne; subst;
    try (apply Hparts; exact Hne);
    try (left; fail);
    try (right; apply Hparts; exact Hne).
Qed.

Lemma extracted_text_is_a_leaf_witness :
  EmailService.extract_from_part two_parts ∈ EmailService.leaf_texts two_parts.
Proof.
  apply (extracted_text_is_a_leaf two_parts). vm_compute. discriminate.
Defined.

End MailFacts.

(** * Sending a question *)

Module SendFacts.

Import Py Scenario TextFacts.
#[local] Arguments String.append !_ _ : simpl nomatch.
Import EmailService.

Lemma strip_empty : strip "" = "".
Proof. reflexivity. Qed.

(** X7.  [send_question] addresses the correspondent with the question as the
    text; the request carries a thread id, then without blanks around it
    and not empty, and the subject its reply mark, exactly when the
    thread id given, or else the configured one, is not blank. *)
Theorem send_question_threads_only_on_a_real_id cfg out question thread_id subject :
  let given := default (EMAIL_THREAD_ID cfg) thread_id in
  let title := default (EMAIL_SUBJECT cfg) subject in
  exists request,
    send_question cfg out question thread_id subject
    = wrap "Error sending email: " (messages_send out request)
    /\ rq_to request = TARGET_EMAIL cfg
    /\ rq_text request = question
    /\ (if truthy (strip given)
        then rq_threadId request = Some (strip given)
             /\ rq_subject request = "Re: " ++ title
        else rq_threadId request = None /\ rq_subject request = title)
    /\ forall t, rq_threadId request = Some t ->
         truthy t = true /\ starts_blank t = false /\ ends_blank t = false.
Proof.
  intros given title. unfold send_question. fold given. fold title.
  eexists. split; [reflexivity|]. simpl.
  split; [reflexivity|]. split; [reflexivity|].
  destruct (truthy given) eqn:Hg; simpl.
  - destruct (truthy (strip given)) eqn:Hs; simpl.
    + rewrite strip_idempotent, Hs. simpl. split; [auto|].
      intros t [= <-]. destruct (strip_trimmed given). auto.
    + split; [auto|]. discriminate.
  - destruct given; [|discriminate]. simpl. split; [auto|]. discriminate.
Qed.

End SendFacts.

(** * The grader: completed results and the choice of the model *)

Module ModelFacts.

Import Py Scenario TextFacts.
#[local] Arguments String.append !_ _ : simpl nomatch.
Import GradingService.

Lemma has_key_append key fields more :
  has_key key (fields ++ more)%list = has_key key fields || has_key key more.
Proof.
  induction fields as [|[k v] rest IH]; simpl; [reflexivity|].
  rewrite IH. apply orb_assoc.
Qed.

Lemma fill_default_object key v fields :
  fill_default key v (JObj fields) = Returns (JObj (fields ++ missing key v fields)%list).
Proof.
  unfold fill_default, missing. simpl.
  destruct (has_key key fields); simpl; [rewrite app_nil_r|]; reflexivity.
Qed.

Lemma has_key_missing key' key v fields :
  has_key key' (missing key v fields) = true ->
  key' = key /\ has_key key fields = false.
Proof.
  unfold missing. destruct (has_key key fields); simpl; [discriminate|].
  rewrite orb_false_r. intros H. apply String.eqb_eq in H. auto.
Qed.

Lemma has_key_filled key v fields :
  has_key key (fields ++ missing key v fields)%list = true.
Proof.
  rewrite has_key_append. unfold missing.
  destruct (has_key key fields) eqn:E; simpl; [reflexivity|].
  rewrite String.eqb_refl. reflexivity.
Qed.

(** X8.  When the model's reply parses to an object, [grade_response] returns
    that object with entries added behind it for those of the three keys
    that it lacks, and for those only: the result has all three keys, and
    a complete object is returned as it is. *)
Theorem parsed_object_is_completed g sheet response answer question text fields
    (Hgen : generate_content g
              {| p_question := question; p_correct_answer := answer;
                 p_user_response := response;
                 p_context := context_section sheet |} = Returns text)
    (Hparse : json_loads g (unfence (strip text)) = Returns (JObj fields)) :
  exists more,
    grade_response g sheet response answer question = JObj (fields ++ more)%list
    /\ has_key "score" (fields ++ more)%list = true
    /\ has_key "feedback" (fields ++ more)%list = true
    /\ has_key "missing_points" (fields ++ more)%list = true
    /\ (forall key, has_key key more = true -> has_key key fields = false)
    /\ (has_key "score" fields = true -> has_key "feedback" fields = true ->
        has_key "missing_points" fields = true -> more = []).
Proof.
  unfold grade_response, graded. rewrite Hgen, Hparse.
  rewrite !fill_default_object.
  set (m1 := missing "score" (JNum 50) fields).
  set (f1 := (fields ++ m1)%list).
  set (m2 := missing "feedback" (JStr "Unable to generate detailed feedback.") f1).
  set (f2 := (f1 ++ m2)%list).
  set (m3 := missing "missing_points" (JArr []) f2).
  exists (m1 ++ m2 ++ m3)%list.
  assert (H1 : has_key "score" f1 = true) by apply has_key_filled.
  assert (H2 : has_key "feedback" f2 = true) by apply has_key_filled.
  assert (H3 : has_key "missing_points" (f2 ++ m3)%list = true)
    by apply has_key_filled.
  assert (Heq : (f2 ++ m3 = fields ++ m1 ++ m2 ++ m3)%list).
  { subst f2 f1. rewrite <- !app_assoc. reflexivity. }
  rewrite <- Heq. split; [reflexivity|].
  split; [subst f2; rewrite !has_key_append, H1; reflexivity|].
  split; [rewrite has_key_append, H2; reflexivity|].
  split; [exact H3|]. split.
  - intros key Hk. rewrite !has_key_append in Hk.
    apply orb_true_iff in Hk as [Hk|Hk];
      [|apply orb_true_iff in Hk as [Hk|Hk]];
      apply has_key_missing in Hk as [-> Hk]; [exact Hk| |].
    + subst f1. rewrite has_key_append in Hk. apply orb_false_iff in Hk. tauto.
    + subst f2 f1. rewrite !has_key_append in Hk.
      apply orb_false_iff in Hk as [Hk _]. apply orb_false_iff in Hk. tauto.
  - intros K1 K2 K3. subst m3 f2 m2 f1 m1. unfold missing.
    rewrite K1. rewrite app_nil_r, K2, app_nil_r, K3. reflexivity.
Qed.

Lemma parsed_object_is_completed_witness :
  exists more,
    GradingService.grade_response score_grader None "Stars" "Stars and gas"
      "What is a galaxy?"
    = GradingService.JObj ([("score", GradingService.JNum 90)] ++ more)%list
    /\ GradingService.has_key "score" ([("score", GradingService.JNum 90)] ++ more)%list
       = true
    /\ GradingService.has_key "feedback"
         ([("score", GradingService.JNum 90)] ++ more)%list = true
    /\ GradingService.has_key "missing_points"
         ([("score", GradingService.JNum 90)] ++ more)%list = true
    /\ (forall key, GradingService.has_key key more = true ->
          GradingService.has_key key [("score", GradingService.JNum 90)] = false)
    /\ (GradingService.has_key "score" [("score", GradingService.JNum 90)] = true ->
        GradingService.has_key "feedback" [("score", GradingService.JNum 90)] = true ->
        GradingService.has_key "missing_points" [("score", GradingService.JNum 90)] = true ->
        more = []).
Proof.
  apply (parsed_object_is_completed score_grader None "Stars" "Stars and gas"
           "What is a galaxy?" score_reply).
  - reflexivity.
  - vm_compute. reflexivity.
Defined.

Lemma first_built_some api preferred available m :
  first_built api preferred available = Some m ->
  GenerativeModel api m = true
  /\ exists a, a ∈ available /\ matches preferred (clean a) = true
               /\ (m = a \/ m = clean a).
Proof.
  induction available as [|a rest IH]; simpl; [discriminate|].
  fold (clean a).
  destruct (matches preferred (clean a)) eqn:Hm.
  - destruct (GenerativeModel api a) eqn:Hfull.
    + intros [= <-]. split; [exact Hfull|]. exists a. split; [left|auto].
    + destruct (GenerativeModel api (clean a)) eqn:Hclean.
      * intros [= <-]. split; [exact Hclean|]. exists a. split; [left|auto].
      * intros H. destruct (IH H) as (? & a' & ? & ? & ?).
        split; [assumption|]. exists a'. split; [right; assumption|auto].
  - intros H. destruct (IH H) as (? & a' & ? & ? & ?).
    split; [assumption|]. exists a'. split; [right; assumption|auto].
Qed.

Lemma first_built_none api preferred available :
  first_built api preferred available = None -> ~ buildable api preferred available.
Proof.
  induction available as [|a rest IH]; simpl.
  - intros _ (a & Ha & _). inversion Ha.
  - fold (clean a). intros H (a' & Ha' & Hm & Hb).
    apply elem_of_cons in Ha' as [->|Ha'].
    + rewrite Hm in H. destruct Hb as [Hb|Hb]; rewrite Hb in H; [discriminate|].
      destruct (GenerativeModel api a); discriminate.
    + apply IH; [|exists a'; auto].
      destruct (matches preferred (clean a)); [|exact H].
      destruct (GenerativeModel api a); [discriminate|].
      destruct (GenerativeModel api (clean a)); [discriminate|exact H].
Qed.

Lemma first_built_buildable api preferred available :
  buildable api preferred available ->
  exists m, first_built api preferred available = Some m.
Proof.
  intros Hb. destruct (first_built api preferred available) eqn:E; [eauto|].
  exfalso. eapply first_built_none; eauto.
Qed.

Lemma first_preferred_some api names available m :
  first_preferred api names available = Some m -> GenerativeModel api m = true.
Proof.
  induction names as [|n rest IH]; simpl; [discriminate|].
  destruct (first_built api n available) eqn:E.
  - intros [= <-]. apply first_built_some in E. tauto.
  - exact IH.
Qed.

Lemma first_preferred_order api before name after available :
  (forall n, n ∈ before -> ~ buildable api n available) ->
  buildable api name available ->
  first_preferred api (before ++ name :: after)%list available
  = first_built api name available.
Proof.
  intros Hbefore Hname. induction before as [|n rest IH]; simpl.
  - destruct (first_built_buildable _ _ _ Hname) as [m ->]. reflexivity.
  - destruct (first_built api n available) eqn:E.
    + exfalso. apply (Hbefore n); [left|].
      apply first_built_some in E as (Hb & a & Ha & Hm & [->| ->]).
      * exists a. auto.
      * exists a. auto.
    + apply IH. intros n' Hn'. apply Hbefore. right. exact Hn'.
Qed.

(** X9.  The model name [GradingService.__init__] settles on is one under
    which a model could be built; it raises only without an API key or
    when none of the three common models can be built, and with a key and
    one of those buildable it returns. *)
Theorem chosen_model_was_built api key :
  (forall name, __init__ api key = Returns name -> GenerativeModel api name = true)
  /\ (forall e, __init__ api key = Raises e ->
       truthy key = false
       \/ forall name, name ∈ common_models -> GenerativeModel api name = false)
  /\ (truthy key = true ->
      (exists name, name ∈ common_models /\ GenerativeModel api name = true) ->
      exists name, __init__ api key = Returns name).
Proof.
  unfold __init__.
  assert (Hlisting : forall m, from_listing api = Some m -> GenerativeModel api m = true).
  { unfold from_listing. intros m.
    destruct (list_models api) as [all|]; [|discriminate].
    destruct (first_preferred api preferred_models (generating all)) eqn:E.
    - intros [= <-]. eapply first_preferred_some; eauto.
    - destruct (generating all) as [|a rest]; [discriminate|].
      destruct (GenerativeModel api a) eqn:Ha; [|discriminate].
      intros [= <-]. exact Ha. }
  destruct (truthy key); cbn [negb].
  2:{ split; [discriminate|]. split; [auto|discriminate]. }
  destruct (from_listing api) as [m|] eqn:Hfrom.
  { split; [intros name [= <-]; auto|]. split; [discriminate|eauto]. }
  destruct (List.find (GenerativeModel api) common_models) as [m|] eqn:Hfind.
  - split; [intros name [= <-]; apply find_some in Hfind; tauto|].
    split; [discriminate|eauto].
  - split; [discriminate|]. split.
    + intros e _. right. intros name Hname.
      apply (find_none _ _ Hfind). apply list_elem_of_In. exact Hname.
    + intros _ (name & Hname & Hb).
      rewrite (find_none _ _ Hfind name) in Hb; [discriminate|].
      apply list_elem_of_In. exact Hname.
Qed.

(** X10.  With a key and a listing, the model chosen is a listed generating
    model that matches the first name of the preference list for which a
    matching listed model can be built, whatever the order of the
    listing. *)
Theorem preferred_model_order_is_kept api key all_models before name after
    (Hkey : truthy key = true)
    (Hlist : list_models api = Returns all_models)
    (Hsplit : preferred_models = (before ++ name :: after)%list)
    (Hbefore : forall n, n ∈ before -> ~ buildable api n (generating all_models))
    (Hname : buildable api name (generating all_models)) :
  exists a,
    a ∈ generating all_models
    /\ matches name (clean a) = true
    /\ (__init__ api key = Returns a \/ __init__ api key = Returns (clean a)).
Proof.
  unfold __init__, from_listing. rewrite Hkey, Hlist, Hsplit. cbn [negb].
  rewrite (first_preferred_order _ _ _ _ _ Hbefore Hname).
  destruct (first_built_buildable _ _ _ Hname) as [m Hm]. rewrite Hm.
  apply first_built_some in Hm as (_ & a & Ha & Hmatch & [->| ->]);
    exists a; auto.
Qed.

Lemma preferred_model_order_is_kept_witness :
  exists a,
    a ∈ GradingService.generating
          [("models/gemini-2.5-flash", ["generateContent"]);
           ("models/gemini-flash-lite-latest", ["generateContent"]);
           ("models/embedding-001", ["embedContent"])]
    /\ GradingService.matches "gemini-flash-lite-latest" (GradingService.clean a) = true
    /\ (GradingService.__init__ two_models "key" = Returns a
        \/ GradingService.__init__ two_models "key" = Returns (GradingService.clean a)).
Proof.
  apply (preferred_model_order_is_kept two_models "key" _ []
           "gemini-flash-lite-latest"
           ["gemini-flash-lite"; "gemini-2.0-flash-lite";
            "gemini-2.5-flash-lite"; "gemini-flash-latest"; "gemini-2.0-flash";
            "gemini-2.5-flash"; "gemini-1.5-flash"; "gemini-pro-latest";
            "gemini-1.5-pro"; "gemini-pro"]).
  - reflexivity.
  - reflexivity.
  - reflexivity.
  - intros n Hn. inversion Hn.
  - exists "models/gemini-flash-lite-latest". split.
    + vm_compute. right. left.
    + split; [vm_compute; reflexivity|]. left. reflexivity.
Defined.

End ModelFacts.

(** * The service: selection, delivery, grading, and what a run keeps *)

Module ServiceFacts.

Import Py QuizService Scenario TextFacts SelectorFacts SchedulerFacts.
Local Close Scope string_scope.

(** The generator of the fixtures keeps its promise. *)
Lemma first_entry_sound messages now : sound (online messages now).
Proof.
  intros d Hne. simpl. unfold first_entry.
  destruct (population d); [congruence|]. simpl. left.
Qed.

Lemma mail_down_sound now : sound (mail_down now).
Proof.
  intros d Hne. simpl. unfold first_entry.
  destruct (population d); [congruence|]. simpl. left.
Qed.

Lemma selection_draw_pool sv :
  questions_df sv <> [] ->
  exists d sv1,
    selection_draw sv = (sv1, Returns d)
    /\ (sv1 = sv \/ sv1 = with_state (set_recent_questions []) sv)
    /\ population d <> []
    /\ (forall x, x ∈ population d -> x ∈ pool sv)
    /\ (forall x c, x ∈ population d -> c ∈ pool sv ->
          unanswered (scores sv) c = true -> unanswered (scores sv) x = true).
Proof.
  intros Hbank. unfold selection_draw. unfold_m. cbv beta.
  fold (candidates sv). unfold pool.
  assert (Hall : bank_indices (questions_df sv) <> []).
  { unfold bank_indices. destruct (questions_df sv); [congruence|discriminate]. }
  assert (Hgen : forall available (sv1 : Service), available <> [] ->
    exists d,
      match List.filter (unanswered (scores sv)) available with
      | [] =>
          if negb (Qle_bool (sumQ (map (weight (scores sv)) available)) 0)
          then fun sv0 : Service =>
                 (sv0, Returns (Choices available
                    (map (fun w => (w / sumQ (map (weight (scores sv)) available))%Q)
                       (map (weight (scores sv)) available))))
          else match map (weight (scores sv)) available with
               | [] => fun sv0 : Service => (sv0, Raises "float division by zero"%string)
               | _ :: _ =>
                   fun sv0 : Service =>
                     (sv0, Returns (Choices available
                        (repeat (1 / inject_Z (Z.of_nat
                                   (length (map (weight (scores sv)) available))))%Q
                           (length (map (weight (scores sv)) available)))))
               end
      | _ :: _ => fun sv0 : Service =>
          (sv0, Returns (Choice (List.filter (unanswered (scores sv)) available)))
      end sv1 = (sv1, Returns d)
      /\ population d <> []
      /\ (forall x, x ∈ population d -> x ∈ available)
      /\ (forall x c, x ∈ population d -> c ∈ available ->
            unanswered (scores sv) c = true -> unanswered (scores sv) x = true)).
  { intros available sv1 Hne.
    destruct (List.filter (unanswered (scores sv)) available) as [|u us] eqn:Hu.
    - pose proof (sum_weights_positive (scores sv) available Hne) as Hpos.
      destruct (Qle_bool (sumQ (map (weight (scores sv)) available)) 0) eqn:E.
      + apply Qle_bool_iff in E. exfalso. eapply Qlt_not_le; eauto.
      + simpl. eexists. split; [reflexivity|]. simpl. split; [exact Hne|].
        split; [auto|]. intros x c _ Hc Hun. exfalso.
        assert (Hin : In c (List.filter (unanswered (scores sv)) available))
          by (apply filter_In; split; [apply list_elem_of_In; exact Hc|exact Hun]).
        rewrite Hu in Hin. destruct Hin.
    - eexists. split; [reflexivity|]. simpl. split; [discriminate|].
      rewrite <- Hu. split.
      + intros x Hx. apply list_elem_of_In, filter_In in Hx as [Hx _].
        apply list_elem_of_In. exact Hx.
      + intros x c Hx _ _. apply list_elem_of_In, filter_In in Hx as [_ Hx].
        exact Hx. }
  destruct (candidates sv) as [|c cs] eqn:Hc.
  - destruct (Hgen (bank_indices (questions_df sv))
                (with_state (set_recent_questions []) sv) Hall) as (d & Hd & H1 & H2 & H3).
    exists d, (with_state (set_recent_questions []) sv).
    split; [exact Hd|]. split; [auto|]. split; [exact H1|]. split; [exact H2|exact H3].
  - destruct (Hgen (c :: cs) sv) as (d & Hd & H1 & H2 & H3); [discriminate|].
    exists d, sv. split; [exact Hd|]. split; [auto|]. split; [exact H1|].
    split; [exact H2|exact H3].
Qed.

Lemma pool_in_bank sv x : x ∈ pool sv -> x ∈ bank_indices (questions_df sv).
Proof.
  unfold pool. destruct (candidates sv) eqn:E; [auto|].
  rewrite <- E. apply candidates_in_bank.
Qed.

Lemma selection_sound env sv :
  sound env -> questions_df sv <> [] ->
  exists sv' q,
    _select_random_question env sv = (sv', Returns q)
    /\ index q ∈ pool sv
    /\ loc (questions_df sv) (index q) = Some (question q, answer q)
    /\ (forall c, c ∈ pool sv -> unanswered (scores sv) c = true ->
                  unanswered (scores sv) (index q) = true).
Proof.
  intros Hsound Hbank.
  destruct (selection_draw_pool sv Hbank) as (d & sv1 & Hd & Hsv1 & Hne & Hin & Hun).
  specialize (Hsound d Hne).
  unfold _select_random_question. unfold bind at 1. rewrite Hd. unfold_m.
  assert (Hdf : questions_df sv1 = questions_df sv)
    by (destruct Hsv1 as [->| ->]; reflexivity).
  rewrite Hdf.
  destruct (loc_bank _ _ (pool_in_bank _ _ (Hin _ Hsound))) as [[q a] Hloc].
  rewrite Hloc. eexists; eexists. split; [reflexivity|]. simpl.
  split; [auto|]. split; [exact Hloc|]. intros c Hc Hu. eapply Hun; eauto.
Qed.

Lemma candidates_not_recent sv x :
  x ∈ candidates sv -> x ∉ recent_questions (state sv).
Proof.
  unfold candidates. intros Hx. apply list_elem_of_In, filter_In in Hx as [_ Hx].
  apply negb_true_iff, bool_decide_eq_false in Hx. exact Hx.
Qed.

Lemma select_from_candidates env sv
    (Hsound : sound env) (Hcand : candidates sv <> []) :
  exists sv' q,
    _select_random_question env sv = (sv', Returns q)
    /\ loc (questions_df sv) (index q) = Some (question q, answer q)
    /\ (index q ∉ recent_questions (state sv))
    /\ (forall c, c ∈ candidates sv -> unanswered (scores sv) c = true ->
                  unanswered (scores sv) (index q) = true)
    /\ recent_questions (state sv')
       = last_n 10 (recent_questions (state sv) ++ [index q]).
Proof.
  assert (Hbank : questions_df sv <> []).
  { intros E. apply Hcand. unfold candidates, bank_indices. rewrite E. reflexivity. }
  destruct (selection_sound env sv Hsound Hbank) as (sv' & q & Hsel & Hin & Hloc & Hun).
  assert (Hpool : pool sv = candidates sv).
  { unfold pool. destruct (candidates sv); [congruence|reflexivity]. }
  rewrite Hpool in *.
  exists sv', q. split; [exact Hsel|]. split; [exact Hloc|].
  split; [apply candidates_not_recent; exact Hin|]. split; [exact Hun|].
  apply select_returns in Hsel as (base & [[_ ->]|[Hnil _]] & ->);
    [reflexivity|congruence].
Qed.

(** X11.  When some question lies outside the recency buffer and the
    generator returns an entry of its sequence, the selection returns a
    row of the bank with its question and answer, outside the buffer, and
    unanswered if any candidate is; its id goes to the end of the buffer,
    of which the last ten are kept. *)
Theorem selection_skips_recent_and_answered env sv
    (Hsound : sound env) (Hcand : candidates sv <> []) :
  exists sv' q,
    _select_random_question env sv = (sv', Returns q)
    /\ loc (questions_df sv) (index q) = Some (question q, answer q)
    /\ (index q ∉ recent_questions (state sv))
    /\ (forall c, c ∈ candidates sv -> unanswered (scores sv) c = true ->
                  unanswered (scores sv) (index q) = true)
    /\ recent_questions (state sv')
       = last_n 10 (recent_questions (state sv) ++ [index q]).
Proof.
  exact (select_from_candidates env sv Hsound Hcand).
Qed.

Lemma selection_skips_recent_and_answered_witness :
  exists sv' q,
    _select_random_question (online [] 0) waiting_service = (sv', Returns q)
    /\ loc (questions_df waiting_service) (index q) = Some (question q, answer q)
    /\ (index q ∉ recent_questions (state waiting_service))
    /\ (forall c, c ∈ candidates waiting_service ->
          unanswered (scores waiting_service) c = true ->
          unanswered (scores waiting_service) (index q) = true)
    /\ recent_questions (state sv')
       = last_n 10 (recent_questions (state waiting_service) ++ [index q]).
Proof.
  apply (selection_skips_recent_and_answered (online [] 0) waiting_service).
  - apply first_entry_sound.
  - vm_compute. discriminate.
Defined.

(** X12.  With an empty bank the selection raises a division by zero, and a
    pass of the loop that is due to send raises it too: nothing is sent
    and no file is written. *)
Theorem empty_bank_is_an_error cfg env sv
    (Hbank : questions_df sv = [])
    (Hidle : waiting_for_response (state sv) = false)
    (Hdue : _should_send_new_question cfg env (state sv) = true) :
  _select_random_question env sv
  = (with_state (set_recent_questions []) sv, Raises "float division by zero"%string)
  /\ exists sv',
       loop_pass cfg env sv = (sv', Raises "float division by zero"%string)
       /\ waiting_for_response (state sv') = false
       /\ files sv' = files sv.
Proof.
  assert (Hsel : _select_random_question env sv
    = (with_state (set_recent_questions []) sv, Raises "float division by zero"%string)).
  { unfold _select_random_question, selection_draw. unfold_m.
    rewrite Hbank. reflexivity. }
  split; [exact Hsel|].
  unfold loop_pass, send_if_due, _send_question.
  unfold bind at 1. unfold bind at 1. unfold get at 1.
  rewrite Hidle, Hdue. simpl. unfold bind at 1. rewrite Hsel.
  eexists. split; [reflexivity|]. simpl. auto.
Qed.

Lemma empty_bank_is_an_error_witness :
  _select_random_question (offline 0 0) (started [])
  = (with_state (set_recent_questions []) (started []),
     Raises "float division by zero"%string)
  /\ exists sv',
       loop_pass cfg (offline 0 0) (started [])
       = (sv', Raises "float division by zero"%string)
       /\ waiting_for_response (state sv') = false
       /\ files sv' = files (started []).
Proof.
  apply (empty_bank_is_an_error cfg (offline 0 0) (started [])); reflexivity.
Defined.

Lemma last_n_all {A} (n : nat) (l : list A) : (length l <= n)%nat -> last_n n l = l.
Proof. apply last_n_short. Qed.

(** X13.  Selections in a row do not repeat a question while the buffer and
    the selections together stay within ten entries and within the size
    of the bank: the ids selected are rows of the bank, differ from one
    another and from the buffer, and are appended to it. *)
Theorem no_question_repeats_within_the_window envs : forall sv
    (Hsound : Forall sound envs)
    (Hnodup : NoDup (recent_questions (state sv)))
    (Hwindow : (length (recent_questions (state sv)) + length envs <= 10)%nat)
    (Hbank : (length (recent_questions (state sv)) + length envs
              <= length (questions_df sv))%nat),
  exists sv' ids,
    select_many envs sv = (sv', Returns ids)
    /\ length ids = length envs
    /\ NoDup (recent_questions (state sv) ++ ids)
    /\ recent_questions (state sv') = (recent_questions (state sv) ++ ids)%list
    /\ Forall (fun i => is_Some (loc (questions_df sv) i)) ids.
Proof.
  induction envs as [|env rest IH]; intros sv Hsound Hnodup Hwindow Hbank; simpl.
  - exists sv, []. unfold ret. rewrite app_nil_r. repeat split; auto.
  - simpl in Hwindow, Hbank. inversion Hsound as [|? ? Henv Hrest]; subst.
    assert (Hcand : candidates sv <> []) by (apply candidates_available; lia).
    destruct (select_from_candidates env sv Henv Hcand)
      as (sv1 & q & Hsel & Hloc & Hfresh & _ & Hrecent).
    pose proof Hsel as Hsel'.
    apply select_returns in Hsel' as (base & _ & Hsv1).
    assert (Hdf : questions_df sv1 = questions_df sv) by (subst sv1; reflexivity).
    rewrite last_n_short in Hrecent by (rewrite length_app; simpl; lia).
    destruct (IH sv1 Hrest) as (sv2 & ids & Hmany & Hlen & Hnd & Hrec & Hrows).
    + rewrite Hrecent. apply NoDup_app. split; [exact Hnodup|].
      split; [|apply NoDup_singleton].
      intros x Hx Hx'. apply list_elem_of_singleton in Hx'. subst x. contradiction.
    + rewrite Hrecent, length_app. simpl. lia.
    + rewrite Hrecent, Hdf, length_app. simpl. lia.
    + unfold bind at 1. rewrite Hsel. unfold bind at 1. rewrite Hmany.
      unfold ret. exists sv2, (index q :: ids). split; [reflexivity|]. simpl.
      rewrite Hrecent, <- app_assoc in Hnd, Hrec. simpl in Hnd, Hrec.
      split; [congruence|]. split; [exact Hnd|]. split; [exact Hrec|].
      constructor; [rewrite Hloc; eauto|]. rewrite <- Hdf. exact Hrows.
Qed.

Lemma no_question_repeats_within_the_window_witness :
  exists sv' ids,
    select_many [online [] 0; online [] 1; online [] 2] (started bank3)
    = (sv', Returns ids)
    /\ length ids = length [online [] 0; online [] 1; online [] 2]
    /\ NoDup (recent_questions (state (started bank3)) ++ ids)
    /\ recent_questions (state sv')
       = (recent_questions (state (started bank3)) ++ ids)%list
    /\ Forall (fun i => is_Some (loc (questions_df (started bank3)) i)) ids.
Proof.
  apply (no_question_repeats_within_the_window
           [online [] 0; online [] 1; online [] 2] (started bank3)).
  - repeat constructor; apply first_entry_sound.
  - constructor.
  - simpl. lia.
  - simpl. lia.
Defined.

(** Delivery *)
Lemma send_question_outcome env sv :
  sound env -> questions_df sv <> [] ->
  exists sv0 q,
    _select_random_question env sv = (sv0, Returns q)
    /\ loc (questions_df sv) (index q) = Some (question q, answer q)
    /\ _send_question env sv
       = match send_question env (question q) (usable_thread (thread_id (state sv0)))
                 (email_subject sv0) with
         | Returns result =>
             (fst (_save_state (with_state (fun st =>
                remember_sent (fst result)
                  (set_waiting_for_response true
                  (set_last_question_time (Some (now_sent env))
                  (set_thread_id (Some (snd result))
                  (set_sent_message_timestamp
                     (Some match EmailService.messages_get (gmail env) (fst result) with
                           | Some sent_msg => EmailService.timestamp sent_msg
                           | None => now_fallback_ms env
                           end)
                  (set_sent_message_id (Some (fst result))
                  (set_current_question_idx (Some (index q))
                  (set_current_answer (Some (answer q))
                  (set_current_question (Some (question q)) st))))))))) sv0)),
              Returns tt)
         | Raises _ =>
             (fst (_save_state (with_state (fun st =>
                set_sent_message_id None (set_waiting_for_response false st)) sv0)),
              Returns tt)
         end.
Proof.
  intros Hsound Hbank.
  destruct (selection_sound env sv Hsound Hbank) as (sv0 & q & Hsel & _ & Hloc & _).
  exists sv0, q. split; [exact Hsel|]. split; [exact Hloc|].
  unfold _send_question. unfold bind at 1. rewrite Hsel. unfold_m.
  destruct (send_question env _ _ _); reflexivity.
Qed.

(** X14.  When the mail is delivered, [_send_question] leaves the service
    waiting for the answer to the question selected: question, answer,
    row, message id, thread, the times, the id among the ids sent, and
    the state written to its file. *)
Theorem sent_question_is_recorded env sv message_id thread
    (Hsound : sound env) (Hbank : questions_df sv <> [])
    (Hsend : forall q t s, send_question env q t s = Returns (message_id, thread)) :
  exists sv' q,
    _send_question env sv = (sv', Returns tt)
    /\ loc (questions_df sv) (index q) = Some (question q, answer q)
    /\ current_question (state sv') = Some (question q)
    /\ current_answer (state sv') = Some (answer q)
    /\ current_question_idx (state sv') = Some (index q)
    /\ sent_message_id (state sv') = Some message_id
    /\ thread_id (state sv') = Some thread
    /\ waiting_for_response (state sv') = true
    /\ last_question_time (state sv') = Some (now_sent env)
    /\ sent_message_timestamp (state sv')
       = Some match EmailService.messages_get (gmail env) message_id with
              | Some sent_msg => EmailService.timestamp sent_msg
              | None => now_fallback_ms env
              end
    /\ message_id ∈ default [] (sent_message_ids (state sv'))
    /\ state_file (files sv') = Some (Document (state sv')).
Proof.
  destruct (send_question_outcome env sv Hsound Hbank) as (sv0 & q & _ & Hloc & Hs).
  rewrite Hsend in Hs. eexists; exists q. split; [exact Hs|].
  split; [exact Hloc|]. unfold_m. simpl.
  repeat split. unfold remember_sent. simpl. apply last_n_elem.
Qed.

Lemma sent_question_is_recorded_witness :
  exists sv' q,
    _send_question (online [] 5) (started bank3) = (sv', Returns tt)
    /\ current_question (state sv') = Some (question q)
    /\ sent_message_id (state sv') = Some "q1"
    /\ waiting_for_response (state sv') = true
    /\ state_file (files sv') = Some (Document (state sv')).
Proof.
  destruct (sent_question_is_recorded (online [] 5) (started bank3) "q1" "T")
    as (sv' & q & H & _ & Hq & _ & _ & Hid & _ & Hw & _ & _ & _ & Hf).
  - apply first_entry_sound.
  - discriminate.
  - intros q t s. reflexivity.
  - exists sv', q. auto.
Defined.

(** X15.  When the delivery of a due question fails, the pass ends normally
    with the service not waiting and no message id, the state written to
    its file, scores and log untouched; a question is due again at once. *)
Theorem failed_delivery_is_retried cfg env sv
    (Hidle : waiting_for_response (state sv) = false)
    (Hdue : _should_send_new_question cfg env (state sv) = true)
    (Hsound : sound env) (Hbank : questions_df sv <> [])
    (Hfail : forall q t s, exists e, send_question env q t s = Raises e) :
  exists sv',
    loop_pass cfg env sv = (sv', Returns Sleep)
    /\ waiting_for_response (state sv') = false
    /\ sent_message_id (state sv') = None
    /\ state_file (files sv') = Some (Document (state sv'))
    /\ scores sv' = scores sv /\ progress sv' = progress sv
    /\ forall env', _should_send_new_question cfg env' (state sv') = true.
Proof.
  destruct (send_question_outcome env sv Hsound Hbank) as (sv0 & q & Hsel & _ & Hs).
  destruct (Hfail (question q) (usable_thread (thread_id (state sv0)))
              (email_subject sv0)) as [e He].
  rewrite He in Hs.
  destruct (select_effect env sv) as (r & Hsv0 & _). rewrite Hsel in Hsv0.
  simpl in Hsv0. subst sv0.
  unfold loop_pass, send_if_due. unfold bind at 1. unfold bind at 1. unfold get at 1.
  rewrite Hidle, Hdue. simpl. rewrite Hs. unfold await_reply. unfold_m. simpl.
  eexists. split; [reflexivity|]. simpl. repeat split.
  intros env'. unfold _should_send_new_question. simpl.
  destruct (last_question_time (state sv)); reflexivity.
Qed.

Lemma failed_delivery_is_retried_witness :
  exists sv',
    loop_pass cfg (mail_down 0) (started bank3) = (sv', Returns Sleep)
    /\ waiting_for_response (state sv') = false
    /\ sent_message_id (state sv') = None
    /\ forall env', _should_send_new_question cfg env' (state sv') = true.
Proof.
  destruct (failed_delivery_is_retried cfg (mail_down 0) (started bank3))
    as (sv' & H & Hw & Hid & _ & _ & _ & Hdue).
  - reflexivity.
  - reflexivity.
  - apply mail_down_sound.
  - discriminate.
  - intros q t s. eexists. reflexivity.
  - exists sv'. auto.
Defined.

(** X16.  [_record_score] appends the score to the grades of that question,
    leaves the other questions alone and writes the ledger to its file;
    the question then counts as answered and its average is the mean of
    the earlier grades and the new one. *)
Theorem recorded_score_enters_the_ledger idx score sv :
  let sv' := fst (_record_score idx score sv) in
  let earlier := default [] (scores sv !! idx) in
  scores sv' !! idx = Some (earlier ++ [score])%list
  /\ (forall other, other <> idx -> scores sv' !! other = scores sv !! other)
  /\ scores_file (files sv') = Some (Document (scores sv'))
  /\ unanswered (scores sv') idx = false
  /\ Qeq (_get_average_score (scores sv') idx)
         (inject_Z (sumZ earlier + score)
          / inject_Z (Z.of_nat (length earlier) + 1))%Q
  /\ state sv' = state sv /\ progress sv' = progress sv.
Proof.
  intros sv' earlier. subst sv'. unfold_m. simpl.
  rewrite lookup_insert_eq.
  split; [reflexivity|]. split.
  { intros other Hne. rewrite lookup_insert_ne by congruence. reflexivity. }
  split; [reflexivity|]. split.
  { unfold unanswered. rewrite lookup_insert_eq, length_app. simpl.
    apply Nat.eqb_neq. lia. }
  split; [|auto].
  unfold _get_average_score. rewrite lookup_insert_eq.
  assert (Hsum : forall l, sumZ (l ++ [score]) = sumZ l + score).
  { induction l as [|x l IH]; simpl; [lia|]. rewrite IH. lia. }
  assert (Hlen : forall l : list Z,
             Z.of_nat (length (l ++ [score])) = Z.of_nat (length l) + 1).
  { intros l. rewrite length_app. simpl. lia. }
  rewrite <- Hsum, <- Hlen. subst earlier.
  destruct (default [] (scores sv !! idx) ++ [score])%list as [|x l] eqn:E.
  { destruct (default [] (scores sv !! idx)); discriminate. }
  reflexivity.
Qed.

(** X17.  A reply that is graded and whose feedback is delivered closes the
    round: the score is in the ledger, the round at the end of the log,
    the feedback id among the ids sent, the current question cleared, the
    thread and the time of the last question kept, and the three files
    hold what memory holds. *)
Theorem graded_round_is_recorded env response sv q a idx result feedback_id
    (Hq : current_question (state sv) = Some q)
    (Ha : current_answer (state sv) = Some a)
    (Htq : truthy q = true) (Hta : truthy a = true)
    (Hidx : current_question_idx (state sv) = Some idx)
    (Hgrade : grade_response env response a q = Returns result)
    (Hsend : forall text t s, send_feedback env text t s = Returns (Some feedback_id)) :
  let score := default 0 (GradingService.score result) in
  let message := GradingService.format_feedback_message result (Some a) in
  exists sv',
    _grade_and_send_feedback env response sv = (sv', Returns tt)
    /\ scores sv' !! idx = Some (default [] (scores sv !! idx) ++ [score])%list
    /\ progress sv'
       = (progress sv ++
          [{| pe_timestamp := now_progress env; pe_question_idx := Some idx;
              pe_question := q; pe_user_response := response;
              pe_feedback := message; pe_score := score |}])%list
    /\ sent_message_ids (state sv')
       = Some (last_n 10 (default [] (sent_message_ids (state sv)) ++ [feedback_id]))
    /\ waiting_for_response (state sv') = false
    /\ current_question (state sv') = None
    /\ current_answer (state sv') = None
    /\ current_question_idx (state sv') = None
    /\ sent_message_id (state sv') = None
    /\ sent_message_timestamp (state sv') = None
    /\ thread_id (state sv') = thread_id (state sv)
    /\ last_question_time (state sv') = last_question_time (state sv)
    /\ files sv' = {| state_file := Some (Document (state sv'));
                      scores_file := Some (Document (scores sv'));
                      progress_file := Some (Document (progress sv')) |}.
Proof.
  intros score message. unfold _grade_and_send_feedback. unfold_m.
  rewrite Hq, Ha, Htq, Hta, Hidx. simpl. rewrite Hgrade. simpl.
  rewrite Hsend. simpl.
  eexists. split; [reflexivity|]. simpl. rewrite lookup_insert_eq.
  unfold remember_sent.
  split; [reflexivity|]. split; [reflexivity|]. split.
  { destruct (sent_message_ids (state sv)) eqn:E; simpl; rewrite ?E; reflexivity. }
  destruct (sent_message_ids (state sv)); simpl; repeat split; reflexivity.
Qed.

Lemma graded_round_is_recorded_witness :
  exists sv',
    _grade_and_send_feedback (online two_answers 9) "Stars, gas and dust"
      waiting_service = (sv', Returns tt)
    /\ scores sv' !! 0 = Some [80]
    /\ waiting_for_response (state sv') = false
    /\ current_question (state sv') = None
    /\ files sv' = {| state_file := Some (Document (state sv'));
                      scores_file := Some (Document (scores sv'));
                      progress_file := Some (Document (progress sv')) |}.
Proof.
  destruct (graded_round_is_recorded (online two_answers 9) "Stars, gas and dust"
              waiting_service "What is a galaxy?"
              "A bound system of stars, gas and dark matter" 0 fair_grade "f1")
    as (sv' & H & Hs & _ & _ & Hw & Hq & _ & _ & _ & _ & _ & _ & Hf);
    try reflexivity.
  exists sv'. auto.
Defined.

(** X18.  When the grade is obtained but the feedback cannot be delivered,
    the score stays in the ledger and its file, the round is not logged,
    and the state changes only in that the service stops waiting. *)
Theorem feedback_failure_keeps_the_score env response sv q a idx result
    (Hq : current_question (state sv) = Some q)
    (Ha : current_answer (state sv) = Some a)
    (Htq : truthy q = true) (Hta : truthy a = true)
    (Hidx : current_question_idx (state sv) = Some idx)
    (Hgrade : grade_response env response a q = Returns result)
    (Hsend : forall text t s, exists e, send_feedback env text t s = Raises e) :
  exists sv',
    _grade_and_send_feedback env response sv = (sv', Returns tt)
    /\ scores sv' !! idx
       = Some (default [] (scores sv !! idx)
               ++ [default 0 (GradingService.score result)])%list
    /\ scores_file (files sv') = Some (Document (scores sv'))
    /\ progress sv' = progress sv
    /\ progress_file (files sv') = progress_file (files sv)
    /\ state sv' = set_waiting_for_response false (state sv)
    /\ state_file (files sv') = Some (Document (state sv')).
Proof.
  unfold _grade_and_send_feedback. unfold_m.
  rewrite Hq, Ha, Htq, Hta, Hidx. simpl. rewrite Hgrade. simpl.
  match goal with
  | |- context [send_feedback env ?text ?t ?s] =>
      destruct (Hsend text t s) as [e He]; rewrite He
  end. simpl.
  eexists. split; [reflexivity|]. simpl. rewrite lookup_insert_eq.
  repeat split; reflexivity.
Qed.

Lemma feedback_failure_keeps_the_score_witness :
  exists sv',
    _grade_and_send_feedback (mail_down 9) "Stars, gas and dust" waiting_service
    = (sv', Returns tt)
    /\ scores sv' !! 0 = Some [80]
    /\ progress sv' = progress waiting_service
    /\ state sv' = set_waiting_for_response false (state waiting_service).
Proof.
  destruct (feedback_failure_keeps_the_score (mail_down 9) "Stars, gas and dust"
              waiting_service "What is a galaxy?"
              "A bound system of stars, gas and dark matter" 0 fair_grade)
    as (sv' & H & Hs & _ & Hp & _ & Hst & _);
    try reflexivity.
  - intros text t s. eexists. reflexivity.
  - exists sv'. auto.
Defined.

Lemma ledger_step_refl n sv : ledger_step n sv sv.
Proof.
  split; [|auto]. intros idx. exists []. rewrite app_nil_r. split; [reflexivity|simpl; lia].
Qed.

Lemma ledger_step_trans n m sv1 sv2 sv3 :
  ledger_step n sv1 sv2 -> ledger_step m sv2 sv3 -> ledger_step (n + m) sv1 sv3.
Proof.
  intros [H1 S1] [H2 S2]. split; [|auto].
  intros idx. destruct (H1 idx) as (a & Ha & La). destruct (H2 idx) as (b & Hb & Lb).
  exists (a ++ b)%list. rewrite Hb, Ha, <- app_assoc, length_app. split; [reflexivity|lia].
Qed.

Lemma ledger_step_state n f sv : ledger_step n sv (with_state f sv).
Proof.
  split; [|auto]. intros idx. exists []. unfold grades. simpl.
  rewrite app_nil_r. split; [reflexivity|lia].
Qed.

Lemma ledger_step_saved n sv sv' :
  scores sv' = scores sv -> progress sv' = progress sv ->
  scores_file (files sv') = scores_file (files sv) ->
  progress_file (files sv') = progress_file (files sv) ->
  ledger_step n sv sv'.
Proof.
  intros Hs Hp Hsf Hpf. split.
  - intros idx. exists []. unfold grades. rewrite Hs, app_nil_r. split; [reflexivity|simpl; lia].
  - unfold stored, _load_scores, _load_progress. rewrite Hs, Hp, Hsf, Hpf. auto.
Qed.

Lemma selection_draw_state sv sv1 o :
  selection_draw sv = (sv1, o) ->
  sv1 = sv \/ sv1 = with_state (set_recent_questions []) sv.
Proof.
  unfold selection_draw. unfold_m. intros H.
  repeat (case_match; simplify_eq/=); auto.
Qed.

Lemma select_state env sv sv' out :
  _select_random_question env sv = (sv', out) ->
  exists r, sv' = with_state (set_recent_questions r) sv
    /\ forall i, i ∈ r ->
         i ∈ recent_questions (state sv)
         \/ 0 <= i < Z.of_nat (length (questions_df sv)).
Proof.
  unfold _select_random_question. unfold bind at 1.
  destruct (selection_draw sv) as [sv1 o] eqn:Hd.
  apply selection_draw_state in Hd.
  destruct o as [d|e].
  - unfold_m. intros H.
    assert (Hloc : forall i q, loc (questions_df sv) i = Some q ->
                     0 <= i < Z.of_nat (length (questions_df sv))).
    { unfold loc. intros i q. destruct (i <? 0) eqn:E; [discriminate|].
      intros Hq. apply lookup_lt_Some in Hq. apply Z.ltb_ge in E. lia. }
    assert (Hdf : questions_df sv1 = questions_df sv)
      by (destruct Hd as [->| ->]; reflexivity).
    rewrite Hdf in H.
    destruct (loc (questions_df sv) (random env d)) as [[q a]|] eqn:E;
      simplify_eq/=.
    + eexists. split.
      { destruct Hd as [->| ->]; reflexivity. }
      intros i Hi.
      match type of Hi with
      | _ ∈ last_n ?n ?l =>
          destruct (last_n_suffix n l) as [k Hk];
          assert (Hi' : i ∈ l) by (rewrite Hk; apply elem_of_app; auto)
      end.
      clear Hi. apply elem_of_app in Hi' as [Hi|Hi].
      * destruct Hd as [->| ->]; simpl in Hi; [auto|]. inversion Hi.
      * apply list_elem_of_singleton in Hi. subst i. right. eapply Hloc; eauto.
    + destruct Hd as [->| ->].
      * exists (recent_questions (state sv)). split; [destruct sv as [[] ? ? ? ? ?]; reflexivity|auto].
      * exists []. split; [reflexivity|]. intros i Hi. inversion Hi.
  - intros H. simplify_eq/=. destruct Hd as [->| ->].
    + exists (recent_questions (state sv)). split; [destruct sv as [[] ? ? ? ? ?]; reflexivity|auto].
    + exists []. split; [reflexivity|]. intros i Hi. inversion Hi.
Qed.

Lemma keeps_refl n sv : keeps n sv sv.
Proof. split; [reflexivity|]. split; [apply ledger_step_refl|]. split; auto. Qed.

Lemma keeps_trans n m sv1 sv2 sv3 :
  keeps n sv1 sv2 -> keeps m sv2 sv3 -> keeps (n + m) sv1 sv3.
Proof.
  intros (Q1 & L1 & R1 & W1) (Q2 & L2 & R2 & W2).
  split; [congruence|]. split; [eapply ledger_step_trans; eauto|].
  split; [|auto]. intros i Hi. destruct (R2 i Hi) as [H|H]; [auto|].
  right. rewrite <- Q1. exact H.
Qed.

Lemma keeps_weaken n m sv sv' : (n <= m)%nat -> keeps n sv sv' -> keeps m sv sv'.
Proof.
  intros Hnm (Q & [L S] & R & W). split; [auto|]. split; [|auto].
  split; [|auto]. intros idx. destruct (L idx) as (more & ? & ?).
  exists more. split; [auto|lia].
Qed.

Lemma select_keeps env sv sv' out :
  _select_random_question env sv = (sv', out) -> keeps 0 sv sv'.
Proof.
  intros H. apply select_state in H as (r & -> & Hr).
  split; [reflexivity|]. split; [apply ledger_step_state|].
  split; [exact Hr|]. intros Hw. exact Hw.
Qed.

Lemma send_keeps env sv sv' out :
  _send_question env sv = (sv', out) -> keeps 0 sv sv'.
Proof.
  unfold _send_question. unfold bind at 1.
  destruct (_select_random_question env sv) as [sv1 [q|e]] eqn:Hsel;
    apply select_state in Hsel as (r & -> & Hr).
  - unfold_m. destruct sv as [st sc pr df subj fs]. simpl in *.
    destruct (send_question env _ _ _) as [[rid rth]|e]; simpl;
      intros [= <- <-]; (split; [reflexivity|]);
      (split; [apply ledger_step_saved; reflexivity|]);
      (split; [exact Hr|]); unfold waiting_complete; simpl.
    + intros _ _. repeat split; eexists; reflexivity.
    + intros _; discriminate.
  - intros [= <- <-]. split; [reflexivity|]. split; [apply ledger_step_state|].
    split; [exact Hr|]. intros Hw. exact Hw.
Qed.

Lemma check_keeps cfg env sv sv' out :
  _check_for_response cfg env sv = (sv', out) -> keeps 0 sv sv'.
Proof.
  destruct (check_effect cfg env sv) as (ids & r & -> & _).
  intros [= <- _]. split; [reflexivity|]. split; [apply ledger_step_state|].
  split; [auto|]. intros Hw. exact Hw.
Qed.

Lemma grade_keeps env text sv sv' out :
  _grade_and_send_feedback env text sv = (sv', out) -> keeps 1 sv sv'.
Proof.
  unfold _grade_and_send_feedback. unfold_m.
  unfold remember_sent, round_closed.
  destruct sv as [st sc pr df subj fs].
  destruct st as [cq ca ci th sid sts lq w rq sids]. simpl.
  intros H.
  assert (Hledger : forall idx (score : Z) (sc : gmap Z (list Z)) o,
    exists more,
      default [] (<[idx := (default [] (sc !! idx) ++ [score])%list]> sc !! o)
      = (default [] (sc !! o) ++ more)%list /\ (length more <= 1)%nat).
  { intros idx score sc0 o. destruct (decide (o = idx)) as [->|Hne].
    - rewrite lookup_insert_eq. exists [score]. split; [reflexivity|simpl; lia].
    - rewrite lookup_insert_ne by congruence. exists []. rewrite app_nil_r.
      split; [reflexivity|simpl; lia]. }
  repeat (case_match; simplify_eq/=);
    (split; [reflexivity|]);
    (split; [|split; [auto|unfold waiting_complete; simpl; try tauto;
                            intros _; discriminate]]);
    (split; [intros o; unfold grades; simpl;
             first [apply Hledger
                   |exists []; rewrite app_nil_r; split; [reflexivity|simpl; lia]]
            |unfold stored, _load_scores, _load_progress; simpl; intros [-> ->];
             split; reflexivity]).
Qed.

Lemma send_if_due_keeps cfg env sv sv' out :
  send_if_due cfg env sv = (sv', out) -> keeps 0 sv sv'.
Proof.
  unfold send_if_due. unfold bind at 1. unfold get at 1.
  destruct (negb (waiting_for_response (state sv))
            && _should_send_new_question cfg env (state sv)).
  - apply send_keeps.
  - unfold ret. intros [= <- _]. apply keeps_refl.
Qed.

Lemma await_reply_keeps cfg env sv sv' out :
  await_reply cfg env sv = (sv', out) -> keeps 1 sv sv'.
Proof.
  unfold await_reply. unfold bind at 1. unfold get at 1.
  destruct (waiting_for_response (state sv)) eqn:Hw.
  2:{ unfold ret. intros [= <- _]. apply keeps_refl. }
  destruct (match last_question_time (state sv) with
            | Some last_time => _ | None => false end) eqn:Ht.
  - unfold_m. intros [= <- _]. split; [reflexivity|].
    split; [apply ledger_step_saved; reflexivity|]. split; [auto|].
    intros _. unfold waiting_complete. simpl. discriminate.
  - unfold bind at 1.
    destruct (_check_for_response cfg env sv) as [sv1 o] eqn:Hc.
    pose proof (check_effect cfg env sv) as (ids & r & Hce & _).
    rewrite Hc in Hce. injection Hce as Hsv1 Ho. subst o.
    apply check_keeps in Hc.
    destruct r as [text|]; [destruct (truthy text)|].
    + unfold bind.
      destruct (_grade_and_send_feedback env text sv1) as [sv2 o] eqn:Hg.
      apply grade_keeps in Hg.
      assert (keeps 1 sv sv2) by (apply (keeps_trans 0 1 sv sv1 sv2); auto).
      destruct o; unfold ret; intros [= <- _]; auto.
    + unfold_m. intros [= <- _]. eapply keeps_weaken; [|exact Hc]. lia.
    + unfold_m. intros [= <- _]. eapply keeps_weaken; [|exact Hc]. lia.
Qed.

Lemma loop_pass_keeps cfg env sv sv' out :
  loop_pass cfg env sv = (sv', out) -> keeps 1 sv sv'.
Proof.
  unfold loop_pass. unfold bind at 1.
  destruct (send_if_due cfg env sv) as [sv1 [[]|e]] eqn:Hs;
    apply send_if_due_keeps in Hs.
  - intros Ha. apply await_reply_keeps in Ha.
    apply (keeps_trans 0 1 sv sv1 sv'); auto.
  - intros [= <- _]. eapply keeps_weaken; [|exact Hs]. lia.
Qed.

Lemma run_keeps cfg envs : forall sv sv' out,
  run cfg envs sv = (sv', out) -> keeps (length envs) sv sv'.
Proof.
  induction envs as [|env rest IH]; intros sv sv' out; simpl.
  - unfold ret. intros [= <- _]. apply keeps_refl.
  - unfold bind at 1.
    destruct (loop_pass cfg env sv) as [sv1 [c|e]] eqn:Hp;
      apply loop_pass_keeps in Hp.
    + intros Hr. apply IH in Hr.
      apply (keeps_trans 1 (length rest) sv sv1 sv'); auto.
    + intros [= <- _]. eapply keeps_weaken; [|exact Hp]. lia.
Qed.

Lemma maximum_bound x l i : i ∈ (x :: l) -> i <= maximum x l.
Proof.
  unfold maximum. induction l as [|y l IH]; simpl.
  - intros Hi. apply list_elem_of_singleton in Hi. lia.
  - intros Hi. apply elem_of_cons in Hi as [->|Hi].
    + assert (x <= fold_right Z.max x l) by (apply IH; left). lia.
    + apply elem_of_cons in Hi as [->|Hi]; [lia|].
      assert (i <= fold_right Z.max x l) by (apply IH; right; exact Hi). lia.
Qed.

Lemma discard_stale_below n st i :
  i ∈ recent_questions (discard_stale n st) -> i < n.
Proof.
  unfold discard_stale. destruct (recent_questions st) as [|x l] eqn:E.
  - rewrite E. intros Hi. inversion Hi.
  - destruct (n <=? maximum x l) eqn:Hm; simpl.
    + intros Hi. inversion Hi.
    + rewrite E. intros Hi. apply maximum_bound in Hi. apply Z.leb_gt in Hm. lia.
Qed.

Lemma startup_stored cfg rows subject reset_state reset_waiting fs sv :
  (__init__ cfg (Returns rows) subject reset_state reset_waiting fs).2 = Returns sv ->
  questions_df sv = rows
  /\ stored sv
  /\ (forall i, i ∈ recent_questions (state sv) -> i < Z.of_nat (length rows))
  /\ (reset_waiting = true -> waiting_for_response (state sv) = false).
Proof.
  unfold __init__. simpl. intros [= <-]. simpl.
  split; [reflexivity|]. split; [split; reflexivity|].
  split; [intros i; apply discard_stale_below|].
  intros ->. unfold discard_stale, _load_state.
  destruct (state_file _) as [[|st]|]; simpl;
    repeat (case_match; simplify_eq/=); reflexivity.
Qed.

(** *** Theorems *)

(** X19.  After start-up and through any run, every id of the recency buffer
    is below the number of rows of the bank. *)
Theorem recent_ids_stay_in_range
    cfg rows subject reset_state reset_waiting fs sv envs
    (Hstart : (__init__ cfg (Returns rows) subject reset_state reset_waiting fs).2
              = Returns sv) :
  forall i, i ∈ recent_questions (state (run cfg envs sv).1) ->
            i < Z.of_nat (length rows).
Proof.
  apply startup_stored in Hstart as (Hdf & _ & Hrange & _).
  destruct (run cfg envs sv) as [sv' out] eqn:Hrun.
  apply run_keeps in Hrun as (_ & _ & Hr & _).
  intros i Hi. destruct (Hr i Hi) as [H|H]; [auto|]. rewrite Hdf in H. lia.
Qed.

Lemma recent_ids_stay_in_range_witness :
  Forall (fun i => i < Z.of_nat (length bank3))
    (recent_questions
       (state (run cfg [online [] 0; online two_answers 1] (started bank3)).1)).
Proof.
  apply Forall_forall.
  apply (recent_ids_stay_in_range cfg bank3 None true true no_files (started bank3)
           [online [] 0; online two_answers 1]).
  reflexivity.
Defined.

(** X20.  A run removes no grade and changes none: the grades of a question
    after the run are those before it followed by at most one new grade
    per pass. *)
Theorem grades_only_accumulate cfg envs sv idx :
  exists more,
    grades (run cfg envs sv).1 idx = (grades sv idx ++ more)%list
    /\ (length more <= length envs)%nat.
Proof.
  destruct (run cfg envs sv) as [sv' out] eqn:Hrun.
  apply run_keeps in Hrun as (_ & [Hl _] & _). apply Hl.
Qed.

(** X21.  After a run, a start that does not reset the state loads the very
    ledger and log the service held in memory: no grade and no logged
    round is lost with the process. *)
Theorem grades_survive_a_restart
    cfg rows subject reset_state reset_waiting fs sv envs
    cfg' rows' subject' reset_waiting' sv2
    (Hstart : (__init__ cfg (Returns rows) subject reset_state reset_waiting fs).2
              = Returns sv)
    (Hagain : (__init__ cfg' (Returns rows') subject' false reset_waiting'
                 (files (run cfg envs sv).1)).2 = Returns sv2) :
  scores sv2 = scores (run cfg envs sv).1
  /\ progress sv2 = progress (run cfg envs sv).1.
Proof.
  apply startup_stored in Hstart as (_ & Hst & _).
  destruct (run cfg envs sv) as [sv' out] eqn:Hrun.
  apply run_keeps in Hrun as (_ & [_ Hs] & _). specialize (Hs Hst).
  unfold __init__ in Hagain. simpl in Hagain. injection Hagain as <-. simpl.
  destruct Hs as [-> ->]. auto.
Qed.

Lemma grades_survive_a_restart_witness :
  exists sv2,
    (__init__ cfg (Returns bank3) None false true
       (files (run cfg [online two_answers 9] resumed).1)).2 = Returns sv2
    /\ scores sv2 = scores (run cfg [online two_answers 9] resumed).1
    /\ scores sv2 !! 0 = Some [80].
Proof.
  eexists. split; [reflexivity|]. split.
  - apply (grades_survive_a_restart cfg bank3 None false false used_files resumed
             [online two_answers 9] cfg bank3 None true); reflexivity.
  - vm_compute. reflexivity.
Defined.

(** X22.  After a start that resets the waiting flag, and through any run,
    a service that waits for a reply knows the question, its answer and
    row, the thread, the id of the message sent and the time of sending. *)
Theorem waiting_service_knows_its_question
    cfg rows subject reset_state fs sv envs
    (Hstart : (__init__ cfg (Returns rows) subject reset_state true fs).2
              = Returns sv) :
  waiting_complete (state (run cfg envs sv).1).
Proof.
  apply startup_stored in Hstart as (_ & _ & _ & Hw). specialize (Hw eq_refl).
  destruct (run cfg envs sv) as [sv' out] eqn:Hrun.
  apply run_keeps in Hrun as (_ & _ & _ & Hk). apply Hk.
  intros Hw'. congruence.
Qed.

Lemma waiting_service_knows_its_question_witness :
  waiting_for_response (state (run cfg [online [] 0] (started bank3)).1) = true
  /\ waiting_complete (state (run cfg [online [] 0] (started bank3)).1).
Proof.
  split; [reflexivity|].
  apply (waiting_service_knows_its_question cfg bank3 None true no_files
           (started bank3)).
  reflexivity.
Defined.

(** *** The reply check of the service *)

(** X23.  A reply that [_check_for_response] reports was found while the
    service was waiting, is not empty, and is the cleaned text of a
    message of the current thread that is neither the question sent nor
    any message the service sent before. *)
Theorem service_reply_is_a_new_message cfg env sv sv' text
    (Hreply : _check_for_response cfg env sv = (sv', Returns (Some text))) :
  waiting_for_response (state sv) = true
  /\ truthy text = true
  /\ exists thread sent messages m,
       thread_id (state sv) = Some thread
       /\ sent_message_id (state sv) = Some sent
       /\ EmailService.threads_get (gmail env) thread = Some messages
       /\ m ∈ messages
       /\ EmailService.id m <> sent
       /\ (EmailService.id m ∉ default [] (sent_message_ids (state sv)))
       /\ text = EmailService.clean_response (EmailService.extract_message_text m).
Proof.
  revert Hreply. unfold _check_for_response. unfold_m.
  destruct (waiting_for_response (state sv)) eqn:Hw; simpl; [|discriminate].
  destruct (thread_id (state sv)) as [thread|]; [|discriminate].
  destruct (sent_message_id (state sv)) as [sent|]; [|discriminate].
  destruct (truthy thread && truthy sent); [|discriminate].
  set (known := default [] (sent_message_ids (state sv))).
  set (ids := if bool_decide (sent ∈ known) then known else (known ++ [sent])%list).
  intros H.
  assert (Hc : EmailService.check_for_response cfg (gmail env) thread sent
                 (sent_message_timestamp (state sv)) (Some ids)
               = Returns (Some text)).
  { destruct (sent_message_ids (state sv)); simpl in H;
      destruct (EmailService.check_for_response _ _ _ _ _ _) as [[t|]|e];
      simplify_eq/=; reflexivity. }
  apply MailFacts.check_for_response_sound in Hc
    as (messages & m & Hth & Hm & Hne & Hex & _ & _ & _ & Htext & Hlen & _).
  split; [reflexivity|]. split.
  { destruct text as [|? ?]; [simpl in Hlen; lia|reflexivity]. }
  exists thread, sent, messages, m. repeat split; auto.
  simpl in Hex. subst ids. destruct (bool_decide (sent ∈ known)); [exact Hex|].
  rewrite not_elem_of_app in Hex. tauto.
Qed.

Lemma service_reply_is_a_new_message_witness :
  waiting_for_response (state waiting_service) = true
  /\ truthy "Stars, gas and dust" = true
  /\ exists thread sent messages m,
       thread_id (state waiting_service) = Some thread
       /\ sent_message_id (state waiting_service) = Some sent
       /\ EmailService.threads_get (gmail (online two_answers 9)) thread = Some messages
       /\ m ∈ messages
       /\ EmailService.id m <> sent
       /\ (EmailService.id m ∉ default [] (sent_message_ids (state waiting_service)))
       /\ "Stars, gas and dust"
          = EmailService.clean_response (EmailService.extract_message_text m).
Proof.
  apply (service_reply_is_a_new_message cfg (online two_answers 9) waiting_service
           waiting_service).
  vm_compute. reflexivity.
Defined.

End ServiceFacts.
